(** * Verification of the SKILL.md markdownlint rules

    Shallow embedding of the two custom markdownlint rules

      - [skill-length] (SKILL001), in [tools/markdownlint-skill-length.cjs]
      - [skill-frontmatter] (SKILL002)

    and of what they use of the JavaScript library: strings, regular
    expressions and the [path] module of Node.

    JavaScript strings are sequences of UTF-16 code units; they are
    modelled as lists of code units.  The regular expressions of the
    rules are transcribed literally as syntax trees and run by a
    backtracking matcher that follows the ECMAScript pattern semantics
    (continuation-passing matchers, greedy and lazy repetition, captures,
    look-ahead, the [i] and [m] flags). *)

From Stdlib Require Import String Ascii DecimalString.
From Stdlib Require Import List Bool Arith NArith Lia.
Import ListNotations.

#[local] Set Warnings "-abstract-large-number".

(** ** JavaScript strings *)

Module JS.

Definition codeunit := N.
Definition jsstring := list codeunit.

(** A string literal of the source (the literals of the rules are ASCII). *)
Definition lit (s : string) : jsstring :=
  map N_of_ascii (list_ascii_of_string s).
Arguments lit s%_string.

(** The double and the single quote character. *)
Definition dquote : codeunit := 34%N.
Definition squote : codeunit := 39%N.

Definition str_eqb (a b : jsstring) : bool :=
  if list_eq_dec N.eq_dec a b then true else false.

(** [LineTerminator]: LF, CR, LS, PS. *)
Definition isLineTerminator (c : codeunit) : bool :=
  (c =? 10)%N || (c =? 13)%N || (c =? 8232)%N || (c =? 8233)%N.

(** [WhiteSpace] or [LineTerminator]: the characters of [\s] and the ones
    removed by [String.prototype.trim]. *)
Definition isSpace (c : codeunit) : bool :=
  ((9 <=? c) && (c <=? 13))%N || (c =? 32)%N || (c =? 160)%N || (c =? 5760)%N
  || ((8192 <=? c) && (c <=? 8202))%N || (c =? 8232)%N || (c =? 8233)%N
  || (c =? 8239)%N || (c =? 8287)%N || (c =? 12288)%N || (c =? 65279)%N.

(** The word characters of [\b]: [A-Za-z0-9_]. *)
Definition isWordChar (c : codeunit) : bool :=
  ((97 <=? c) && (c <=? 122))%N || ((65 <=? c) && (c <=? 90))%N
  || ((48 <=? c) && (c <=? 57))%N || (c =? 95)%N.

(** [Canonicalize] of a pattern without the [u] flag, as far as the rules
    need it: the only pattern with the [i] flag consists of ASCII letters,
    and a code unit above 127 never canonicalizes to an ASCII one. *)
Definition canonicalize (c : codeunit) : codeunit :=
  if ((97 <=? c) && (c <=? 122))%N then (c - 32)%N else c.

(** [String.prototype.endsWith]. *)
Definition endsWith (s suffix : jsstring) : bool :=
  str_eqb (skipn (length s - length suffix) s) suffix.

(** [String.prototype.startsWith]. *)
Definition startsWith (s pre : jsstring) : bool :=
  str_eqb (firstn (length pre) s) pre.

(** [String.prototype.trim]. *)
Fixpoint trimStart (s : jsstring) : jsstring :=
  match s with
  | c :: s' => if isSpace c then trimStart s' else s
  | [] => []
  end.

Definition trimEnd (s : jsstring) : jsstring := rev (trimStart (rev s)).

Definition trim (s : jsstring) : jsstring := trimEnd (trimStart s).

(** [Array.prototype.join]. *)
Fixpoint join (sep : jsstring) (l : list jsstring) : jsstring :=
  match l with
  | [] => []
  | [x] => x
  | x :: l' => x ++ sep ++ join sep l'
  end.

(** Decimal rendering of a number inside a template literal. *)
Definition digits (n : nat) : jsstring :=
  lit (NilEmpty.string_of_uint (Nat.to_uint n)).

End JS.

(** ** Regular expressions

    The syntax covers what the patterns of the two rules use.  The matcher
    follows the ECMAScript semantics (CompileSubpattern, RepeatMatcher,
    CharacterSetMatcher, the assertions): a matcher takes a state and a
    continuation and returns the final state or a failure. *)

Module Regex.
Import JS.

Inductive class_item : Type :=
| CChar (c : codeunit)              (* a single character *)
| CRange (lo hi : codeunit)         (* lo-hi *)
| CSpace                            (* \s *)
| CNonSpace.                        (* \S *)

Inductive regex : Type :=
| Empty
| Chr (c : codeunit)                          (* a pattern character *)
| Dot                                         (* . *)
| Class (invert : bool) (items : list class_item)  (* [...] and [^...] *)
| Seq (r1 r2 : regex)
| Alt (r1 r2 : regex)                         (* r1|r2 *)
| Repeat (min : nat) (greedy : bool) (r : regex)  (* r* r+ r*? r+? *)
| Group (i : nat) (r : regex)                 (* capturing group number i *)
| Bol                                         (* ^ *)
| Eol                                         (* $ *)
| WordBoundary                                (* \b *)
| LookAhead (r : regex).                      (* (?=r) *)

Record flags : Type := { ignoreCase : bool; multiline : bool }.

(** The match state: [prev] is the character before the current position
    ([Input[endIndex-1]], absent at index 0), [rest] the input from the
    current position on ([Input[endIndex..]]), [caps] the captures. *)
Record state : Type :=
  { prev : option codeunit; rest : list codeunit; caps : list (nat * jsstring) }.

(** The outcome of a matcher; [OutOfFuel] is never produced (see
    [matcher_fuel]). *)
Inductive result : Type :=
| Match (s : state)
| Failure
| OutOfFuel.

Definition orelse (a : result) (b : unit -> result) : result :=
  match a with
  | Failure => b tt
  | _ => a
  end.

Definition advance (c : codeunit) (s : state) : state :=
  {| prev := Some c; rest := tl (rest s); caps := caps s |}.

Definition in_item (c : codeunit) (it : class_item) : bool :=
  match it with
  | CChar a => (c =? a)%N
  | CRange lo hi => ((lo <=? c) && (c <=? hi))%N
  | CSpace => isSpace c
  | CNonSpace => negb (isSpace c)
  end.

Definition in_class (invert : bool) (items : list class_item) (c : codeunit) : bool :=
  xorb invert (existsb (in_item c) items).

(** One character of the input against a predicate. *)
Definition char_matcher (p : codeunit -> bool) (k : state -> result) (x : state) : result :=
  match rest x with
  | c :: _ => if p c then k (advance c x) else Failure
  | [] => Failure
  end.

Definition set_cap (i : nat) (v : jsstring) (s : state) : state :=
  {| prev := prev s; rest := rest s; caps := (i, v) :: caps s |}.

Definition at_bol (f : flags) (x : state) : bool :=
  match prev x with
  | None => true
  | Some c => multiline f && isLineTerminator c
  end.

Definition at_eol (f : flags) (x : state) : bool :=
  match rest x with
  | [] => true
  | c :: _ => multiline f && isLineTerminator c
  end.

Definition is_word (o : option codeunit) : bool :=
  match o with Some c => isWordChar c | None => false end.

Definition at_word_boundary (x : state) : bool :=
  xorb (is_word (prev x)) (is_word (hd_error (rest x))).

(** [RepeatMatcher] for an atom [m] without an upper bound: an iteration
    that matches the empty string once [min] is reached is rejected.  Each
    iteration lowers [min] or consumes input, so [min + length rest + 1]
    units of fuel are never used up (see [matcher_fuel]).  The captures of
    the atom are not reset between iterations: no pattern of the rules has
    a group inside a repetition. *)
Fixpoint repeat_matcher (m : (state -> result) -> state -> result) (greedy : bool)
         (k : state -> result) (fuel min : nat) (x : state) {struct fuel} : result :=
  match fuel with
  | O => OutOfFuel
  | S fuel' =>
      let d := fun y =>
        if (min =? 0) && (length (rest y) =? length (rest x))
        then Failure
        else repeat_matcher m greedy k fuel' (pred min) y in
      if negb (min =? 0) then m d x
      else if greedy
           then orelse (m d x) (fun _ => k x)
           else orelse (k x) (fun _ => m d x)
  end.

(** The [i] flag acts on pattern characters; no pattern of the rules
    combines it with a class. *)
Section Matcher.
Variable f : flags.

Fixpoint matcher (r : regex) (k : state -> result) (x : state) {struct r} : result :=
  match r with
  | Empty => k x
  | Chr a =>
      char_matcher (fun c => if ignoreCase f
                             then (canonicalize c =? canonicalize a)%N
                             else (c =? a)%N) k x
  | Dot => char_matcher (fun c => negb (isLineTerminator c)) k x
  | Class invert items => char_matcher (in_class invert items) k x
  | Seq r1 r2 => matcher r1 (fun y => matcher r2 k y) x
  | Alt r1 r2 => orelse (matcher r1 k x) (fun _ => matcher r2 k x)
  | Repeat min greedy r' =>
      repeat_matcher (matcher r') greedy k (min + length (rest x) + 1) min x
  | Group i r' =>
      matcher r' (fun y =>
        k (set_cap i (firstn (length (rest x) - length (rest y)) (rest x)) y)) x
  | Bol => if at_bol f x then k x else Failure
  | Eol => if at_eol f x then k x else Failure
  | WordBoundary => if at_word_boundary x then k x else Failure
  | LookAhead r' =>
      match matcher r' Match x with
      | Match y => k {| prev := prev x; rest := rest x; caps := caps y |}
      | other => other
      end
  end.

(** The pattern tried at one position. *)
Definition match_here (r : regex) (p : option codeunit) (s : jsstring) : result :=
  matcher r Match {| prev := p; rest := s; caps := [] |}.

(** [RegExpBuiltinExec] without the [g] and [y] flags: the leftmost
    position where the pattern matches.  The result is the text before
    the match and the final state. *)
Fixpoint exec_from (r : regex) (before : jsstring) (p : option codeunit) (s : jsstring)
  : option (jsstring * state) :=
  match match_here r p s with
  | Match y => Some (rev before, y)
  | _ =>
      match s with
      | [] => None
      | c :: s' => exec_from r (c :: before) (Some c) s'
      end
  end.

Definition exec (r : regex) (s : jsstring) : option (jsstring * state) :=
  exec_from r [] None s.

(** [RegExp.prototype.test]. *)
Definition test (r : regex) (s : jsstring) : bool :=
  match exec r s with Some _ => true | None => false end.

(** The value of capture [i] of a match ([m[i]] in the source). *)
Definition capture (i : nat) (y : state) : option jsstring :=
  option_map snd (find (fun p => fst p =? i) (caps y)).

(** [s.replace(r, repl)] for a pattern with the [g] flag and a constant
    replacement: the matches are found from left to right, each search
    starting where the previous match ended (one character further after
    an empty match).  [skip] counts the characters of the current match
    that are still to be dropped. *)
Fixpoint replace_from (r : regex) (repl : jsstring) (skip : nat)
         (p : option codeunit) (s : jsstring) : jsstring :=
  match skip with
  | S skip' =>
      match s with
      | [] => []
      | c :: s' => replace_from r repl skip' (Some c) s'
      end
  | O =>
      match match_here r p s with
      | Match y =>
          let len := length s - length (rest y) in
          match s with
          | [] => repl
          | c :: s' =>
              if len =? 0
              then repl ++ c :: replace_from r repl 0 (Some c) s'
              else repl ++ replace_from r repl (len - 1) (Some c) s'
          end
      | _ =>
          match s with
          | [] => []
          | c :: s' => c :: replace_from r repl 0 (Some c) s'
          end
      end
  end.

Definition replaceAll (r : regex) (repl : jsstring) (s : jsstring) : jsstring :=
  replace_from r repl 0 None s.

(** [s.split(r)] ([RegExp.prototype[Symbol.split]]): the pattern is tried
    at each position [q]; a match that ends where the current piece
    starts is ignored, any other match closes the piece and the search
    goes on where the match ended.  [cur] is the piece being collected,
    reversed; [skip] counts the characters of the current match that are
    still to be dropped. *)
Fixpoint split_from (r : regex) (cur : jsstring) (skip : nat)
         (p : option codeunit) (s : jsstring) : list jsstring :=
  match s with
  | [] => [rev cur]
  | c :: s' =>
      match skip with
      | S skip' => split_from r cur skip' (Some c) s'
      | O =>
          match match_here r p s with
          | Match y =>
              let len := length s - length (rest y) in
              if len =? 0
              then match cur with
                   | [] => split_from r [c] 0 (Some c) s'
                   | _ => rev cur :: split_from r [c] 0 (Some c) s'
                   end
              else rev cur :: split_from r [] (len - 1) (Some c) s'
          | _ => split_from r (c :: cur) 0 (Some c) s'
          end
      end
  end.

Definition split (r : regex) (s : jsstring) : list jsstring :=
  match s with
  | [] => match match_here r None [] with Match _ => [] | _ => [[]] end
  | _ => split_from r [] 0 None s
  end.

End Matcher.
End Regex.

(** ** Node's [path] module (POSIX flavour)

    [path.dirname] and [path.basename] scan the path from its end; the
    scans below take the reversed path. *)

Module Path.
Import JS.

Definition slash : codeunit := 47%N.

(** The loop of [dirname] over the indices [length-1 .. 1]: [r] holds the
    characters not yet visited, last one first; the result is [end]. *)
Fixpoint dirname_end (r : jsstring) (matchedSlash : bool) : option nat :=
  match r with
  | [] => None
  | c :: r' =>
      if (c =? slash)%N
      then if matchedSlash then dirname_end r' matchedSlash else Some (length r)
      else dirname_end r' false
  end.

Definition dirname (path : jsstring) : jsstring :=
  match path with
  | [] => lit "."
  | c0 :: t =>
      let hasRoot := (c0 =? slash)%N in
      match dirname_end (rev t) true with
      | None => if hasRoot then lit "/" else lit "."
      | Some e => if hasRoot && (e =? 1) then lit "//" else firstn e path
      end
  end.

(** The loop of [basename] (no suffix) over the indices [length-1 .. 0];
    [acc] is [path.slice(i+1, end)]. *)
Fixpoint basename_scan (r : jsstring) (matchedSlash : bool) (acc : jsstring) : jsstring :=
  match r with
  | [] => acc
  | c :: r' =>
      if (c =? slash)%N
      then if matchedSlash then basename_scan r' matchedSlash acc else acc
      else basename_scan r' false (c :: acc)
  end.

Definition basename (path : jsstring) : jsstring :=
  basename_scan (rev path) true [].

End Path.

(** ** The patterns of the rules *)

Module Patterns.
Import JS Regex.

Definition ch (a : ascii) : codeunit := N_of_ascii a.
Arguments ch a%_char.

Fixpoint cat (l : list regex) : regex :=
  match l with
  | [] => Empty
  | [r] => r
  | r :: l' => Seq r (cat l')
  end.

(** A run of pattern characters. *)
Definition str (s : string) : regex := cat (map Chr (lit s)).
Arguments str s%_string.

Definition Star (r : regex) : regex := Repeat 0 true r.
Definition Plus (r : regex) : regex := Repeat 1 true r.
Definition StarLazy (r : regex) : regex := Repeat 0 false r.
Definition Space : regex := Class false [CSpace].

Definition no_flags : flags := {| ignoreCase := false; multiline := false |}.
Definition flag_m : flags := {| ignoreCase := false; multiline := true |}.
Definition flag_i : flags := {| ignoreCase := true; multiline := false |}.

(** [/\s+/] *)
Definition re_whitespace : regex := Plus Space.

(** [/^name:\s*(.+)$/m] *)
Definition re_name : regex :=
  cat [Bol; str "name:"; Star Space; Group 1 (Plus Dot); Eol].

(** [/^["']|["']$/g] *)
Definition re_quotes : regex :=
  Alt (Seq Bol (Class false [CChar dquote; CChar squote]))
      (Seq (Class false [CChar dquote; CChar squote]) Eol).

(** [/^[a-z][a-z0-9-]*$/] *)
Definition re_kebab : regex :=
  cat [Bol; Class false [CRange (ch "a") (ch "z")];
       Star (Class false [CRange (ch "a") (ch "z"); CRange (ch "0") (ch "9"); CChar (ch "-")]);
       Eol].

(** [/\b(anthropic|claude)\b/i] *)
Definition re_reserved : regex :=
  cat [WordBoundary; Group 1 (Alt (str "anthropic") (str "claude")); WordBoundary].

(** [/--/] *)
Definition re_hyphens : regex := str "--".

(** [/<[^>]+>/] *)
Definition re_xml : regex :=
  cat [Chr (ch "<"); Plus (Class true [CChar (ch ">")]); Chr (ch ">")].

(** [/^description:\s*(.+)$/m] *)
Definition re_description : regex :=
  cat [Bol; str "description:"; Star Space; Group 1 (Plus Dot); Eol].

(** [/^description:\s*>\s*\n([\s\S]*?)(?=\n[a-z-]+:|$)/m] *)
Definition re_description_multiline : regex :=
  cat [Bol; str "description:"; Star Space; Chr (ch ">"); Star Space; Chr 10%N;
       Group 1 (StarLazy (Class false [CSpace; CNonSpace]));
       LookAhead (Alt (cat [Chr 10%N;
                            Plus (Class false [CRange (ch "a") (ch "z"); CChar (ch "-")]);
                            Chr (ch ":")])
                      Eol)].

(** [/\n\s*/g] *)
Definition re_newline_indent : regex := Seq (Chr 10%N) (Star Space).

End Patterns.

(** ** The rules *)

Module Rules.
Import JS Regex Patterns.

(** The [params] object markdownlint hands to a rule, as far as the rules
    read it.  [frontMatterLines] may be absent ([params.frontMatterLines || []]). *)
Record params : Type :=
  { name : jsstring;
    lines : list jsstring;
    frontMatterLines : option (list jsstring) }.

(** The object a rule passes to [onError]. *)
Record error : Type :=
  { lineNumber : nat; detail : jsstring; context : jsstring }.

Definition nl : jsstring := [10%N].

(** A text between double quotes. *)
Definition quoted (s : jsstring) : jsstring := dquote :: s ++ [dquote].

Definition frontMatterLines_or_empty (p : params) : list jsstring :=
  match frontMatterLines p with
  | Some l => l
  | None => []
  end.

(** *** skill-length *)

Definition MAX_LINES : nat := 500.
Definition MAX_WORDS : nat := 8000.
Definition WARNING_LINES : nat := 300.
Definition WARNING_WORDS : nat := 5000.

Definition totalLines (p : params) : nat :=
  length (frontMatterLines_or_empty p) + length (lines p).

(** [.filter(Boolean)] on an array of strings keeps the non-empty ones. *)
Definition truthy (s : jsstring) : bool :=
  match s with [] => false | _ => true end.

Definition wordCount (p : params) : nat :=
  let content := join nl (lines p) in
  length (filter truthy (split no_flags re_whitespace content)).

Definition lines_error (totalLines : nat) : error :=
  {| lineNumber := 1;
     detail := lit "Line count: " ++ digits totalLines ++ lit " (max: " ++ digits MAX_LINES
               ++ lit "). Move detailed content to references/ subdirectory.";
     context := digits totalLines ++ lit " lines" |}.

Definition lines_warning (totalLines : nat) : error :=
  {| lineNumber := 1;
     detail := lit "Line count: " ++ digits totalLines ++ lit " (recommended: <"
               ++ digits WARNING_LINES ++ lit "). Consider moving content to references/.";
     context := digits totalLines ++ lit " lines (warning)" |}.

Definition words_error (wordCount : nat) : error :=
  {| lineNumber := 1;
     detail := lit "Word count: " ++ digits wordCount ++ lit " (max: " ++ digits MAX_WORDS
               ++ lit "). Move detailed content to references/ subdirectory.";
     context := digits wordCount ++ lit " words" |}.

Definition words_warning (wordCount : nat) : error :=
  {| lineNumber := 1;
     detail := lit "Word count: " ++ digits wordCount ++ lit " (recommended: <"
               ++ digits WARNING_WORDS ++ lit "). Consider moving content to references/.";
     context := digits wordCount ++ lit " words (warning)" |}.

(** The line-count check and the word-count check of [skillLength]. *)
Definition check_lines (totalLines : nat) : list error :=
  if MAX_LINES <? totalLines then [lines_error totalLines]
  else if WARNING_LINES <? totalLines then [lines_warning totalLines]
  else [].

Definition check_words (wordCount : nat) : list error :=
  if MAX_WORDS <? wordCount then [words_error wordCount]
  else if WARNING_WORDS <? wordCount then [words_warning wordCount]
  else [].

(** The calls of [onError], in order. *)
Definition skillLength (p : params) : list error :=
  if negb (endsWith (name p) (lit "SKILL.md")) then []
  else check_lines (totalLines p) ++ check_words (wordCount p).

(** *** skill-frontmatter *)

Definition missing_frontmatter : error :=
  {| lineNumber := 1;
     detail := lit "SKILL.md must have YAML frontmatter (---)";
     context := lit "Missing frontmatter" |}.

Definition missing_name : error :=
  {| lineNumber := 2;
     detail := lit "Frontmatter must include " ++ quoted (lit "name") ++ lit " field";
     context := lit "Missing name" |}.

Definition invalid_name_format (name : jsstring) : error :=
  {| lineNumber := 2;
     detail := lit "Skill name must be kebab-case: " ++ quoted name;
     context := lit "Invalid name format" |}.

Definition name_too_long (name : jsstring) : error :=
  {| lineNumber := 2;
     detail := lit "Skill name exceeds 64 characters (current: " ++ digits (length name) ++ lit ")";
     context := lit "Name too long" |}.

Definition reserved_word (name : jsstring) : error :=
  {| lineNumber := 2;
     detail := lit "Skill name cannot contain reserved words " ++ quoted (lit "anthropic")
               ++ lit " or " ++ quoted (lit "claude") ++ lit ": " ++ quoted name;
     context := lit "Reserved word in name" |}.

Definition consecutive_hyphens (name : jsstring) : error :=
  {| lineNumber := 2;
     detail := lit "Skill name cannot contain consecutive hyphens: " ++ quoted name;
     context := lit "Consecutive hyphens" |}.

Definition xml_in_name (name : jsstring) : error :=
  {| lineNumber := 2;
     detail := lit "Skill name cannot contain XML tags: " ++ quoted name;
     context := lit "XML tag in name" |}.

Definition directory_mismatch (name dirName : jsstring) : error :=
  {| lineNumber := 2;
     detail := lit "Skill name " ++ quoted name ++ lit " must match directory name " ++ quoted dirName;
     context := lit "Name/directory mismatch" |}.

Definition missing_description : error :=
  {| lineNumber := 2;
     detail := lit "Frontmatter must include " ++ quoted (lit "description") ++ lit " field";
     context := lit "Missing description" |}.

Definition description_too_short (description : jsstring) : error :=
  {| lineNumber := 2;
     detail := lit "Description should be at least 20 characters (current: "
               ++ digits (length description) ++ lit ")";
     context := lit "Description too short" |}.

Definition description_too_long (description : jsstring) : error :=
  {| lineNumber := 2;
     detail := lit "Description exceeds 1024 characters (current: "
               ++ digits (length description) ++ lit ")";
     context := lit "Description too long" |}.

Definition xml_in_description : error :=
  {| lineNumber := 2;
     detail := lit "Description cannot contain XML tags";
     context := lit "XML tag in description" |}.

(** [cond && onError(e)], as a list of calls. *)
Definition when (cond : bool) (e : error) : list error :=
  if cond then [e] else [].

(** The frontmatter text: the lines other than [---], joined by newlines. *)
Definition frontmatter_text (frontMatterLines : list jsstring) : jsstring :=
  join nl (filter (fun line => negb (str_eqb line (lit "---"))) frontMatterLines).

(** [m[1]] of a match; group 1 takes part in every match of the patterns
    it is used with. *)
Definition group1 (m : jsstring * state) : jsstring :=
  match capture 1 (snd m) with
  | Some v => v
  | None => []
  end.

(** [.trim().replace(/^["']|["']$/g, "")] *)
Definition strip_quotes (s : jsstring) : jsstring :=
  replaceAll no_flags re_quotes [] s.

Definition unquote (s : jsstring) : jsstring := strip_quotes (trim s).

(** [path.basename(path.dirname(params.name))] *)
Definition dirName (p : params) : jsstring :=
  Path.basename (Path.dirname (name p)).

(** The [else] branch of the name check: the six checks on the name. *)
Definition check_name (p : params) (name : jsstring) : list error :=
  when (negb (test no_flags re_kebab name)) (invalid_name_format name)
  ++ when (64 <? length name) (name_too_long name)
  ++ when (test flag_i re_reserved name) (reserved_word name)
  ++ when (test no_flags re_hyphens name) (consecutive_hyphens name)
  ++ when (test no_flags re_xml name) (xml_in_name name)
  ++ when (negb (str_eqb name (dirName p))) (directory_mismatch name (dirName p)).

Definition name_field (frontmatter : jsstring) : option jsstring :=
  match exec flag_m re_name frontmatter with
  | None => None
  | Some nameMatch => Some (unquote (group1 nameMatch))
  end.

Definition name_errors (p : params) (frontmatter : jsstring) : list error :=
  match name_field frontmatter with
  | None => [missing_name]
  | Some name => check_name p name
  end.

(** The description the rule works with: the block-scalar match wins over
    the single-line match. *)
Definition description_field (frontmatter : jsstring) : option jsstring :=
  let descMatch := exec flag_m re_description frontmatter in
  let descMultilineMatch := exec flag_m re_description_multiline frontmatter in
  match descMultilineMatch, descMatch with
  | None, None => None
  | Some m, _ => Some (trim (replaceAll no_flags re_newline_indent (lit " ") (group1 m)))
  | None, Some m => Some (unquote (group1 m))
  end.

Definition check_description (description : jsstring) : list error :=
  when (length description <? 20) (description_too_short description)
  ++ when (1024 <? length description) (description_too_long description)
  ++ when (test no_flags re_xml description) xml_in_description.

Definition description_errors (frontmatter : jsstring) : list error :=
  match description_field frontmatter with
  | None => [missing_description]
  | Some description => check_description description
  end.

(** The calls of [onError], in order. *)
Definition skillFrontmatter (p : params) : list error :=
  if negb (endsWith (name p) (lit "SKILL.md")) then []
  else
    let frontMatterLines := frontMatterLines_or_empty p in
    if length frontMatterLines =? 0 then [missing_frontmatter]
    else
      let frontmatter := frontmatter_text frontMatterLines in
      name_errors p frontmatter ++ description_errors frontmatter.

End Rules.

(** * Specification vocabulary

    The notions the properties below are stated with: what the diagnostics
    of the rules are about, in terms of the text itself rather than of the
    patterns that test it. *)

Module Spec.
Import JS Regex Patterns Rules.

(** ** Documents and diagnostics *)

(** A document the rules apply to. *)
Definition checked (p : params) : Prop :=
  endsWith (name p) (lit "SKILL.md") = true.

(** The rules attach no severity to a diagnostic; the length rule marks
    its recommendations in the context ("warning via info"). *)
Definition is_warning (e : error) : bool :=
  endsWith (context e) (lit "(warning)").

Definition is_line_count (e : error) : bool :=
  startsWith (detail e) (lit "Line count: ").

(** The contexts of the diagnostics on the [name] field. *)
Definition name_contexts : list jsstring :=
  [lit "Missing name"; lit "Invalid name format"; lit "Name too long";
   lit "Reserved word in name"; lit "Consecutive hyphens"; lit "XML tag in name";
   lit "Name/directory mismatch"].

Definition is_name_related (e : error) : bool :=
  existsb (str_eqb (context e)) name_contexts.

(** ** Words *)

(** The number of maximal runs of characters other than white space;
    [inword] tells whether the character before was one of a word. *)
Fixpoint count_words (inword : bool) (s : jsstring) : nat :=
  match s with
  | [] => 0
  | c :: t =>
      if isSpace c then count_words false t
      else (if inword then 0 else 1) + count_words true t
  end.

(** ** Names *)

Definition is_lower (c : codeunit) : bool := ((97 <=? c) && (c <=? 122))%N.
Definition is_digit (c : codeunit) : bool := ((48 <=? c) && (c <=? 57))%N.
Definition kebab_char (c : codeunit) : bool := is_lower c || is_digit c || (c =? 45)%N.

(** A lowercase letter followed by lowercase letters, digits and hyphens. *)
Definition kebab_case (s : jsstring) : Prop :=
  exists c t, s = c :: t /\ is_lower c = true /\ Forall (fun a => kebab_char a = true) t.

Definition has_double_hyphen (s : jsstring) : Prop :=
  exists a b, s = a ++ lit "--" ++ b.

Definition lt_sign : codeunit := 60%N.
Definition gt_sign : codeunit := 62%N.

(** [<], at least one character other than [>], then [>]. *)
Definition has_xml_tag (s : jsstring) : Prop :=
  exists a b c, s = a ++ lt_sign :: b ++ gt_sign :: c /\ b <> [] /\ ~ In gt_sign b.

Definition eq_ignore_case (w v : jsstring) : Prop :=
  map canonicalize w = map canonicalize v.

Definition last_char (s : jsstring) : option codeunit := hd_error (rev s).

(** A reserved word as a whole word: in any letter case, and not next to
    a word character. *)
Definition has_reserved_word (s : jsstring) : Prop :=
  exists pre w post,
    s = pre ++ w ++ post /\
    (eq_ignore_case w (lit "anthropic") \/ eq_ignore_case w (lit "claude")) /\
    is_word (last_char pre) = false /\ is_word (hd_error post) = false.

(** ** Quotes *)

Definition is_quote (c : codeunit) : bool := (c =? dquote)%N || (c =? squote)%N.

Definition drop_leading_quote (s : jsstring) : jsstring :=
  match s with
  | c :: t => if is_quote c then t else s
  | [] => []
  end.

Fixpoint drop_trailing_quote (s : jsstring) : jsstring :=
  match s with
  | [] => []
  | [c] => if is_quote c then [] else [c]
  | c :: t => c :: drop_trailing_quote t
  end.

(** ** Lines of the frontmatter *)

Definition starts_with (s pre : jsstring) : Prop := exists t, s = pre ++ t.

Definition no_line_terminator (l : jsstring) : bool :=
  forallb (fun c => negb (isLineTerminator c)) l.

(** A line in one piece that does not start with the key. *)
Definition other_line (key l : jsstring) : Prop :=
  no_line_terminator l = true /\ ~ starts_with l key.

Definition block_marker_line : jsstring := lit "description: >".
Definition description_key : jsstring := lit "description:".
Definition delimiter : jsstring := lit "---".

(** A line that continues a block scalar is indented. *)
Definition indented (l : jsstring) : bool :=
  match l with
  | c :: _ => isSpace c
  | [] => false
  end.

Definition colon : codeunit := 58%N.

(** A top-level [key:] line: letters and hyphens, then a colon. *)
Fixpoint key_chars (l : jsstring) (seen : bool) : bool :=
  match l with
  | c :: t => if is_lower c || (c =? 45)%N then key_chars t true else seen && (c =? colon)%N
  | [] => false
  end.

Definition top_level_key (l : jsstring) : bool := key_chars l false.

Fixpoint block_lines (ls : list jsstring) : list jsstring :=
  match ls with
  | [] => []
  | l :: ls' => if top_level_key l then [] else l :: block_lines ls'
  end.

(** The block scalar in the words of the specification (4.2, step 3; it
    is not what the rule computes, see C8): the lines that follow
    [description: >] up to the next top-level [key:] line or the end of
    the block, joined with single spaces, surrounding whitespace trimmed. *)
Definition block_scalar_spec (following : list jsstring) : jsstring :=
  trim (join (lit " ") (map trim (block_lines following))).

(** ** Matcher states *)

Definition is_match (r : result) : bool :=
  match r with Match _ => true | _ => false end.

Definition mk (p : option codeunit) (s : jsstring) (cs : list (nat * jsstring)) : state :=
  {| prev := p; rest := s; caps := cs |}.

(** The character before the position reached by reading [s1] from a
    position with predecessor [p]. *)
Fixpoint prev_of (p : option codeunit) (s1 : jsstring) : option codeunit :=
  match s1 with
  | [] => p
  | c :: t => prev_of (Some c) t
  end.

(** A continuation that does not run out of fuel on the states not longer
    than [n]; two continuations that agree there. *)
Definition no_fuel_leak (k : state -> result) (n : nat) : Prop :=
  forall y, length (rest y) <= n -> k y <> OutOfFuel.

Definition agree (k1 k2 : state -> result) (n : nat) : Prop :=
  forall y, length (rest y) <= n -> k1 y = k2 y.

(** A pattern character against an input character. *)
Definition chr_eq (f : flags) (c a : codeunit) : bool :=
  if ignoreCase f then (canonicalize c =? canonicalize a)%N else (c =? a)%N.

(** [s] starts with the pattern characters [w]. *)
Fixpoint lit_prefix (f : flags) (w s : jsstring) : bool :=
  match w, s with
  | [], _ => true
  | a :: w', c :: s' => chr_eq f c a && lit_prefix f w' s'
  | _ :: _, [] => false
  end.

(** The word [v], in any case, at the start of [s] and not followed by a
    word character. *)
Definition reserved_here (v : jsstring) (s : jsstring) : bool :=
  lit_prefix flag_i v s
  && negb (is_word (hd_error (skipn (length v) s))).

(** Every match of [r] sets capture [i]. *)
Fixpoint binds (i : nat) (r : regex) : bool :=
  match r with
  | Group j r' => (i =? j) || binds i r'
  | Seq r1 r2 => binds i r1 || binds i r2
  | Alt r1 r2 => binds i r1 && binds i r2
  | LookAhead r' => binds i r'
  | _ => false
  end.

Definition keeps_captures (x y : state) : Prop :=
  forall i, capture i x <> None -> capture i y <> None.

Definition text_of_lines (ls : list jsstring) : jsstring :=
  concat (map (fun l => l ++ nl) ls).

End Spec.

(** * Example documents *)

Module Examples.
Import JS Regex Patterns Rules Spec.

Definition readme_301 : params :=
  {| name := lit "docs/README.md";
     lines := repeat (lit "text") 301;
     frontMatterLines := Some [] |}.

(** Too long, and its frontmatter has neither a valid name nor a
    description; but it is not a [SKILL.md]. *)
Definition readme_invalid : params :=
  {| name := lit "skills/my-skill/README.md";
     lines := repeat (lit "text") 600;
     frontMatterLines := Some [lit "---"; lit "name: Not A <b>Name</b>"; lit "---"] |}.

Definition skill_301 : params :=
  {| name := lit "skills/my-skill/SKILL.md";
     lines := repeat (lit "text") 297;
     frontMatterLines :=
       Some [lit "---"; lit "name: my-skill";
             lit "description: A description that is long enough."; lit "---"] |}.

Definition readme_501 : params :=
  {| name := lit "docs/README.md";
     lines := repeat (lit "text") 501;
     frontMatterLines := Some [] |}.

Definition skill_500 : params :=
  {| name := lit "skills/my-skill/SKILL.md";
     lines := repeat (lit "text") 496;
     frontMatterLines :=
       Some [lit "---"; lit "name: my-skill";
             lit "description: A description that is long enough."; lit "---"] |}.

Definition skill_501 : params :=
  {| name := lit "skills/my-skill/SKILL.md";
     lines := repeat (lit "text") 497;
     frontMatterLines :=
       Some [lit "---"; lit "name: my-skill";
             lit "description: A description that is long enough."; lit "---"] |}.

Definition skill_without_frontmatter : params :=
  {| name := lit "skills/my-skill/SKILL.md";
     lines := [lit "# My skill"; lit ""; lit "name: my-skill"];
     frontMatterLines := Some [] |}.

Definition tagged_name : jsstring := lit "ab--cd<x>".

Definition skill_tagged_name : params :=
  {| name := lit "skills/my-skill/SKILL.md";
     lines := [lit "# My skill"];
     frontMatterLines :=
       Some [lit "---"; lit "name: ab--cd<x>";
             lit "description: A description that is long enough."; lit "---"] |}.

Definition skill_tagged_name_in_directory : params :=
  {| name := lit "skills/ab--cd<x>/SKILL.md";
     lines := [lit "# My skill"];
     frontMatterLines :=
       Some [lit "---"; lit "name: ab--cd<x>";
             lit "description: A description that is long enough."; lit "---"] |}.

Definition claude_helper : jsstring := lit "claude-helper".

Definition skill_claude_helper : params :=
  {| name := lit "skills/claude-helper/SKILL.md";
     lines := [lit "# Helper"];
     frontMatterLines :=
       Some [lit "---"; lit "name: claude-helper";
             lit "description: A description that is long enough."; lit "---"] |}.

Definition empty_quoted_name_lines : list jsstring :=
  [lit "---"; lit "name: " ++ [dquote; dquote];
   lit "description: A description that is long enough."; lit "---"].

Definition skill_empty_quoted_name : params :=
  {| name := lit "skills/my-skill/SKILL.md";
     lines := [lit "# My skill"];
     frontMatterLines := Some empty_quoted_name_lines |}.

Definition block_scalar_following : list jsstring :=
  [lit "  line one"; lit "  line two"; lit "name: x"].

Definition block_scalar_lines : list jsstring :=
  [lit "---"; lit "description: >"] ++ block_scalar_following ++ [lit "---"].

(** The continuation lines of the block scalar below. *)
Definition long_block_scalar_following : list jsstring :=
  [lit "  Analyze tables"; lit "  for cost savings."].

(** A block scalar of 32 characters whose first line has 14. *)
Definition skill_long_block_scalar : params :=
  {| name := lit "skills/x/SKILL.md";
     lines := [lit "# X"];
     frontMatterLines :=
       Some [lit "---"; lit "name: x"; lit "description: >";
             lit "  Analyze tables"; lit "  for cost savings."; lit "---"] |}.

Definition skill_block_scalar : params :=
  {| name := lit "skills/x/SKILL.md";
     lines := [lit "# X"];
     frontMatterLines := Some block_scalar_lines |}.

Definition optimize_dynamodb_description : jsstring :=
  lit "Analyze DynamoDB tables for cost optimization opportunities. Triggers on: optimize DynamoDB, DynamoDB cost analysis, reduce DynamoDB costs, DynamoDB capacity mode, on-demand vs provisioned, table class analysis, unused GSI, DynamoDB utilization, right-size DynamoDB.".

(** The frontmatter of the repository's own [optimize-dynamodb] skill. *)
Definition optimize_dynamodb : params :=
  {| name := lit "skills/optimize-dynamodb/SKILL.md";
     lines := [lit ""; lit "# DynamoDB Cost Optimizer"; lit "";
               lit "## Workflow"; lit ""; lit "### Step 1: Region"; lit "";
               lit "Ask user for AWS region(s). Default: `us-east-1`. Supports multiple regions."];
     frontMatterLines :=
       Some [lit "---";
             lit "name: optimize-dynamodb";
             lit "description: " ++ quoted optimize_dynamodb_description;
             lit "license: Apache-2.0";
             lit "dependencies: python>=3.9, boto3";
             lit "metadata:";
             lit "  tags: aws, dynamodb, cost-optimization, capacity, provisioned, on-demand, table-class, utilization, gsi";
             lit "---"] |}.

Definition skill_marker_then_key : params :=
  {| name := lit "skills/my-skill/SKILL.md";
     lines := [lit "# My skill"];
     frontMatterLines :=
       Some [lit "---"; lit "name: my-skill"; lit "description: >";
             lit "license: Apache-2.0 and more"; lit "---"] |}.

Definition skill_marker_last : params :=
  {| name := lit "skills/my-skill/SKILL.md";
     lines := [lit "# My skill"];
     frontMatterLines :=
       Some [lit "---"; lit "name: my-skill"; lit "license: Apache-2.0";
             lit "description: >"; lit "---"] |}.

End Examples.
(** * Further notions *)

(** Notions used to state the properties of the rules that are proved
    after the claims. *)

Module Notions.
Import JS Regex Patterns Rules Spec.

Definition is_word_count (e : error) : bool :=
  startsWith (detail e) (lit "Word count: ").

Definition skill_bare_file_name : params :=
  {| name := lit "SKILL.md";
     lines := [lit "# My skill"];
     frontMatterLines :=
       Some [lit "---"; lit "name: my-skill";
             lit "description: A description that is long enough."; lit "---"] |}.

(** The next character, if any, is not one of [P]. *)
Definition stops (P : codeunit -> bool) (X : jsstring) : Prop :=
  match X with
  | [] => True
  | c :: _ => P c = false
  end.

Definition name_key : jsstring := lit "name:".

(** What follows a line in the frontmatter text: nothing, or a newline. *)
Definition line_end (tail : jsstring) : Prop :=
  tail = [] \/ exists t, tail = 10%N :: t.

(** A line in one piece at whose start the pattern does not match. *)
Definition dead_line (r : regex) (l : jsstring) : Prop :=
  no_line_terminator l = true
  /\ forall p tail, line_end tail -> is_match (match_here flag_m r p (l ++ tail)) = false.

(** The lines of the frontmatter that are not delimiters. *)
Definition field_lines (frontMatterLines : list jsstring) : list jsstring :=
  filter (fun line => negb (str_eqb line (lit "---"))) frontMatterLines.

(** A pattern without capture groups. *)
Fixpoint group_free (r : regex) : bool :=
  match r with
  | Group _ _ => false
  | Seq r1 r2 | Alt r1 r2 => group_free r1 && group_free r2
  | Repeat _ _ r' | LookAhead r' => group_free r'
  | _ => true
  end.

(** Capture 1 of a match took part in it ([m[1]] is a string). *)
Definition group1_defined (o : option (jsstring * state)) : Prop :=
  match o with
  | Some m => capture 1 (snd m) <> None
  | None => True
  end.

(** A frontmatter with neither of the two fields. *)
Definition skill_untitled : params :=
  {| name := lit "skills/my-skill/SKILL.md";
     lines := [lit "# My skill"];
     frontMatterLines :=
       Some [lit "---"; lit "title: My skill"; lit "  name: indented"; lit "---"] |}.

(** A line of white space only (the empty line is one). *)
Definition blank_line (l : jsstring) : bool := forallb isSpace l.

(** An entry of the frontmatter lines that holds no text: a delimiter
    (the rule filters it out) or a blank line. *)
Definition blank_or_delimiter (l : jsstring) : Prop :=
  l = delimiter \/ blank_line l = true.

(** The same, for a blank line in one piece. *)
Definition blank_entry (l : jsstring) : Prop :=
  l = delimiter \/ (blank_line l = true /\ no_line_terminator l = true).

(** An empty entry or a delimiter. *)
Definition empty_or_delimiter (l : jsstring) : Prop := l = delimiter \/ l = [].

(** A [name:] line without a value, last before the closing delimiter; an
    empty entry follows the frontmatter. *)
Definition skill_bare_name : params :=
  {| name := lit "skills/my-skill/SKILL.md";
     lines := [lit "# My skill"];
     frontMatterLines :=
       Some [lit "---"; lit "description: A description that is long enough.";
             lit "name:"; lit "---"; lit ""] |}.

(** The block marker last before the closing delimiter; an empty entry
    follows the frontmatter. *)
Definition skill_marker_then_blank : params :=
  {| name := lit "skills/my-skill/SKILL.md";
     lines := [lit "# My skill"];
     frontMatterLines :=
       Some [lit "---"; lit "name: my-skill"; lit "description: >"; lit "---"; lit ""] |}.

End Notions.


(** * Properties of the matcher and of the patterns *)

Module Facts.
Import JS Regex Patterns Rules Spec.

(** ** Strings *)

Lemma str_eqb_eq (a b : jsstring) : str_eqb a b = true <-> a = b.
Proof. unfold str_eqb. destruct (list_eq_dec N.eq_dec a b); split; congruence. Qed.

Lemma str_eqb_refl (a : jsstring) : str_eqb a a = true.
Proof. now apply str_eqb_eq. Qed.

Lemma str_eqb_neq (a b : jsstring) : str_eqb a b = false <-> a <> b.
Proof. unfold str_eqb. destruct (list_eq_dec N.eq_dec a b); split; congruence. Qed.

Lemma endsWith_app (a b : jsstring) : endsWith (a ++ b) b = true.
Proof.
  unfold endsWith. rewrite length_app, Nat.add_sub.
  rewrite skipn_app, skipn_all, Nat.sub_diag. simpl. apply str_eqb_refl.
Qed.

Lemma endsWith_last (s suffix : jsstring) (c d : codeunit) :
  c <> d -> endsWith (s ++ [c]) (suffix ++ [d]) = false.
Proof.
  intros Hcd. unfold endsWith. apply str_eqb_neq. intros H.
  assert (Hl : last (skipn (length (s ++ [c]) - length (suffix ++ [d])) (s ++ [c])) 0%N = d).
  { rewrite H. apply last_last. }
  assert (Hne : skipn (length (s ++ [c]) - length (suffix ++ [d])) (s ++ [c]) <> []).
  { rewrite H. destruct suffix; discriminate. }
  revert Hl Hne. generalize (length (s ++ [c]) - length (suffix ++ [d])). intros n.
  destruct (Nat.le_gt_cases (length (s ++ [c])) n) as [Hn | Hn].
  - rewrite skipn_all2 by exact Hn. congruence.
  - rewrite length_app in Hn. simpl in Hn.
    rewrite skipn_app. replace (n - length s) with 0 by lia. simpl.
    intros Hl _. rewrite last_last in Hl. congruence.
Qed.

(** ** The matcher never runs out of fuel *)

Lemma char_matcher_fuel P k x :
  no_fuel_leak k (length (rest x)) -> char_matcher P k x <> OutOfFuel.
Proof.
  intros Hk. unfold char_matcher. destruct (rest x) as [|c t] eqn:E; [discriminate|].
  destruct (P c); [|discriminate]. apply Hk. simpl. rewrite E. simpl. lia.
Qed.

Lemma repeat_matcher_fuel m greedy k :
  (forall k' x', no_fuel_leak k' (length (rest x')) -> m k' x' <> OutOfFuel) ->
  forall fuel min x,
    min + length (rest x) + 1 <= fuel ->
    no_fuel_leak k (length (rest x)) ->
    repeat_matcher m greedy k fuel min x <> OutOfFuel.
Proof.
  intros Hm. induction fuel as [|fuel IH]; intros min x Hfuel Hk; [lia|].
  simpl.
  assert (Hd : no_fuel_leak
                 (fun y => if (min =? 0) && (length (rest y) =? length (rest x))
                           then Failure
                           else repeat_matcher m greedy k fuel (pred min) y)
                 (length (rest x))).
  { intros y Hy.
    destruct ((min =? 0) && (length (rest y) =? length (rest x))) eqn:E; [discriminate|].
    apply IH.
    - apply andb_false_iff in E. destruct E as [E|E].
      + apply Nat.eqb_neq in E. lia.
      + apply Nat.eqb_neq in E. lia.
    - intros z Hz. apply Hk. lia. }
  destruct (min =? 0); simpl.
  - destruct greedy; unfold orelse.
    + specialize (Hm _ x Hd).
      destruct (m _ x); try congruence. apply Hk. lia.
    + pose proof (Hk x (Nat.le_refl _)).
      destruct (k x); try congruence. apply Hm, Hd.
  - apply Hm, Hd.
Qed.

Theorem matcher_fuel f r : forall k x,
  no_fuel_leak k (length (rest x)) -> matcher f r k x <> OutOfFuel.
Proof.
  induction r; intros k x Hk; simpl.
  - apply Hk. lia.
  - now apply char_matcher_fuel.
  - now apply char_matcher_fuel.
  - now apply char_matcher_fuel.
  - apply IHr1. intros y Hy. apply IHr2. intros z Hz. apply Hk. lia.
  - unfold orelse. specialize (IHr1 k x Hk). destruct (matcher f r1 k x); try congruence.
    now apply IHr2.
  - apply repeat_matcher_fuel; auto.
  - apply IHr. intros y Hy. apply Hk. simpl. lia.
  - destruct (at_bol f x); [apply Hk; lia | discriminate].
  - destruct (at_eol f x); [apply Hk; lia | discriminate].
  - destruct (at_word_boundary x); [apply Hk; lia | discriminate].
  - assert (H : matcher f r Match x <> OutOfFuel) by (apply IHr; intros y _; discriminate).
    destruct (matcher f r Match x); try congruence.
    apply Hk. simpl. lia.
Qed.

Corollary match_here_fuel f r p s : match_here f r p s <> OutOfFuel.
Proof. apply matcher_fuel. intros y _. discriminate. Qed.

(** ** A matcher reads its continuation from the current position on *)

Lemma char_matcher_ext P k1 k2 x :
  agree k1 k2 (length (rest x)) -> char_matcher P k1 x = char_matcher P k2 x.
Proof.
  intros H. unfold char_matcher. destruct (rest x) as [|c t] eqn:E; [reflexivity|].
  destruct (P c); [|reflexivity]. apply H. simpl. rewrite E. simpl. lia.
Qed.

Lemma repeat_matcher_ext m greedy :
  (forall k1 k2 x, agree k1 k2 (length (rest x)) -> m k1 x = m k2 x) ->
  forall fuel1 fuel2 min x k1 k2,
    min + length (rest x) + 1 <= fuel1 ->
    min + length (rest x) + 1 <= fuel2 ->
    agree k1 k2 (length (rest x)) ->
    repeat_matcher m greedy k1 fuel1 min x = repeat_matcher m greedy k2 fuel2 min x.
Proof.
  intros Hm. induction fuel1 as [|fuel1 IH]; intros fuel2 min x k1 k2 H1 H2 Hk; [lia|].
  destruct fuel2 as [|fuel2]; [lia|]. simpl.
  match goal with
  | |- context [m ?d1 x] =>
      match goal with
      | |- _ = ?rhs =>
          match rhs with
          | context [m ?d2 x] => assert (Hd : agree d1 d2 (length (rest x)))
          end
      end
  end.
  { intros y Hy. simpl.
    destruct ((min =? 0) && (length (rest y) =? length (rest x))) eqn:E; [reflexivity|].
    apply andb_false_iff in E.
    apply IH.
    - destruct E as [E|E]; apply Nat.eqb_neq in E; lia.
    - destruct E as [E|E]; apply Nat.eqb_neq in E; lia.
    - intros z Hz. apply Hk. lia. }
  rewrite (Hm _ _ x Hd). rewrite (Hk x (Nat.le_refl _)). reflexivity.
Qed.

Lemma matcher_ext f r : forall k1 k2 x,
  agree k1 k2 (length (rest x)) -> matcher f r k1 x = matcher f r k2 x.
Proof.
  induction r; intros k1 k2 x Hk; simpl.
  - apply Hk. lia.
  - now apply char_matcher_ext.
  - now apply char_matcher_ext.
  - now apply char_matcher_ext.
  - apply IHr1. intros y Hy. apply IHr2. intros z Hz. apply Hk. lia.
  - rewrite (IHr1 k1 k2 x Hk), (IHr2 k1 k2 x Hk). reflexivity.
  - apply repeat_matcher_ext; auto.
  - apply IHr. intros y Hy. apply Hk. simpl. lia.
  - destruct (at_bol f x); [apply Hk; lia | reflexivity].
  - destruct (at_eol f x); [apply Hk; lia | reflexivity].
  - destruct (at_word_boundary x); [apply Hk; lia | reflexivity].
  - destruct (matcher f r Match x); try reflexivity. apply Hk. simpl. lia.
Qed.

(** ** Equations of the matcher *)

Lemma matcher_Repeat f min greedy r k x :
  matcher f (Repeat min greedy r) k x =
  repeat_matcher (matcher f r) greedy k (min + length (rest x) + 1) min x.
Proof. reflexivity. Qed.

Lemma repeat_matcher_S m greedy k fuel min x :
  repeat_matcher m greedy k (S fuel) min x =
  let d := fun y =>
    if (min =? 0) && (length (rest y) =? length (rest x))
    then Failure
    else repeat_matcher m greedy k fuel (pred min) y in
  if negb (min =? 0) then m d x
  else if greedy
       then orelse (m d x) (fun _ => k x)
       else orelse (k x) (fun _ => m d x).
Proof. reflexivity. Qed.

(** The equations of [r*], [r*?] and [r+]. *)
Lemma star_unfold f greedy r k x :
  matcher f (Repeat 0 greedy r) k x =
  let d := fun y => if length (rest y) =? length (rest x) then Failure
                    else matcher f (Repeat 0 greedy r) k y in
  if greedy then orelse (matcher f r d x) (fun _ => k x)
  else orelse (k x) (fun _ => matcher f r d x).
Proof.
  rewrite matcher_Repeat. replace (0 + length (rest x) + 1) with (S (length (rest x))) by lia.
  rewrite repeat_matcher_S. cbv zeta. cbn [Nat.eqb negb andb].
  assert (H : matcher f r
                (fun y => if length (rest y) =? length (rest x) then Failure
                          else repeat_matcher (matcher f r) greedy k (length (rest x)) (pred 0) y) x
              = matcher f r
                (fun y => if length (rest y) =? length (rest x) then Failure
                          else matcher f (Repeat 0 greedy r) k y) x).
  { apply matcher_ext. intros y Hy.
    destruct (length (rest y) =? length (rest x)) eqn:E; [reflexivity|].
    apply Nat.eqb_neq in E. rewrite matcher_Repeat.
    apply repeat_matcher_ext; [apply matcher_ext | simpl; lia | lia | intros z _; reflexivity]. }
  rewrite H. reflexivity.
Qed.

Lemma plus_unfold f greedy r k x :
  matcher f (Repeat 1 greedy r) k x =
  matcher f r (fun y => matcher f (Repeat 0 greedy r) k y) x.
Proof.
  rewrite matcher_Repeat. replace (1 + length (rest x) + 1) with (S (S (length (rest x)))) by lia.
  rewrite repeat_matcher_S. cbv zeta. cbn [Nat.eqb negb andb].
  apply matcher_ext. intros y Hy. rewrite matcher_Repeat.
  apply repeat_matcher_ext; [apply matcher_ext | simpl; lia | lia | intros z _; reflexivity].
Qed.

(** ** The leftmost match *)

Lemma exec_from_None f r : forall s b p,
  exec_from f r b p s = None <->
  (forall s1 s2 y, s = s1 ++ s2 -> match_here f r (prev_of p s1) s2 <> Match y).
Proof.
  induction s as [|c s IH]; intros b p; simpl.
  - destruct (match_here f r p []) as [s| |] eqn:E; split; try discriminate; try reflexivity.
    + intros H. exfalso. apply (H [] [] s); auto.
    + intros _ s1 s2 y H. apply eq_sym, app_eq_nil in H. destruct H; subst. simpl. congruence.
    + intros _ s1 s2 y H. apply eq_sym, app_eq_nil in H. destruct H; subst. simpl. congruence.
  - destruct (match_here f r p (c :: s)) as [y0| |] eqn:E.
    + split; [discriminate|]. intros H. exfalso. apply (H [] (c :: s) y0); auto.
    + rewrite IH. split.
      * intros H s1 s2 y Hs. destruct s1 as [|c' s1]; simpl in *.
        -- subst. congruence.
        -- injection Hs as -> ->. now apply H.
      * intros H s1 s2 y Hs. apply (H (c :: s1) s2 y). simpl. now f_equal.
    + rewrite IH. split.
      * intros H s1 s2 y Hs. destruct s1 as [|c' s1]; simpl in *.
        -- subst. congruence.
        -- injection Hs as -> ->. now apply H.
      * intros H s1 s2 y Hs. apply (H (c :: s1) s2 y). simpl. now f_equal.
Qed.

Lemma exec_from_Some f r : forall s b p pre y,
  exec_from f r b p s = Some (pre, y) <->
  exists s1 s2, s = s1 ++ s2 /\ pre = rev b ++ s1 /\
    match_here f r (prev_of p s1) s2 = Match y /\
    (forall t1 t2 z, s = t1 ++ t2 -> length t1 < length s1 ->
                     match_here f r (prev_of p t1) t2 <> Match z).
Proof.
  induction s as [|c s IH]; intros b p pre y; simpl.
  - destruct (match_here f r p []) as [y0| |] eqn:E; split.
    + intros H. injection H as <- <-. exists [], [].
      split; [reflexivity|]. split; [now rewrite app_nil_r|]. split; [exact E|].
      intros t1 t2 z _ Hl. simpl in Hl. lia.
    + intros (s1 & s2 & Hs & Hp & Hm & _). apply eq_sym, app_eq_nil in Hs. destruct Hs; subst.
      simpl in Hm. rewrite app_nil_r. rewrite E in Hm. now injection Hm as ->.
    + discriminate.
    + intros (s1 & s2 & Hs & Hp & Hm & _). apply eq_sym, app_eq_nil in Hs. destruct Hs; subst.
      simpl in Hm. congruence.
    + discriminate.
    + intros (s1 & s2 & Hs & Hp & Hm & _). apply eq_sym, app_eq_nil in Hs. destruct Hs; subst.
      simpl in Hm. congruence.
  - assert (Hstep : forall res, match_here f r p (c :: s) = res ->
              (forall z, res <> Match z) ->
              (exec_from f r (c :: b) (Some c) s = Some (pre, y) <->
               exists s1 s2, c :: s = s1 ++ s2 /\ pre = rev b ++ s1 /\
                 match_here f r (prev_of p s1) s2 = Match y /\
                 (forall t1 t2 z, c :: s = t1 ++ t2 -> length t1 < length s1 ->
                     match_here f r (prev_of p t1) t2 <> Match z))).
    { intros res E Hres. rewrite IH. split.
      - intros (s1 & s2 & Hs & Hp & Hm & Hmin). exists (c :: s1), s2. simpl.
        split; [now f_equal|].
        split; [subst pre; simpl; now rewrite <- app_assoc|].
        split; [exact Hm|].
        * intros t1 t2 z Ht Hlen. destruct t1 as [|c' t1]; simpl in *.
          -- subst t2. rewrite E. apply Hres.
          -- injection Ht as -> ->. apply Hmin; auto. lia.
      - intros (s1 & s2 & Hs & Hp & Hm & Hmin). destruct s1 as [|c' s1]; simpl in *.
        + subst s2. rewrite E in Hm. exfalso. eapply Hres; eauto.
        + injection Hs as <- ->. exists s1, s2.
          split; [reflexivity|].
          split; [subst pre; simpl; now rewrite <- app_assoc|].
          split; [exact Hm|].
          intros t1 t2 z Ht Hlen. apply (Hmin (c :: t1) t2 z); simpl; [now f_equal | lia]. }
    destruct (match_here f r p (c :: s)) as [y0| |] eqn:E.
    + split.
      * intros H. injection H as <- <-. exists [], (c :: s).
        split; [reflexivity|]. split; [now rewrite app_nil_r|]. split; [exact E|].
        intros t1 t2 z _ Hl. simpl in Hl. lia.
      * intros (s1 & s2 & Hs & Hp & Hm & Hmin). destruct s1 as [|c' s1].
        -- simpl in *. subst. rewrite app_nil_r. rewrite E in Hm. now injection Hm as ->.
        -- exfalso. apply (Hmin [] (c :: s) y0); simpl; auto. lia.
    + apply (Hstep Failure); [reflexivity | discriminate].
    + apply (Hstep OutOfFuel); [reflexivity | discriminate].
Qed.

Lemma test_true f r s :
  test f r s = true <->
  exists s1 s2 y, s = s1 ++ s2 /\ match_here f r (prev_of None s1) s2 = Match y.
Proof.
  unfold test, exec. destruct (exec_from f r [] None s) as [[pre y]|] eqn:E.
  - apply exec_from_Some in E. destruct E as (s1 & s2 & Hs & _ & Hm & _).
    split; auto. intros _. now exists s1, s2, y.
  - split; [discriminate|]. intros (s1 & s2 & y & Hs & Hm).
    exfalso. eapply (proj1 (exec_from_None f r s [] None)); eauto.
Qed.

Lemma test_false f r s :
  test f r s = false <->
  (forall s1 s2 y, s = s1 ++ s2 -> match_here f r (prev_of None s1) s2 <> Match y).
Proof.
  unfold test, exec. destruct (exec_from f r [] None s) as [[pre y]|] eqn:E.
  - apply exec_from_Some in E. destruct E as (s1 & s2 & Hs & _ & Hm & _).
    split; [discriminate|]. intros H. exfalso. eapply H; eauto.
  - split; auto. intros _. now apply (exec_from_None f r s [] None).
Qed.

Lemma orelse_is_match a b :
  is_match (orelse a b) = is_match a || (match a with Failure => is_match (b tt) | _ => false end).
Proof. destruct a; simpl; auto. Qed.

Lemma char_matcher_cons P k p c t cs :
  char_matcher P k (mk p (c :: t) cs) = if P c then k (mk (Some c) t cs) else Failure.
Proof. reflexivity. Qed.

Lemma char_matcher_nil P k p cs : char_matcher P k (mk p [] cs) = Failure.
Proof. reflexivity. Qed.

Section Equations.
Variable f : flags.
Variables (k : state -> result) (x : state).

Lemma matcher_Empty : matcher f Empty k x = k x.
Proof. reflexivity. Qed.
Lemma matcher_Seq r1 r2 :
  matcher f (Seq r1 r2) k x = matcher f r1 (fun y => matcher f r2 k y) x.
Proof. reflexivity. Qed.
Lemma matcher_Alt r1 r2 :
  matcher f (Alt r1 r2) k x = orelse (matcher f r1 k x) (fun _ => matcher f r2 k x).
Proof. reflexivity. Qed.
Lemma matcher_Chr a :
  matcher f (Chr a) k x =
  char_matcher (fun c => if ignoreCase f then (canonicalize c =? canonicalize a)%N
                         else (c =? a)%N) k x.
Proof. reflexivity. Qed.
Lemma matcher_Dot :
  matcher f Dot k x = char_matcher (fun c => negb (isLineTerminator c)) k x.
Proof. reflexivity. Qed.
Lemma matcher_Class invert items :
  matcher f (Class invert items) k x = char_matcher (in_class invert items) k x.
Proof. reflexivity. Qed.
Lemma matcher_Group i r :
  matcher f (Group i r) k x =
  matcher f r (fun y =>
    k (set_cap i (firstn (length (rest x) - length (rest y)) (rest x)) y)) x.
Proof. reflexivity. Qed.
Lemma matcher_Bol : matcher f Bol k x = if at_bol f x then k x else Failure.
Proof. reflexivity. Qed.
Lemma matcher_Eol : matcher f Eol k x = if at_eol f x then k x else Failure.
Proof. reflexivity. Qed.
Lemma matcher_WordBoundary :
  matcher f WordBoundary k x = if at_word_boundary x then k x else Failure.
Proof. reflexivity. Qed.
Lemma matcher_LookAhead r :
  matcher f (LookAhead r) k x =
  match matcher f r Match x with
  | Match y => k {| prev := prev x; rest := rest x; caps := caps y |}
  | other => other
  end.
Proof. reflexivity. Qed.

End Equations.

Ltac mstep :=
  first [ rewrite matcher_Seq | rewrite matcher_Bol | rewrite matcher_Eol
        | rewrite matcher_Chr | rewrite matcher_Dot | rewrite matcher_Class
        | rewrite matcher_Alt | rewrite matcher_Group | rewrite matcher_WordBoundary
        | rewrite matcher_LookAhead | rewrite matcher_Empty
        | rewrite char_matcher_cons | rewrite char_matcher_nil ];
  cbv beta.

(** [r*] and [r*?] for an atom that reads one character. *)
Lemma star_char f greedy r P k p s cs :
  (forall k' x', matcher f r k' x' = char_matcher P k' x') ->
  matcher f (Repeat 0 greedy r) k (mk p s cs) =
  let more := match s with
              | c :: t => if P c then matcher f (Repeat 0 greedy r) k (mk (Some c) t cs)
                          else Failure
              | [] => Failure
              end in
  if greedy then orelse more (fun _ => k (mk p s cs))
  else orelse (k (mk p s cs)) (fun _ => more).
Proof.
  intros Hr. rewrite star_unfold. cbv zeta. rewrite Hr.
  destruct s as [|c t].
  - rewrite char_matcher_nil. reflexivity.
  - rewrite char_matcher_cons. cbn [rest mk length].
    replace (length t =? S (length t)) with false
      by (symmetry; apply Nat.eqb_neq; lia).
    reflexivity.
Qed.

Lemma plus_char f greedy r P k p s cs :
  (forall k' x', matcher f r k' x' = char_matcher P k' x') ->
  matcher f (Repeat 1 greedy r) k (mk p s cs) =
  match s with
  | c :: t => if P c then matcher f (Repeat 0 greedy r) k (mk (Some c) t cs) else Failure
  | [] => Failure
  end.
Proof.
  intros Hr. rewrite plus_unfold, Hr. destruct s; reflexivity.
Qed.

Lemma prev_of_app p a b : prev_of p (a ++ b) = prev_of (prev_of p a) b.
Proof. revert p. induction a; simpl; auto. Qed.

Lemma prev_of_None_nil s : prev_of None s = None -> s = [].
Proof.
  destruct s as [|c t]; auto. simpl.
  assert (H : forall t c, prev_of (Some c) t <> None).
  { clear. induction t; simpl; intros; [discriminate | apply IHt]. }
  intros E. now apply H in E.
Qed.

(** ** The kebab-case pattern *)

Lemma forallb_eq {A} (f g : A -> bool) l :
  (forall a, f a = g a) -> forallb f l = forallb g l.
Proof. intros H. induction l; simpl; [reflexivity | now rewrite H, IHl]. Qed.

Lemma star_class_eol items : forall s p cs,
  is_match (matcher no_flags (Star (Class false items))
              (fun y => matcher no_flags Eol Match y) (mk p s cs))
  = forallb (in_class false items) s.
Proof.
  induction s as [|c t IH]; intros p cs; unfold Star;
    rewrite star_char with (P := in_class false items) by reflexivity; cbv zeta.
  - reflexivity.
  - rewrite orelse_is_match. cbn [forallb].
    destruct (in_class false items c).
    + change (Repeat 0 true (Class false items)) with (Star (Class false items)).
      rewrite IH. cbn [andb].
      destruct (matcher no_flags (Star (Class false items)) _ _);
        cbn [matcher at_eol rest mk multiline no_flags andb is_match];
        now rewrite ?orb_false_r.
    + reflexivity.
Qed.

Lemma re_kebab_here p s :
  is_match (match_here no_flags re_kebab p s) =
  match p, s with
  | None, c :: t => is_lower c && forallb kebab_char t
  | _, _ => false
  end.
Proof.
  unfold match_here, re_kebab. cbn [cat]. fold (mk p s []).
  do 2 mstep. unfold at_bol. cbn [prev mk multiline no_flags andb].
  destruct p as [a|]; [reflexivity|].
  destruct s as [|c t]; [reflexivity|].
  do 3 mstep.
  assert (Hc : in_class false [CRange (ch "a") (ch "z")] c = is_lower c).
  { unfold in_class, is_lower. simpl. now rewrite orb_false_r. }
  rewrite Hc. destruct (is_lower c); [|reflexivity]. mstep. cbn [andb].
  change (Repeat 0 true ?r) with (Star r).
  rewrite star_class_eol. apply forallb_eq.
  intros a. unfold in_class, kebab_char, is_lower, is_digit. simpl.
  now rewrite orb_false_r, orb_assoc.
Qed.

Lemma is_match_true r : is_match r = true <-> exists y, r = Match y.
Proof. destruct r; simpl; split; try discriminate; eauto; intros [y H]; discriminate. Qed.

Lemma test_is_match f r s :
  test f r s = true <->
  exists s1 s2, s = s1 ++ s2 /\ is_match (match_here f r (prev_of None s1) s2) = true.
Proof.
  rewrite test_true. split.
  - intros (s1 & s2 & y & Hs & Hm). exists s1, s2. split; auto. rewrite Hm. reflexivity.
  - intros (s1 & s2 & Hs & Hm). apply is_match_true in Hm. destruct Hm as [y Hm].
    now exists s1, s2, y.
Qed.

Theorem re_kebab_spec s : test no_flags re_kebab s = true <-> kebab_case s.
Proof.
  rewrite test_is_match. split.
  - intros (s1 & s2 & Hs & Hm). rewrite re_kebab_here in Hm.
    destruct (prev_of None s1) eqn:Ep; [discriminate|].
    apply prev_of_None_nil in Ep. subst s1. simpl in Hs. subst s2.
    destruct s as [|c t]; [discriminate|].
    apply andb_true_iff in Hm. destruct Hm as [Hc Ht].
    exists c, t. repeat split; auto. apply Forall_forall. now apply forallb_forall.
  - intros (c & t & -> & Hc & Ht). exists [], (c :: t). split; auto.
    rewrite re_kebab_here. simpl. rewrite Hc. simpl.
    apply forallb_forall. now apply Forall_forall.
Qed.

(** ** Consecutive hyphens *)

Lemma re_hyphens_here p s :
  is_match (match_here no_flags re_hyphens p s) =
  match s with
  | a :: b :: _ => ((a =? 45) && (b =? 45))%N
  | _ => false
  end.
Proof.
  unfold match_here, re_hyphens.
  change (str "--") with (Seq (Chr 45%N) (Chr 45%N)). fold (mk p s []).
  do 2 mstep. cbn [ignoreCase no_flags].
  destruct s as [|a [|b t]]; repeat mstep; try reflexivity.
  - destruct (a =? 45)%N; reflexivity.
  - cbn [ignoreCase no_flags]. destruct (a =? 45)%N; [|reflexivity]. cbn [andb].
    destruct (b =? 45)%N; reflexivity.
Qed.

Theorem re_hyphens_spec s : test no_flags re_hyphens s = true <-> has_double_hyphen s.
Proof.
  rewrite test_is_match. split.
  - intros (s1 & s2 & Hs & Hm). rewrite re_hyphens_here in Hm.
    destruct s2 as [|a [|b t]]; try discriminate.
    apply andb_true_iff in Hm. destruct Hm as [Ha Hb].
    apply N.eqb_eq in Ha, Hb. subst a b. now exists s1, t.
  - intros (a & b & ->). exists a, (lit "--" ++ b). split; [reflexivity|].
    rewrite re_hyphens_here. reflexivity.
Qed.

(** ** XML tags *)

Lemma star_not_gt : forall s p cs,
  is_match (matcher no_flags (Star (Class true [CChar gt_sign]))
              (fun y => matcher no_flags (Chr gt_sign) Match y) (mk p s cs))
  = existsb (N.eqb gt_sign) s.
Proof.
  induction s as [|c t IH]; intros p cs; unfold Star;
    rewrite star_char with (P := in_class true [CChar gt_sign]) by reflexivity; cbv zeta.
  - reflexivity.
  - rewrite orelse_is_match. cbn [existsb].
    assert (Hc : in_class true [CChar gt_sign] c = negb (c =? gt_sign)%N).
    { unfold in_class. cbn [existsb in_item orb xorb]. now rewrite orb_false_r. }
    rewrite Hc, (N.eqb_sym gt_sign c).
    destruct (c =? gt_sign)%N eqn:E; cbn [negb orb is_match].
    + mstep. mstep. cbn [ignoreCase no_flags]. rewrite E. reflexivity.
    + change (Repeat 0 true ?r) with (Star r). rewrite IH.
      destruct (matcher no_flags (Star _) _ _); cbn [is_match];
        rewrite ?orb_false_r; try reflexivity.
      mstep. mstep. cbn [ignoreCase no_flags]. rewrite E. now rewrite orb_false_r.
Qed.

Lemma re_xml_here p s :
  is_match (match_here no_flags re_xml p s) =
  match s with
  | a :: b :: t => (a =? lt_sign)%N && negb (b =? gt_sign)%N && existsb (N.eqb gt_sign) t
  | _ => false
  end.
Proof.
  unfold match_here, re_xml. cbn [cat]. fold (mk p s []).
  change (ch "<") with lt_sign. change (ch ">") with gt_sign.
  do 2 mstep. cbn [ignoreCase no_flags].
  destruct s as [|a s]; [reflexivity|]. mstep.
  destruct (a =? lt_sign)%N; [|now destruct s]. mstep. cbn [andb].
  unfold Plus. rewrite plus_char with (P := in_class true [CChar gt_sign]) by reflexivity.
  destruct s as [|b t]; [reflexivity|].
  assert (Hc : in_class true [CChar gt_sign] b = negb (b =? gt_sign)%N).
  { unfold in_class. cbn [existsb in_item orb xorb]. now rewrite orb_false_r. }
  rewrite Hc.
  destruct (b =? gt_sign)%N; [reflexivity|]. cbn [negb andb].
  change (Repeat 0 true ?r) with (Star r). apply star_not_gt.
Qed.

Lemma existsb_first {A} (P : A -> bool) l :
  existsb P l = true ->
  exists b x c, l = b ++ x :: c /\ P x = true /\ forall y, In y b -> P y = false.
Proof.
  induction l as [|a l IH]; simpl; [discriminate|].
  destruct (P a) eqn:E.
  - intros _. exists [], a, l. repeat split; auto. intros y [].
  - simpl. intros H. destruct (IH H) as (b & x & c & -> & Hx & Hb).
    exists (a :: b), x, c. repeat split; auto. intros y [<- | Hy]; auto.
Qed.

Theorem re_xml_spec s : test no_flags re_xml s = true <-> has_xml_tag s.
Proof.
  rewrite test_is_match. split.
  - intros (s1 & s2 & Hs & Hm). rewrite re_xml_here in Hm.
    destruct s2 as [|a [|b t]]; try discriminate.
    apply andb_true_iff in Hm. destruct Hm as [Hm Ht].
    apply andb_true_iff in Hm. destruct Hm as [Ha Hb].
    apply N.eqb_eq in Ha. subst a. apply negb_true_iff, N.eqb_neq in Hb.
    apply existsb_first in Ht. destruct Ht as (b' & x & c & -> & Hx & Hb').
    apply N.eqb_eq in Hx. subst x.
    exists s1, (b :: b'), c. repeat split; auto; try discriminate.
    intros [E | Hin]; [congruence|]. apply Hb' in Hin. now rewrite N.eqb_refl in Hin.
  - intros (a & b & c & -> & Hb & Hnin). exists a, (lt_sign :: b ++ gt_sign :: c).
    split; auto. rewrite re_xml_here. destruct b as [|b0 b]; [congruence|].
    cbn [app]. rewrite N.eqb_refl. cbn [andb].
    replace (b0 =? gt_sign)%N with false.
    + cbn [negb andb]. rewrite existsb_app. cbn [existsb]. rewrite N.eqb_refl.
      now rewrite orb_true_r.
    + symmetry. apply N.eqb_neq. intros ->. apply Hnin. now left.
Qed.

(** ** Reserved words *)

Lemma str_here f : forall w k p s cs,
  matcher f (cat (map Chr w)) k (mk p s cs) =
  if lit_prefix f w s
  then k (mk (prev_of p (firstn (length w) s)) (skipn (length w) s) cs)
  else Failure.
Proof.
  induction w as [|a w IH]; intros k p s cs.
  - reflexivity.
  - destruct w as [|b w].
    + cbn [map cat]. mstep. destruct s as [|c t]; [reflexivity|]. mstep.
      cbn [lit_prefix length firstn skipn prev_of]. fold (chr_eq f c a).
      now rewrite andb_true_r.
    + change (cat (map Chr (a :: b :: w))) with (Seq (Chr a) (cat (map Chr (b :: w)))).
      do 2 mstep. destruct s as [|c t]; [reflexivity|]. mstep.
      fold (chr_eq f c a). cbn [lit_prefix]. destruct (chr_eq f c a); [|reflexivity].
      rewrite IH. reflexivity.
Qed.

Lemma prev_of_last p s : prev_of p s = match last_char s with Some c => Some c | None => p end.
Proof.
  revert p. unfold last_char. induction s as [|c t IH]; intros p; [reflexivity|].
  simpl. rewrite IH. destruct (rev t) as [|d r]; reflexivity.
Qed.

Lemma prev_of_None s : prev_of None s = last_char s.
Proof. rewrite prev_of_last. now destruct (last_char s). Qed.

Lemma lit_prefix_spec : forall v s,
  lit_prefix flag_i v s = true <->
  exists w post, s = w ++ post /\ eq_ignore_case w v.
Proof.
  unfold eq_ignore_case. induction v as [|a v IH]; intros s.
  - split; [intros _; now exists [], s|reflexivity].
  - destruct s as [|c t]; cbn [lit_prefix].
    + split; [discriminate|]. intros (w & post & Hs & Hw).
      apply eq_sym, app_eq_nil in Hs. destruct Hs; subst. discriminate.
    + unfold chr_eq at 1. cbn [ignoreCase flag_i]. rewrite andb_true_iff, N.eqb_eq, IH. split.
      * intros (Hc & w & post & -> & Hw). exists (c :: w), post. split; auto.
        simpl. now rewrite Hc, Hw.
      * intros (w & post & Hs & Hw). destruct w as [|c' w]; [discriminate|].
        simpl in Hs, Hw. injection Hs as <- ->. injection Hw as Hc Hw.
        split; auto. now exists w, post.
Qed.

Lemma eq_ignore_case_length w v : eq_ignore_case w v -> length w = length v.
Proof. intros H. apply (f_equal (@length _)) in H. now rewrite !length_map in H. Qed.

Lemma isWordChar_canonicalize c : isWordChar (canonicalize c) = isWordChar c.
Proof.
  unfold canonicalize. destruct ((97 <=? c) && (c <=? 122))%N eqn:E; [|reflexivity].
  apply andb_true_iff in E. destruct E as [E1 E2].
  apply N.leb_le in E1, E2. unfold isWordChar.
  replace ((97 <=? c) && (c <=? 122))%N with true
    by (symmetry; apply andb_true_iff; split; apply N.leb_le; lia).
  replace ((65 <=? c - 32) && (c - 32 <=? 90))%N with true
    by (symmetry; apply andb_true_iff; split; apply N.leb_le; lia).
  now rewrite !orb_true_r.
Qed.

Lemma eq_ignore_case_word w v :
  eq_ignore_case w v -> forallb isWordChar v = true -> forallb isWordChar w = true.
Proof.
  unfold eq_ignore_case. revert v. induction w as [|c w IH]; intros [|a v] H Hv;
    try discriminate; auto.
  simpl in *. injection H as Hc Hw. apply andb_true_iff in Hv. destruct Hv as [Ha Hv].
  rewrite (IH v Hw Hv), andb_true_r.
  now rewrite <- isWordChar_canonicalize, Hc, isWordChar_canonicalize.
Qed.

(** A word between the positions with predecessor [p] and successor [post]. *)
Lemma word_boundaries p w post cs cs' :
  w <> [] -> forallb isWordChar w = true ->
  at_word_boundary (mk p (w ++ post) cs) = negb (is_word p) /\
  at_word_boundary (mk (prev_of p w) post cs') = negb (is_word (hd_error post)).
Proof.
  intros Hne Hw. unfold at_word_boundary. cbn [prev rest mk]. split.
  - destruct w as [|c w]; [congruence|]. simpl in Hw. apply andb_true_iff in Hw.
    cbn [app hd_error is_word]. destruct Hw as [-> _]. now destruct (is_word p).
  - rewrite prev_of_last. unfold last_char.
    assert (H : forallb isWordChar (rev w) = true).
    { apply forallb_forall. intros x Hx. apply in_rev in Hx.
      eapply forallb_forall in Hw; eauto. }
    destruct (rev w) as [|c r] eqn:E.
    + apply (f_equal (@rev _)) in E. rewrite rev_involutive in E. simpl in E. congruence.
    + simpl in H. apply andb_true_iff in H. destruct H as [Hc _].
      cbn [hd_error is_word]. rewrite Hc. reflexivity.
Qed.

Lemma at_word_boundary_set_cap i v y :
  at_word_boundary (set_cap i v y) = at_word_boundary y.
Proof. reflexivity. Qed.

Lemma lit_prefix_boundary v p s cs :
  v <> [] -> forallb isWordChar v = true -> lit_prefix flag_i v s = true ->
  at_word_boundary (mk p s cs) = negb (is_word p) /\
  at_word_boundary (mk (prev_of p (firstn (length v) s)) (skipn (length v) s) cs)
  = negb (is_word (hd_error (skipn (length v) s))).
Proof.
  intros Hne Hv H. apply lit_prefix_spec in H. destruct H as (w & post & -> & Hw).
  pose proof (eq_ignore_case_length _ _ Hw) as Hl. rewrite <- Hl.
  rewrite firstn_app, Nat.sub_diag, firstn_all, skipn_app, Nat.sub_diag, skipn_all.
  cbn [firstn skipn app]. rewrite app_nil_r.
  apply word_boundaries.
  - destruct w; [destruct v; [congruence | discriminate]|discriminate].
  - eapply eq_ignore_case_word; eauto.
Qed.

Lemma re_reserved_here p s :
  is_match (match_here flag_i re_reserved p s) =
  negb (is_word p)
  && (reserved_here (lit "anthropic") s || reserved_here (lit "claude") s).
Proof.
  unfold match_here, re_reserved, reserved_here. cbn [cat]. fold (mk p s []).
  do 2 mstep.
  destruct (lit_prefix flag_i (lit "anthropic") s) eqn:EA;
  destruct (lit_prefix flag_i (lit "claude") s) eqn:EC; cbn [andb orb].
  all: try (destruct (lit_prefix_boundary (lit "anthropic") p s [] ltac:(discriminate) eq_refl EA)
              as [HA1 HA2]).
  all: try (destruct (lit_prefix_boundary (lit "claude") p s [] ltac:(discriminate) eq_refl EC)
              as [HC1 HC2]).
  all: try rewrite HA1; try rewrite HC1.
  all: try (destruct (is_word p); cbn [negb andb]; [reflexivity|]).
  all: do 3 mstep; unfold str; rewrite !str_here, ?EA, ?EC; cbv beta.
  all: repeat mstep; rewrite ?at_word_boundary_set_cap; cbn [rest mk].
  all: try rewrite HA2; try rewrite HC2.
  - destruct (negb (is_word (hd_error (skipn (length (lit "anthropic")) s))));
      cbn [orelse is_match orb]; [reflexivity|].
    destruct (negb (is_word (hd_error (skipn (length (lit "claude")) s)))); reflexivity.
  - rewrite orb_false_r.
    destruct (negb (is_word (hd_error (skipn (length (lit "anthropic")) s)))); reflexivity.
  - cbn [orelse].
    destruct (negb (is_word (hd_error (skipn (length (lit "claude")) s)))); reflexivity.
  - rewrite andb_false_r. now destruct (at_word_boundary _).
Qed.

Lemma reserved_here_spec v s :
  reserved_here v s = true <->
  exists w post, s = w ++ post /\ eq_ignore_case w v /\ is_word (hd_error post) = false.
Proof.
  unfold reserved_here. rewrite andb_true_iff, lit_prefix_spec, negb_true_iff. split.
  - intros [(w & post & -> & Hw) H]. exists w, post. repeat split; auto.
    rewrite <- (eq_ignore_case_length _ _ Hw) in H.
    now rewrite skipn_app, Nat.sub_diag, skipn_all in H.
  - intros (w & post & -> & Hw & H). split; [now exists w, post|].
    rewrite <- (eq_ignore_case_length _ _ Hw).
    now rewrite skipn_app, Nat.sub_diag, skipn_all.
Qed.

Theorem re_reserved_spec s : test flag_i re_reserved s = true <-> has_reserved_word s.
Proof.
  rewrite test_is_match. split.
  - intros (s1 & s2 & Hs & Hm). rewrite re_reserved_here, prev_of_None in Hm.
    apply andb_true_iff in Hm. destruct Hm as [Hp Hm]. apply negb_true_iff in Hp.
    apply orb_true_iff in Hm.
    destruct Hm as [Hm | Hm]; apply reserved_here_spec in Hm;
      destruct Hm as (w & post & -> & Hw & Hpost); exists s1, w, post; auto.
  - intros (pre & w & post & -> & Hw & Hpre & Hpost). exists pre, (w ++ post).
    split; [reflexivity|]. rewrite re_reserved_here, prev_of_None, Hpre. cbn [negb andb].
    apply orb_true_iff.
    destruct Hw as [Hw | Hw]; [left | right]; apply reserved_here_spec; now exists w, post.
Qed.

(** ** Quote stripping *)

Lemma re_quotes_here p s :
  match_here no_flags re_quotes p s =
  match s with
  | c :: t =>
      if is_quote c && (match p with None => true | Some _ => false end
                        || match t with [] => true | _ => false end)
      then Match (mk (Some c) t [])
      else Failure
  | [] => Failure
  end.
Proof.
  unfold match_here, re_quotes. fold (mk p s []).
  assert (Hq : forall c, in_class false [CChar dquote; CChar squote] c = is_quote c).
  { intros c. unfold in_class, is_quote. cbn [existsb in_item xorb]. now rewrite orb_false_r. }
  do 4 mstep. unfold at_bol. cbn [prev rest mk multiline no_flags andb].
  destruct s as [|c t].
  - repeat mstep. destruct p; reflexivity.
  - repeat mstep. rewrite !Hq. destruct (is_quote c); cbn [andb].
    + destruct p as [a|]; cbn [orelse orb]; [|reflexivity].
      unfold at_eol. cbn [rest mk multiline no_flags andb]. now destruct t.
    + destruct p; reflexivity.
Qed.

Lemma replace_from_quotes : forall s a,
  replace_from no_flags re_quotes [] 0 (Some a) s = drop_trailing_quote s.
Proof.
  induction s as [|c t IH]; intros a; cbn [replace_from]; rewrite re_quotes_here.
  - reflexivity.
  - cbn [orb]. destruct t as [|d t].
    + cbn [drop_trailing_quote]. destruct (is_quote c); reflexivity.
    + rewrite andb_false_r. rewrite IH. reflexivity.
Qed.

Theorem strip_quotes_spec s :
  strip_quotes s = drop_trailing_quote (drop_leading_quote s).
Proof.
  unfold strip_quotes, replaceAll. destruct s as [|c t]; [reflexivity|].
  cbn [replace_from]. rewrite re_quotes_here. cbn [orb drop_leading_quote].
  rewrite andb_true_r. destruct (is_quote c) eqn:E.
  - cbn [rest mk length]. replace (S (length t) - length t) with 1 by lia.
    cbn [Nat.eqb Nat.sub app]. apply replace_from_quotes.
  - rewrite replace_from_quotes. destruct t; [|reflexivity].
    simpl. now rewrite E.
Qed.

Lemma drop_trailing_quote_app body b :
  is_quote b = true -> drop_trailing_quote (body ++ [b]) = body.
Proof.
  intros Hb. induction body as [|c t IH]; simpl.
  - now rewrite Hb.
  - rewrite IH. destruct (t ++ [b]) eqn:E; [now destruct t|reflexivity].
Qed.

Corollary strip_quotes_pair a b body :
  is_quote a = true -> is_quote b = true -> strip_quotes (a :: body ++ [b]) = body.
Proof.
  intros Ha Hb. rewrite strip_quotes_spec. simpl. rewrite Ha.
  now apply drop_trailing_quote_app.
Qed.

Lemma drop_trailing_quote_length s :
  length s - 1 <= length (drop_trailing_quote s) <= length s.
Proof.
  induction s as [|c [|d t] IH]; simpl in *; try lia.
  destruct (is_quote c); simpl; lia.
Qed.

Corollary strip_quotes_length s :
  length s - 2 <= length (strip_quotes s) <= length s.
Proof.
  rewrite strip_quotes_spec.
  pose proof (drop_trailing_quote_length (drop_leading_quote s)).
  destruct s as [|c t]; simpl in *; [lia|].
  destruct (is_quote c); simpl in *; lia.
Qed.

(** ** Searching a key at the start of a line *)

Lemma exec_from_step f r b p c s :
  is_match (match_here f r p (c :: s)) = false ->
  exec_from f r b p (c :: s) = exec_from f r (c :: b) (Some c) s.
Proof. intros H. cbn [exec_from]. destruct (match_here f r p (c :: s)); [discriminate | |]; reflexivity. Qed.

Section KeyLine.
Variable K : jsstring.
Variable r2 : regex.
Hypothesis K_nonempty : K <> [].
Hypothesis K_one_line : forallb (fun a => negb (a =? 10)%N) K = true.

(** A pattern of the shape [^key...] with the [m] flag. *)
Local Abbreviation R := (Seq Bol (Seq (cat (map Chr K)) r2)).

Lemma key_line_here p s :
  at_bol flag_m (mk p s []) && lit_prefix flag_m K s = false ->
  is_match (match_here flag_m R p s) = false.
Proof.
  intros H. unfold match_here. fold (mk p s []). do 2 mstep.
  destruct (at_bol flag_m (mk p s [])); [|reflexivity].
  mstep. rewrite str_here. cbn [andb] in H. now rewrite H.
Qed.

Lemma lit_prefix_line : forall w l tail,
  forallb (fun a => negb (a =? 10)%N) w = true ->
  lit_prefix flag_m w l = false ->
  lit_prefix flag_m w (l ++ 10%N :: tail) = false.
Proof.
  induction w as [|a w IH]; intros l tail Hw H; [discriminate|].
  cbn [forallb] in Hw. apply andb_true_iff in Hw. destruct Hw as [Ha Hw].
  destruct l as [|c l]; cbn [app lit_prefix] in *.
  - unfold chr_eq. cbn [ignoreCase flag_m]. rewrite N.eqb_sym.
    apply negb_true_iff in Ha. now rewrite Ha.
  - destruct (chr_eq flag_m c a); [|reflexivity]. cbn [andb] in *. now apply IH.
Qed.

Lemma skip_inside_line : forall l b c0 tail,
  isLineTerminator c0 = false -> no_line_terminator l = true ->
  exec_from flag_m R b (Some c0) (l ++ 10%N :: tail)
  = exec_from flag_m R (10%N :: rev l ++ b) (Some 10%N) tail.
Proof.
  induction l as [|c l IH]; intros b c0 tail Hc0 Hl; cbn [app rev].
  - apply exec_from_step. apply key_line_here.
    unfold at_bol. cbn [prev mk multiline flag_m andb]. now rewrite Hc0.
  - cbn [no_line_terminator forallb] in Hl. apply andb_true_iff in Hl. destruct Hl as [Hc Hl].
    apply negb_true_iff in Hc.
    rewrite exec_from_step.
    + rewrite IH by assumption. now rewrite <- app_assoc.
    + apply key_line_here. unfold at_bol. cbn [prev mk multiline flag_m andb]. now rewrite Hc0.
Qed.

Lemma lit_prefix_starts_with : forall w s,
  lit_prefix flag_m w s = true <-> starts_with s w.
Proof.
  unfold starts_with. induction w as [|a w IH]; intros s.
  - split; [intros _; now exists s | reflexivity].
  - destruct s as [|c t]; cbn [lit_prefix].
    + split; [discriminate | intros [post H]; discriminate].
    + unfold chr_eq at 1. cbn [ignoreCase flag_m].
      rewrite andb_true_iff, N.eqb_eq, IH. split.
      * intros (-> & post & ->). now exists post.
      * intros (post & H). injection H as -> ->. split; [reflexivity | now exists post].
Qed.

Lemma skip_line l b p tail :
  other_line K l ->
  exec_from flag_m R b p (l ++ 10%N :: tail)
  = exec_from flag_m R (10%N :: rev l ++ b) (Some 10%N) tail.
Proof.
  intros [Hl HK].
  assert (HK' : lit_prefix flag_m K l = false).
  { destruct (lit_prefix flag_m K l) eqn:E; [|reflexivity].
    exfalso. now apply HK, lit_prefix_starts_with. }
  clear HK. rename HK' into HK.
  assert (Hhere : is_match (match_here flag_m R p (l ++ 10%N :: tail)) = false).
  { apply key_line_here. rewrite (lit_prefix_line K l tail K_one_line HK).
    apply andb_false_r. }
  destruct l as [|c l]; cbn [app rev] in *.
  - now apply exec_from_step.
  - rewrite exec_from_step by assumption.
    cbn [no_line_terminator forallb] in Hl. apply andb_true_iff in Hl. destruct Hl as [Hc Hl].
    apply negb_true_iff in Hc. rewrite skip_inside_line by assumption.
    now rewrite <- app_assoc.
Qed.

Lemma skip_lines : forall ls b p tail,
  Forall (other_line K) ls ->
  exec_from flag_m R b p (text_of_lines ls ++ tail)
  = exec_from flag_m R (rev (text_of_lines ls) ++ b)
      (match ls with [] => p | _ => Some 10%N end) tail.
Proof.
  unfold text_of_lines.
  induction ls as [|l ls IH]; intros b p tail Hls; [reflexivity|].
  inversion Hls as [|? ? Hl Hls']; subst.
  cbn [map concat]. rewrite <- !app_assoc. cbn [nl app].
  rewrite skip_line by assumption. rewrite IH by assumption.
  rewrite !rev_app_distr. cbn [rev app]. rewrite <- !app_assoc. cbn [app].
  now destruct ls.
Qed.

End KeyLine.

Lemma join_lines ls d : join nl (ls ++ [d]) = text_of_lines ls ++ d.
Proof.
  unfold text_of_lines. induction ls as [|l ls IH]; [reflexivity|].
  cbn [app map concat]. rewrite <- app_assoc, <- IH.
  cbn [join]. destruct (ls ++ [d]) eqn:E; [now destruct ls|].
  now rewrite <- app_assoc.
Qed.

Lemma description_field_marker_last ls :
  Forall (other_line description_key) ls ->
  description_field (join nl (ls ++ [block_marker_line])) = Some (lit ">").
Proof.
  intros Hls. unfold description_field, exec. rewrite join_lines.
  change re_description_multiline with
    (Seq Bol (Seq (cat (map Chr description_key))
       (cat [Star Space; Chr (ch ">"); Star Space; Chr 10%N;
             Group 1 (StarLazy (Class false [CSpace; CNonSpace]));
             LookAhead (Alt (cat [Chr 10%N;
                                  Plus (Class false [CRange (ch "a") (ch "z"); CChar (ch "-")]);
                                  Chr (ch ":")])
                            Eol)]))).
  change re_description with
    (Seq Bol (Seq (cat (map Chr description_key))
       (cat [Star Space; Group 1 (Plus Dot); Eol]))).
  rewrite !skip_lines by (assumption || reflexivity || discriminate).
  generalize (rev (text_of_lines ls) ++ []). intros b.
  destruct ls; vm_compute; reflexivity.
Qed.

(** ** Captures *)

Lemma keeps_captures_refl x : keeps_captures x x.
Proof. intros i H. exact H. Qed.

Lemma keeps_captures_trans x y z :
  keeps_captures x y -> keeps_captures y z -> keeps_captures x z.
Proof. intros H1 H2 i H. apply H2, H1, H. Qed.

Lemma capture_set_cap i j v y :
  capture i (set_cap j v y) = if j =? i then Some v else capture i y.
Proof. unfold capture, set_cap. cbn [caps find fst]. now destruct (j =? i). Qed.

Lemma keeps_captures_set_cap j v y : keeps_captures y (set_cap j v y).
Proof. intros i H. rewrite capture_set_cap. now destruct (j =? i). Qed.

Lemma orelse_Match a b z :
  orelse a b = Match z -> a = Match z \/ (a = Failure /\ b tt = Match z).
Proof. destruct a; simpl; intros H; auto; discriminate. Qed.

Lemma char_matcher_caps P k x z :
  char_matcher P k x = Match z -> exists y, k y = Match z /\ keeps_captures x y.
Proof.
  unfold char_matcher. destruct (rest x) as [|c t]; [discriminate|].
  destruct (P c); [|discriminate]. intros H. exists (advance c x). split; [exact H|].
  intros i Hi. exact Hi.
Qed.

Lemma repeat_matcher_caps m greedy k :
  (forall k' x' z, m k' x' = Match z -> exists y, k' y = Match z /\ keeps_captures x' y) ->
  forall fuel min x z,
    repeat_matcher m greedy k fuel min x = Match z ->
    exists y, k y = Match z /\ keeps_captures x y.
Proof.
  intros Hm. induction fuel as [|fuel IH]; intros min x z H; [discriminate|].
  rewrite repeat_matcher_S in H. cbv zeta in H.
  assert (Hd : forall z',
             m (fun y => if (min =? 0) && (length (rest y) =? length (rest x))
                         then Failure
                         else repeat_matcher m greedy k fuel (pred min) y) x = Match z' ->
             exists y, k y = Match z' /\ keeps_captures x y).
  { intros z' H'. apply Hm in H'. destruct H' as (y1 & H1 & K1).
    destruct ((min =? 0) && (length (rest y1) =? length (rest x))); [discriminate|].
    apply IH in H1. destruct H1 as (y & Hy & K). exists y. split; [exact Hy|].
    eapply keeps_captures_trans; eassumption. }
  destruct (negb (min =? 0)); [now apply Hd|].
  destruct greedy; apply orelse_Match in H; destruct H as [H | [_ H]];
    try (now apply Hd); exists x; split; auto using keeps_captures_refl.
Qed.

Lemma matcher_caps f r : forall k x z,
  matcher f r k x = Match z -> exists y, k y = Match z /\ keeps_captures x y.
Proof.
  induction r; intros k x z H.
  - exists x. split; [exact H | apply keeps_captures_refl].
  - now apply char_matcher_caps in H.
  - now apply char_matcher_caps in H.
  - now apply char_matcher_caps in H.
  - rewrite matcher_Seq in H. apply IHr1 in H. destruct H as (y1 & H & K1).
    apply IHr2 in H. destruct H as (y & H & K2). exists y. split; [exact H|].
    eapply keeps_captures_trans; eassumption.
  - rewrite matcher_Alt in H. apply orelse_Match in H. destruct H as [H | [_ H]]; eauto.
  - rewrite matcher_Repeat in H. eapply repeat_matcher_caps; eauto.
  - rewrite matcher_Group in H. apply IHr in H. destruct H as (y1 & H & K).
    eexists. split; [exact H|].
    eapply keeps_captures_trans; [exact K | apply keeps_captures_set_cap].
  - rewrite matcher_Bol in H. destruct (at_bol f x); [|discriminate].
    exists x. split; [exact H | apply keeps_captures_refl].
  - rewrite matcher_Eol in H. destruct (at_eol f x); [|discriminate].
    exists x. split; [exact H | apply keeps_captures_refl].
  - rewrite matcher_WordBoundary in H. destruct (at_word_boundary x); [|discriminate].
    exists x. split; [exact H | apply keeps_captures_refl].
  - rewrite matcher_LookAhead in H.
    destruct (matcher f r Match x) as [y'| |] eqn:E; try discriminate.
    apply IHr in E. destruct E as (y0 & E & K). injection E as ->.
    eexists. split; [exact H|]. intros i Hi. apply K in Hi. exact Hi.
Qed.

Lemma matcher_binds f i r : binds i r = true -> forall k x z,
  matcher f r k x = Match z -> exists y, k y = Match z /\ capture i y <> None.
Proof.
  induction r; intros Hb k x z H; cbn [binds] in Hb; try discriminate.
  - rewrite matcher_Seq in H. apply orb_true_iff in Hb. destruct Hb as [Hb | Hb].
    + apply (IHr1 Hb) in H. destruct H as (y1 & H & C1).
      apply matcher_caps in H. destruct H as (y & H & K). exists y. split; [exact H|].
      now apply K.
    + apply matcher_caps in H. destruct H as (y1 & H & _). now apply (IHr2 Hb) in H.
  - rewrite matcher_Alt in H. apply andb_true_iff in Hb. destruct Hb as [Hb1 Hb2].
    apply orelse_Match in H. destruct H as [H | [_ H]]; eauto.
  - rewrite matcher_Group in H. apply orb_true_iff in Hb. destruct Hb as [Hb | Hb].
    + apply Nat.eqb_eq in Hb. subst i0.
      apply matcher_caps in H. destruct H as (y1 & H & _).
      eexists. split; [exact H|]. rewrite capture_set_cap, Nat.eqb_refl. discriminate.
    + apply (IHr Hb) in H. destruct H as (y1 & H & C).
      eexists. split; [exact H|]. now apply keeps_captures_set_cap.
  - rewrite matcher_LookAhead in H.
    destruct (matcher f r Match x) as [y'| |] eqn:E; try discriminate.
    apply (IHr Hb) in E. destruct E as (y0 & E & C). injection E as ->.
    eexists. split; [exact H|]. exact C.
Qed.

(** Group 1 takes part in every match of a pattern that binds it, so
    [group1] never falls back on its default. *)
Theorem exec_group1 f r s m :
  binds 1 r = true -> exec f r s = Some m -> capture 1 (snd m) = Some (group1 m).
Proof.
  intros Hb H. destruct m as [pre y]. apply exec_from_Some in H.
  destruct H as (s1 & s2 & _ & _ & H & _). unfold match_here in H.
  apply (matcher_binds f 1 r Hb) in H. destruct H as (y' & H & C).
  injection H as ->. unfold group1. cbn [snd]. now destruct (capture 1 y).
Qed.

Lemma patterns_bind_group1 :
  binds 1 re_name = true /\ binds 1 re_description = true
  /\ binds 1 re_description_multiline = true.
Proof. repeat split. Qed.

(** ** Counting words *)

Lemma star_space_Match : forall s p cs,
  exists q, matcher no_flags (Star Space) Match (mk p s cs) = Match (mk q (trimStart s) cs).
Proof.
  induction s as [|c t IH]; intros p cs; unfold Star, Space;
    rewrite star_char with (P := in_class false [CSpace]) by reflexivity; cbv zeta.
  - exists p. reflexivity.
  - assert (Hc : in_class false [CSpace] c = isSpace c).
    { unfold in_class. cbn [existsb in_item xorb]. now rewrite orb_false_r. }
    rewrite Hc. cbn [trimStart]. destruct (isSpace c).
    + destruct (IH (Some c) cs) as [q Hq]. unfold Star, Space in Hq. rewrite Hq.
      exists q. reflexivity.
    + exists p. reflexivity.
Qed.

Lemma re_whitespace_here p s :
  match s with
  | c :: t =>
      if isSpace c
      then exists q, match_here no_flags re_whitespace p s = Match (mk q (trimStart t) [])
      else match_here no_flags re_whitespace p s = Failure
  | [] => match_here no_flags re_whitespace p s = Failure
  end.
Proof.
  unfold match_here, re_whitespace, Plus, Space. fold (mk p s []).
  rewrite plus_char with (P := in_class false [CSpace]) by reflexivity.
  destruct s as [|c t]; [reflexivity|].
  assert (Hc : in_class false [CSpace] c = isSpace c).
  { unfold in_class. cbn [existsb in_item xorb]. now rewrite orb_false_r. }
  rewrite Hc. destruct (isSpace c); [|reflexivity].
  apply (star_space_Match t (Some c) []).
Qed.

Lemma trimStart_length s : length (trimStart s) <= length s.
Proof. induction s as [|c t IH]; simpl; [lia|]. destruct (isSpace c); simpl; lia. Qed.

Lemma skipn_trimStart s : skipn (length s - length (trimStart s)) s = trimStart s.
Proof.
  induction s as [|c t IH]; [reflexivity|]. cbn [trimStart].
  destruct (isSpace c).
  - pose proof (trimStart_length t) as Hl.
    replace (length (c :: t) - length (trimStart t))
      with (S (length t - length (trimStart t))) by (cbn [length]; lia).
    exact IH.
  - now rewrite Nat.sub_diag.
Qed.

Lemma count_words_trimStart s : count_words false (trimStart s) = count_words false s.
Proof.
  induction s as [|c t IH]; [reflexivity|]. cbn [trimStart count_words].
  destruct (isSpace c) eqn:E; [exact IH|]. cbn [count_words]. now rewrite E.
Qed.

Lemma split_from_skip r : forall k cur p s,
  k <= length s ->
  exists q, split_from no_flags r cur k p s = split_from no_flags r cur 0 q (skipn k s).
Proof.
  induction k as [|k IH]; intros cur p s Hk.
  - exists p. reflexivity.
  - destruct s as [|c t]; [simpl in Hk; lia|].
    cbn [split_from skipn]. apply IH. simpl in Hk. lia.
Qed.

Lemma count_split_from : forall n s cur p,
  length s <= n ->
  length (filter truthy (split_from no_flags re_whitespace cur 0 p s))
  = (if truthy cur then 1 else 0) + count_words (truthy cur) s.
Proof.
  assert (Hrev : forall cur, truthy (rev cur) = truthy cur).
  { intros [|c cur]; [reflexivity|]. simpl. now destruct (rev cur). }
  induction n as [|n IH]; intros s cur p Hn.
  - destruct s; [|simpl in Hn; lia]. cbn [split_from filter count_words].
    rewrite Hrev. destruct (truthy cur); reflexivity.
  - destruct s as [|c t].
    + cbn [split_from filter count_words]. rewrite Hrev. destruct (truthy cur); reflexivity.
    + simpl in Hn. cbn [split_from count_words].
      pose proof (re_whitespace_here p (c :: t)) as H. cbv beta iota in H.
      destruct (isSpace c).
      * destruct H as [q ->]. cbn [rest mk].
        pose proof (trimStart_length t) as Hl.
        replace (length (c :: t) - length (trimStart t) =? 0) with false
          by (symmetry; apply Nat.eqb_neq; cbn [length]; lia).
        replace (length (c :: t) - length (trimStart t) - 1)
          with (length t - length (trimStart t)) by (cbn [length]; lia).
        destruct (split_from_skip re_whitespace (length t - length (trimStart t)) [] (Some c) t)
          as [q' ->]; [lia|].
        rewrite skipn_trimStart. cbn [filter]. rewrite Hrev.
        destruct (truthy cur); cbn [length]; rewrite IH by lia;
          cbn [truthy]; now rewrite count_words_trimStart.
      * rewrite H. rewrite IH by lia. cbn [truthy].
        destruct (truthy cur); reflexivity.
Qed.

(** The word count of the length rule is the number of runs of characters
    other than white space in the body. *)
Theorem wordCount_spec p : wordCount p = count_words false (join nl (lines p)).
Proof.
  unfold wordCount. cbv zeta. unfold split.
  destruct (join nl (lines p)) as [|c t] eqn:E; [reflexivity|].
  rewrite (count_split_from (length (c :: t))) by lia. reflexivity.
Qed.

End Facts.

(** * The claims *)

Module Claims.
Import JS Regex Patterns Rules Spec Examples Facts.

(** ** Diagnostics of the length rule *)

Lemma is_line_count_lines_error n : is_line_count (lines_error n) = true.
Proof. reflexivity. Qed.

Lemma is_line_count_lines_warning n : is_line_count (lines_warning n) = true.
Proof. reflexivity. Qed.

Lemma is_line_count_words_error n : is_line_count (words_error n) = false.
Proof. reflexivity. Qed.

Lemma is_line_count_words_warning n : is_line_count (words_warning n) = false.
Proof. reflexivity. Qed.

Lemma is_warning_lines_warning n : is_warning (lines_warning n) = true.
Proof.
  unfold is_warning, lines_warning, context.
  change (lit " lines (warning)") with (lit " lines " ++ lit "(warning)").
  rewrite app_assoc. apply endsWith_app.
Qed.

Lemma is_warning_lines_error n : is_warning (lines_error n) = false.
Proof.
  unfold is_warning, lines_error, context.
  change (lit " lines") with (lit " line" ++ [ch "s"]).
  change (lit "(warning)") with (lit "(warning" ++ [ch ")"]).
  rewrite app_assoc. apply endsWith_last. discriminate.
Qed.

Lemma filter_check_words n : filter is_line_count (check_words n) = [].
Proof.
  unfold check_words. destruct (MAX_WORDS <? n); [reflexivity|].
  destruct (WARNING_WORDS <? n); reflexivity.
Qed.

Lemma filter_check_lines n : filter is_line_count (check_lines n) = check_lines n.
Proof.
  unfold check_lines. destruct (MAX_LINES <? n); [reflexivity|].
  destruct (WARNING_LINES <? n); reflexivity.
Qed.

Lemma line_count_diagnostics p :
  checked p -> filter is_line_count (skillLength p) = check_lines (totalLines p).
Proof.
  unfold checked, skillLength. intros ->. cbn [negb].
  now rewrite filter_app, filter_check_words, filter_check_lines, app_nil_r.
Qed.

Lemma skillLength_unchecked p :
  endsWith (name p) (lit "SKILL.md") = false -> skillLength p = [].
Proof. unfold skillLength. now intros ->. Qed.

Lemma skillFrontmatter_unchecked p :
  endsWith (name p) (lit "SKILL.md") = false -> skillFrontmatter p = [].
Proof. unfold skillFrontmatter. now intros ->. Qed.

(** C5.  A document whose name does not end with [SKILL.md] gets no
    diagnostic from either rule, whatever its lines and its frontmatter. *)
Theorem C5_unchecked_document_no_diagnostics (p : params) :
  endsWith (name p) (lit "SKILL.md") = false ->
  skillLength p = [] /\ skillFrontmatter p = [].
Proof.
  intros H. split; [now apply skillLength_unchecked | now apply skillFrontmatter_unchecked].
Qed.

Lemma C5_unchecked_document_no_diagnostics_witness :
  skillLength readme_invalid = [] /\ skillFrontmatter readme_invalid = [].
Proof. apply C5_unchecked_document_no_diagnostics. reflexivity. Defined.

(** C3, as stated: every document with a line count between the two
    limits gets exactly one line-count diagnostic, a warning.  It fails on
    a document the rule does not apply to. *)
Lemma C3_counterexample :
  ~ (forall p : params,
        WARNING_LINES < totalLines p <= MAX_LINES ->
        exists e, filter is_line_count (skillLength p) = [e] /\ is_warning e = true).
Proof.
  intros H. destruct (H readme_301) as (e & He & _).
  - vm_compute. split; [lia | repeat constructor].
  - vm_compute in He. discriminate.
Qed.

(** C3, amended.  For a checked document whose line count is above
    [WARNING_LINES] and at most [MAX_LINES], the length rule emits exactly
    one line-count diagnostic: the recommendation, marked [(warning)] in
    its context, and not the [max] diagnostic. *)
Theorem C3_soft_limit_one_warning (p : params) :
  checked p ->
  WARNING_LINES < totalLines p <= MAX_LINES ->
  filter is_line_count (skillLength p) = [lines_warning (totalLines p)]
  /\ (forall e, In e (skillLength p) -> is_line_count e = true -> is_warning e = true)
  /\ ~ In (lines_error (totalLines p)) (skillLength p).
Proof.
  intros Hp [Hlo Hhi].
  assert (Hl : check_lines (totalLines p) = [lines_warning (totalLines p)]).
  { unfold check_lines.
    replace (MAX_LINES <? totalLines p) with false by (symmetry; apply Nat.ltb_ge; lia).
    replace (WARNING_LINES <? totalLines p) with true by (symmetry; apply Nat.ltb_lt; lia).
    reflexivity. }
  split; [now rewrite line_count_diagnostics, Hl|].
  split.
  { intros e Hin He.
    assert (Hf : In e (filter is_line_count (skillLength p)))
      by (apply filter_In; split; assumption).
    rewrite line_count_diagnostics, Hl in Hf by assumption.
    destruct Hf as [<- | []]. apply is_warning_lines_warning. }
  intros Hin.
  assert (Hf : In (lines_error (totalLines p)) (filter is_line_count (skillLength p)))
    by (apply filter_In; split; [exact Hin | reflexivity]).
  rewrite line_count_diagnostics, Hl in Hf by assumption.
  destruct Hf as [Hf | []].
  apply (f_equal is_warning) in Hf.
  now rewrite is_warning_lines_warning, is_warning_lines_error in Hf.
Qed.

Lemma C3_soft_limit_one_warning_witness :
  filter is_line_count (skillLength skill_301) = [lines_warning (totalLines skill_301)]
  /\ (forall e, In e (skillLength skill_301) -> is_line_count e = true -> is_warning e = true)
  /\ ~ In (lines_error (totalLines skill_301)) (skillLength skill_301).
Proof.
  apply C3_soft_limit_one_warning.
  - reflexivity.
  - vm_compute. split; [lia | repeat constructor].
Defined.

(** C4, as stated: no line-count error at exactly [MAX_LINES] lines, and
    exactly one, naming the limit, at [MAX_LINES + 1] lines, for every
    document.  The second half fails on a document the rule does not apply
    to. *)
Lemma C4_counterexample :
  ~ (forall p : params,
        (totalLines p = MAX_LINES ->
         forall e, In e (skillLength p) -> is_line_count e = true -> is_warning e = true)
        /\ (totalLines p = MAX_LINES + 1 ->
            exists e, filter (fun e => is_line_count e && negb (is_warning e)) (skillLength p) = [e])).
Proof.
  intros H. destruct (H readme_501) as [_ H2].
  destruct H2 as (e & He); [reflexivity|].
  vm_compute in He. discriminate.
Qed.

(** C4, amended.  The boundary of the line-count error is strict.  At
    exactly [MAX_LINES] lines no document gets a line-count error (a
    line-count diagnostic, if any, is the recommendation).  At
    [MAX_LINES + 1] lines a checked document gets exactly one line-count
    diagnostic, the error, and its message names the limit. *)
Theorem C4_hard_limit_boundary (p : params) :
  (totalLines p = MAX_LINES ->
   forall e, In e (skillLength p) -> is_line_count e = true -> is_warning e = true)
  /\ (checked p -> totalLines p = MAX_LINES + 1 ->
      filter is_line_count (skillLength p) = [lines_error (MAX_LINES + 1)]
      /\ is_warning (lines_error (MAX_LINES + 1)) = false
      /\ detail (lines_error (MAX_LINES + 1))
         = lit "Line count: 501 (max: 500). Move detailed content to references/ subdirectory.").
Proof.
  split.
  - intros Ht e Hin He.
    destruct (endsWith (name p) (lit "SKILL.md")) eqn:Hp.
    + assert (Hf : In e (filter is_line_count (skillLength p)))
        by (apply filter_In; split; assumption).
      rewrite line_count_diagnostics, Ht in Hf by exact Hp.
      destruct Hf as [<- | []]. reflexivity.
    + rewrite skillLength_unchecked in Hin by exact Hp. destruct Hin.
  - intros Hp Ht. rewrite line_count_diagnostics, Ht by exact Hp.
    repeat split; reflexivity.
Qed.

Lemma C4_hard_limit_boundary_witness :
  (forall e, In e (skillLength skill_500) -> is_line_count e = true -> is_warning e = true)
  /\ filter is_line_count (skillLength skill_501) = [lines_error (MAX_LINES + 1)]
  /\ is_warning (lines_error (MAX_LINES + 1)) = false
  /\ detail (lines_error (MAX_LINES + 1))
     = lit "Line count: 501 (max: 500). Move detailed content to references/ subdirectory.".
Proof.
  split.
  - apply (proj1 (C4_hard_limit_boundary skill_500)). reflexivity.
  - apply (proj2 (C4_hard_limit_boundary skill_501)); reflexivity.
Defined.

(** The word-count check is a check of its own: at [MAX_LINES] lines a
    checked document with more than [MAX_WORDS] words still gets the
    word-count error. *)
Lemma word_count_error_at_max_lines p :
  checked p -> totalLines p = MAX_LINES -> MAX_WORDS < wordCount p ->
  skillLength p = [lines_warning MAX_LINES; words_error (wordCount p)].
Proof.
  unfold checked, skillLength, check_words. intros -> -> Hw. cbn [negb].
  apply Nat.ltb_lt in Hw. rewrite Hw. reflexivity.
Qed.

(** ** Diagnostics of the frontmatter rule *)

Lemma skillFrontmatter_checked p :
  checked p -> frontMatterLines_or_empty p <> [] ->
  skillFrontmatter p =
  name_errors p (frontmatter_text (frontMatterLines_or_empty p))
  ++ description_errors (frontmatter_text (frontMatterLines_or_empty p)).
Proof.
  unfold checked, skillFrontmatter. intros -> Hne. cbn [negb].
  now destruct (frontMatterLines_or_empty p).
Qed.

(** C6.  A checked document without frontmatter lines gets exactly one
    diagnostic from the frontmatter rule, [Missing frontmatter]; the fields
    are not looked at. *)
Theorem C6_missing_frontmatter (p : params) :
  checked p ->
  frontMatterLines_or_empty p = [] ->
  skillFrontmatter p = [missing_frontmatter]
  /\ context missing_frontmatter = lit "Missing frontmatter"
  /\ filter is_name_related (skillFrontmatter p) = [].
Proof.
  unfold checked, skillFrontmatter. intros -> ->. repeat split.
Qed.

Lemma C6_missing_frontmatter_witness :
  skillFrontmatter skill_without_frontmatter = [missing_frontmatter]
  /\ context missing_frontmatter = lit "Missing frontmatter"
  /\ filter is_name_related (skillFrontmatter skill_without_frontmatter) = [].
Proof. apply C6_missing_frontmatter; reflexivity. Defined.

Lemma name_field_frontmatter fml nm :
  name_field (frontmatter_text fml) = Some nm -> fml <> [].
Proof. intros H ->. discriminate. Qed.

Lemma when_true c e : c = true -> when c e = [e].
Proof. now intros ->. Qed.

Lemma when_false c e : c = false -> when c e = [].
Proof. now intros ->. Qed.

Lemma In_when c e x : In x (when c e) <-> c = true /\ x = e.
Proof.
  destruct c; simpl; split; try tauto.
  - intros [<- | []]. auto.
  - intros [_ ->]. auto.
  - intros [H _]. discriminate.
Qed.

Lemma check_name_related p nm : filter is_name_related (check_name p nm) = check_name p nm.
Proof.
  unfold check_name. rewrite !filter_app.
  repeat match goal with
  | |- context [when ?c ?e] => destruct c; cbn [when]
  end; reflexivity.
Qed.

Lemma name_errors_related p fm : filter is_name_related (name_errors p fm) = name_errors p fm.
Proof.
  unfold name_errors. destruct (name_field fm); [apply check_name_related | reflexivity].
Qed.

Lemma check_description_unrelated d : filter is_name_related (check_description d) = [].
Proof.
  unfold check_description. rewrite !filter_app.
  repeat match goal with
  | |- context [when ?c ?e] => destruct c; cbn [when]
  end; reflexivity.
Qed.

Lemma description_errors_unrelated fm : filter is_name_related (description_errors fm) = [].
Proof.
  unfold description_errors.
  destruct (description_field fm); [apply check_description_unrelated | reflexivity].
Qed.

(** The diagnostics on the name are the ones of the name check. *)
Lemma name_related_diagnostics p nm :
  checked p ->
  name_field (frontmatter_text (frontMatterLines_or_empty p)) = Some nm ->
  filter is_name_related (skillFrontmatter p) = check_name p nm.
Proof.
  intros Hp Hnm. rewrite skillFrontmatter_checked; eauto using name_field_frontmatter.
  rewrite filter_app, name_errors_related, description_errors_unrelated, app_nil_r.
  unfold name_errors. now rewrite Hnm.
Qed.

Lemma check_name_tagged p :
  check_name p tagged_name =
  [invalid_name_format tagged_name; consecutive_hyphens tagged_name; xml_in_name tagged_name]
  ++ when (negb (str_eqb tagged_name (dirName p))) (directory_mismatch tagged_name (dirName p)).
Proof.
  unfold check_name.
  replace (test no_flags re_kebab tagged_name) with false by (vm_compute; reflexivity).
  replace (64 <? length tagged_name) with false by (vm_compute; reflexivity).
  replace (test flag_i re_reserved tagged_name) with false by (vm_compute; reflexivity).
  replace (test no_flags re_hyphens tagged_name) with true by (vm_compute; reflexivity).
  replace (test no_flags re_xml tagged_name) with true by (vm_compute; reflexivity).
  reflexivity.
Qed.

(** C2, as stated: the name [ab--cd<x>] gets exactly three diagnostics.
    In a directory with another name it gets four. *)
Lemma C2_counterexample :
  ~ (forall p : params,
        checked p ->
        name_field (frontmatter_text (frontMatterLines_or_empty p)) = Some tagged_name ->
        length (filter is_name_related (skillFrontmatter p)) = 3).
Proof.
  intros H. specialize (H skill_tagged_name eq_refl eq_refl).
  vm_compute in H. discriminate.
Qed.

(** C2, amended.  For a checked document whose name field is
    [ab--cd<x>], each name check decides on its own: the kebab-case, the
    consecutive-hyphen and the XML-tag diagnostics are emitted, the length
    and the reserved-word diagnostics are not, and the directory diagnostic
    is emitted exactly when the directory has another name.  So there are
    three name diagnostics in a directory called [ab--cd<x>] and four
    elsewhere. *)
Theorem C2_independent_name_checks (p : params) :
  checked p ->
  name_field (frontmatter_text (frontMatterLines_or_empty p)) = Some tagged_name ->
  let ds := filter is_name_related (skillFrontmatter p) in
  (dirName p = tagged_name ->
   ds = [invalid_name_format tagged_name; consecutive_hyphens tagged_name;
         xml_in_name tagged_name])
  /\ (dirName p <> tagged_name ->
      ds = [invalid_name_format tagged_name; consecutive_hyphens tagged_name;
            xml_in_name tagged_name; directory_mismatch tagged_name (dirName p)]).
Proof.
  intros Hp Hnm ds. subst ds.
  rewrite (name_related_diagnostics p tagged_name Hp Hnm), check_name_tagged.
  split; intros Hd.
  - rewrite Hd, str_eqb_refl. reflexivity.
  - replace (str_eqb tagged_name (dirName p)) with false; [reflexivity|].
    symmetry. apply str_eqb_neq. congruence.
Qed.

Lemma C2_independent_name_checks_witness :
  filter is_name_related (skillFrontmatter skill_tagged_name_in_directory)
  = [invalid_name_format tagged_name; consecutive_hyphens tagged_name;
     xml_in_name tagged_name]
  /\ filter is_name_related (skillFrontmatter skill_tagged_name)
     = [invalid_name_format tagged_name; consecutive_hyphens tagged_name;
        xml_in_name tagged_name; directory_mismatch tagged_name (lit "my-skill")].
Proof.
  split.
  - apply (C2_independent_name_checks skill_tagged_name_in_directory); reflexivity.
  - apply (C2_independent_name_checks skill_tagged_name); [reflexivity | reflexivity |].
    vm_compute. discriminate.
Defined.

(** The reserved-word diagnostic is emitted exactly for the names with a
    reserved word. *)
Lemma reserved_word_diagnostic p nm :
  In (reserved_word nm) (check_name p nm) <-> has_reserved_word nm.
Proof.
  rewrite <- re_reserved_spec. unfold check_name. rewrite !in_app_iff, !In_when. split.
  - intros [[_ H] | [[_ H] | [[H _] | [[_ H] | [[_ H] | [_ H]]]]]];
      try exact H; apply (f_equal context) in H; vm_compute in H; discriminate.
  - intros H. right. right. left. now split.
Qed.

Lemma invalid_name_format_diagnostic p nm :
  In (invalid_name_format nm) (check_name p nm) <-> ~ kebab_case nm.
Proof.
  rewrite <- re_kebab_spec. unfold check_name. rewrite !in_app_iff, !In_when. split.
  - intros [[H _] | [[_ H] | [[_ H] | [[_ H] | [[_ H] | [_ H]]]]]];
      try (apply (f_equal context) in H; vm_compute in H; discriminate).
    apply negb_true_iff in H. congruence.
  - intros H. left. split; [|reflexivity].
    apply negb_true_iff. now destruct (test no_flags re_kebab nm).
Qed.

(** C7.  For a checked document whose name field is [claude-helper] the
    frontmatter rule emits the reserved-word diagnostic, although the name
    is in kebab case and gets no format diagnostic; in general the
    reserved-word diagnostic is emitted exactly for the names that contain
    [anthropic] or [claude], in any letter case, as a whole word. *)
Theorem C7_reserved_word (p : params) :
  checked p ->
  name_field (frontmatter_text (frontMatterLines_or_empty p)) = Some claude_helper ->
  In (reserved_word claude_helper) (skillFrontmatter p)
  /\ kebab_case claude_helper
  /\ ~ In (invalid_name_format claude_helper) (skillFrontmatter p)
  /\ (forall nm, In (reserved_word nm) (check_name p nm) <-> has_reserved_word nm).
Proof.
  intros Hp Hnm.
  assert (Hk : kebab_case claude_helper) by (apply re_kebab_spec; vm_compute; reflexivity).
  assert (Hr : has_reserved_word claude_helper)
    by (apply re_reserved_spec; vm_compute; reflexivity).
  split; [|split; [exact Hk | split; [|apply reserved_word_diagnostic]]].
  - assert (H : In (reserved_word claude_helper) (filter is_name_related (skillFrontmatter p))).
    { rewrite (name_related_diagnostics p claude_helper Hp Hnm).
      exact (proj2 (reserved_word_diagnostic p claude_helper) Hr). }
    now apply filter_In in H.
  - intros H.
    assert (H' : In (invalid_name_format claude_helper)
                   (filter is_name_related (skillFrontmatter p)))
      by (apply filter_In; split; [exact H | reflexivity]).
    rewrite (name_related_diagnostics p claude_helper Hp Hnm) in H'.
    apply (proj1 (invalid_name_format_diagnostic p claude_helper)) in H'. tauto.
Qed.

Lemma C7_reserved_word_witness :
  In (reserved_word claude_helper) (skillFrontmatter skill_claude_helper)
  /\ kebab_case claude_helper
  /\ ~ In (invalid_name_format claude_helper) (skillFrontmatter skill_claude_helper)
  /\ (forall nm, In (reserved_word nm) (check_name skill_claude_helper nm)
                 <-> has_reserved_word nm).
Proof. apply C7_reserved_word; reflexivity. Defined.

Lemma missing_name_not_in_check_name p nm : ~ In missing_name (check_name p nm).
Proof.
  unfold check_name. rewrite !in_app_iff, !In_when.
  intros [[_ H] | [[_ H] | [[_ H] | [[_ H] | [[_ H] | [_ H]]]]]];
    apply (f_equal context) in H; vm_compute in H; discriminate.
Qed.

(** C10.  Quote stripping removes one leading quote, if there is one, and
    then one trailing quote, if there is one, whether or not the two are
    the same character, and nothing else.  So for a name field that is a
    pair of quotes the name is the empty string, and the rule emits the
    kebab-case diagnostic, not [Missing name].  ([m] is the match of the
    name pattern, [group1 m] its capture, see [exec_group1].) *)
Theorem C10_quote_stripping (p : params) (m : jsstring * state) (a b : codeunit) :
  checked p ->
  exec flag_m re_name (frontmatter_text (frontMatterLines_or_empty p)) = Some m ->
  trim (group1 m) = [a; b] -> is_quote a = true -> is_quote b = true ->
  (forall s, strip_quotes s = drop_trailing_quote (drop_leading_quote s))
  /\ (forall c d body, is_quote c = true -> is_quote d = true ->
                       strip_quotes (c :: body ++ [d]) = body)
  /\ (forall s, length s - 2 <= length (strip_quotes s) <= length s)
  /\ name_field (frontmatter_text (frontMatterLines_or_empty p)) = Some []
  /\ In (invalid_name_format []) (skillFrontmatter p)
  /\ ~ In missing_name (skillFrontmatter p).
Proof.
  intros Hp Hm Ht Ha Hb.
  assert (Hnm : name_field (frontmatter_text (frontMatterLines_or_empty p)) = Some []).
  { unfold name_field. rewrite Hm. unfold unquote. rewrite Ht.
    exact (f_equal Some (strip_quotes_pair a b [] Ha Hb)). }
  pose proof (name_related_diagnostics p [] Hp Hnm) as Hds.
  split; [exact strip_quotes_spec|].
  split; [exact strip_quotes_pair|].
  split; [exact strip_quotes_length|].
  split; [exact Hnm|].
  split.
  - assert (H : In (invalid_name_format []) (filter is_name_related (skillFrontmatter p))).
    { rewrite Hds. apply (proj2 (invalid_name_format_diagnostic p [])).
      intros (c & t & H & _). discriminate. }
    now apply filter_In in H.
  - intros H.
    assert (H' : In missing_name (filter is_name_related (skillFrontmatter p)))
      by (apply filter_In; split; [exact H | reflexivity]).
    rewrite Hds in H'. now apply missing_name_not_in_check_name in H'.
Qed.

Lemma C10_quote_stripping_witness :
  (forall s, strip_quotes s = drop_trailing_quote (drop_leading_quote s))
  /\ (forall c d body, is_quote c = true -> is_quote d = true ->
                       strip_quotes (c :: body ++ [d]) = body)
  /\ (forall s, length s - 2 <= length (strip_quotes s) <= length s)
  /\ name_field (frontmatter_text (frontMatterLines_or_empty skill_empty_quoted_name)) = Some []
  /\ In (invalid_name_format []) (skillFrontmatter skill_empty_quoted_name)
  /\ ~ In missing_name (skillFrontmatter skill_empty_quoted_name).
Proof.
  destruct (exec flag_m re_name
              (frontmatter_text (frontMatterLines_or_empty skill_empty_quoted_name)))
    as [m|] eqn:E; [|vm_compute in E; discriminate].
  apply (C10_quote_stripping skill_empty_quoted_name m dquote dquote);
    try reflexivity; try exact E.
  vm_compute in E. injection E as <-. reflexivity.
Defined.

(** C8.  On the frontmatter [description: >], [  line one], [  line two],
    [name: x] the rule does not extract [line one line two] but only
    [line one]: with the [m] flag the [$] of the look-ahead holds at the end
    of the first continuation line, where the lazy group stops.  The
    description is then reported as too short. *)
Theorem C8_block_scalar_first_line_only :
  frontmatter_text block_scalar_lines
  = lit "description: >" ++ nl ++ lit "  line one" ++ nl ++ lit "  line two" ++ nl ++ lit "name: x"
  /\ block_scalar_spec block_scalar_following = lit "line one line two"
  /\ description_field (frontmatter_text block_scalar_lines) = Some (lit "line one")
  /\ skillFrontmatter skill_block_scalar = [description_too_short (lit "line one")]
  /\ detail (description_too_short (lit "line one"))
     = lit "Description should be at least 20 characters (current: 8)".
Proof. repeat split; vm_compute; reflexivity. Qed.

(** The same defect on a description that is long enough: only the first
    line counts, and the rule reports it as too short. *)
Lemma block_scalar_spurious_too_short :
  block_scalar_spec [lit "  Analyze tables"; lit "  for cost savings."]
  = lit "Analyze tables for cost savings."
  /\ skillFrontmatter skill_long_block_scalar
     = [description_too_short (lit "Analyze tables")].
Proof. split; vm_compute; reflexivity. Qed.

(** ** A document that satisfies every constraint *)

Lemma test_false_iff (b : bool) (P : Prop) : (b = true <-> P) -> ~ P -> b = false.
Proof. intros H HP. destruct b; [exfalso; apply HP, H; reflexivity | reflexivity]. Qed.

Lemma check_name_valid p nm :
  kebab_case nm -> length nm <= 64 -> ~ has_reserved_word nm ->
  ~ has_double_hyphen nm -> ~ has_xml_tag nm -> nm = dirName p ->
  check_name p nm = [].
Proof.
  intros Hk Hl Hr Hh Hx Hd. unfold check_name.
  rewrite (proj2 (re_kebab_spec nm) Hk).
  replace (64 <? length nm) with false by (symmetry; apply Nat.ltb_ge; exact Hl).
  rewrite (test_false_iff _ _ (re_reserved_spec nm) Hr).
  rewrite (test_false_iff _ _ (re_hyphens_spec nm) Hh).
  rewrite (test_false_iff _ _ (re_xml_spec nm) Hx).
  rewrite <- Hd, str_eqb_refl. reflexivity.
Qed.

Lemma check_description_valid d :
  20 <= length d <= 1024 -> ~ has_xml_tag d -> check_description d = [].
Proof.
  intros [Hlo Hhi] Hx. unfold check_description.
  replace (length d <? 20) with false by (symmetry; apply Nat.ltb_ge; exact Hlo).
  replace (1024 <? length d) with false by (symmetry; apply Nat.ltb_ge; exact Hhi).
  rewrite (test_false_iff _ _ (re_xml_spec d) Hx). reflexivity.
Qed.

Lemma soft_limits_below_hard_limits :
  WARNING_LINES <= MAX_LINES /\ WARNING_WORDS <= MAX_WORDS.
Proof. split; apply Nat.leb_le; vm_compute; reflexivity. Qed.

Lemma check_lines_under n : n <= WARNING_LINES -> check_lines n = [].
Proof.
  intros H. destruct soft_limits_below_hard_limits as [Hl _]. unfold check_lines.
  replace (MAX_LINES <? n) with false
    by (symmetry; apply Nat.ltb_ge; eapply Nat.le_trans; eassumption).
  replace (WARNING_LINES <? n) with false by (symmetry; apply Nat.ltb_ge; exact H).
  reflexivity.
Qed.

Lemma check_words_under n : n <= WARNING_WORDS -> check_words n = [].
Proof.
  intros H. destruct soft_limits_below_hard_limits as [_ Hw]. unfold check_words.
  replace (MAX_WORDS <? n) with false
    by (symmetry; apply Nat.ltb_ge; eapply Nat.le_trans; eassumption).
  replace (WARNING_WORDS <? n) with false by (symmetry; apply Nat.ltb_ge; exact H).
  reflexivity.
Qed.

(** On the values the rule extracts, the round trip holds: a checked
    document with frontmatter whose extracted name is in kebab case, has at
    most 64 characters, no reserved word, no consecutive hyphens and no XML
    tag and equals the name of the directory, whose extracted description
    has 20 to 1024 characters and no XML tag, and whose line and word
    counts are within the recommended limits gets no diagnostic from the
    length rule and none from the frontmatter rule. *)
Lemma valid_extracted_fields_no_diagnostics (p : params) (nm d : jsstring) :
  checked p ->
  frontMatterLines_or_empty p <> [] ->
  name_field (frontmatter_text (frontMatterLines_or_empty p)) = Some nm ->
  kebab_case nm -> length nm <= 64 ->
  ~ has_reserved_word nm -> ~ has_double_hyphen nm -> ~ has_xml_tag nm ->
  nm = dirName p ->
  description_field (frontmatter_text (frontMatterLines_or_empty p)) = Some d ->
  20 <= length d <= 1024 -> ~ has_xml_tag d ->
  totalLines p <= WARNING_LINES -> wordCount p <= WARNING_WORDS ->
  skillLength p ++ skillFrontmatter p = [].
Proof.
  intros Hp Hfm Hnm Hk Hl Hr Hh Hx Hdir Hd Hdl Hdx Hlines Hwords.
  rewrite (skillFrontmatter_checked p Hp Hfm).
  unfold name_errors, description_errors. rewrite Hnm, Hd.
  rewrite check_name_valid, check_description_valid by assumption.
  unfold skillLength. unfold checked in Hp. rewrite Hp. cbn [negb].
  now rewrite check_lines_under, check_words_under.
Qed.

(** The repository's own [optimize-dynamodb] skill, whose description is
    on the key's line, passes both rules. *)
Lemma optimize_dynamodb_no_diagnostics :
  skillLength optimize_dynamodb ++ skillFrontmatter optimize_dynamodb = [].
Proof.
  apply (valid_extracted_fields_no_diagnostics optimize_dynamodb
           (lit "optimize-dynamodb") optimize_dynamodb_description).
  - reflexivity.
  - discriminate.
  - vm_compute. reflexivity.
  - apply re_kebab_spec. vm_compute. reflexivity.
  - vm_compute. repeat constructor.
  - intros H. apply re_reserved_spec in H. vm_compute in H. discriminate.
  - intros H. apply re_hyphens_spec in H. vm_compute in H. discriminate.
  - intros H. apply re_xml_spec in H. vm_compute in H. discriminate.
  - vm_compute. reflexivity.
  - vm_compute. reflexivity.
  - split; apply Nat.leb_le; vm_compute; reflexivity.
  - intros H. apply re_xml_spec in H. vm_compute in H. discriminate.
  - apply Nat.leb_le. vm_compute. reflexivity.
  - apply Nat.leb_le. vm_compute. reflexivity.
Qed.

(** C1.  The round trip fails on a valid document whose description is a
    block scalar.  The document [skills/x/SKILL.md] with the frontmatter
    [name: x], [description: >], [  Analyze tables], [  for cost savings.]
    satisfies every constraint: its name [x] is in kebab case, has at most
    64 characters, no reserved word, no consecutive hyphens and no XML tag
    and is the name of the directory; its description, the continuation
    lines joined with single spaces, is [Analyze tables for cost savings.],
    32 characters without a tag; its line and word counts are within the
    recommended limits.  The length rule is silent, but the frontmatter
    rule keeps only the first continuation line (the defect of C8) and
    reports [Description too short] with the length 14. *)
Theorem C1_valid_block_scalar_document_reported :
  checked skill_long_block_scalar
  /\ frontMatterLines_or_empty skill_long_block_scalar
     = [delimiter; lit "name: x"; block_marker_line]
       ++ long_block_scalar_following ++ [delimiter]
  /\ name_field (frontmatter_text (frontMatterLines_or_empty skill_long_block_scalar))
     = Some (lit "x")
  /\ kebab_case (lit "x") /\ length (lit "x") <= 64
  /\ ~ has_reserved_word (lit "x") /\ ~ has_double_hyphen (lit "x")
  /\ ~ has_xml_tag (lit "x")
  /\ lit "x" = dirName skill_long_block_scalar
  /\ block_scalar_spec long_block_scalar_following = lit "Analyze tables for cost savings."
  /\ 20 <= length (block_scalar_spec long_block_scalar_following) <= 1024
  /\ ~ has_xml_tag (block_scalar_spec long_block_scalar_following)
  /\ totalLines skill_long_block_scalar <= WARNING_LINES
  /\ wordCount skill_long_block_scalar <= WARNING_WORDS
  /\ skillLength skill_long_block_scalar = []
  /\ skillFrontmatter skill_long_block_scalar
     = [description_too_short (lit "Analyze tables")]
  /\ detail (description_too_short (lit "Analyze tables"))
     = lit "Description should be at least 20 characters (current: 14)".
Proof.
  split; [reflexivity|]. split; [reflexivity|]. split; [vm_compute; reflexivity|].
  split; [apply re_kebab_spec; vm_compute; reflexivity|].
  split; [vm_compute; repeat constructor|].
  split; [intros H; apply re_reserved_spec in H; vm_compute in H; discriminate|].
  split; [intros H; apply re_hyphens_spec in H; vm_compute in H; discriminate|].
  split; [intros H; apply re_xml_spec in H; vm_compute in H; discriminate|].
  split; [vm_compute; reflexivity|]. split; [vm_compute; reflexivity|].
  split; [split; apply Nat.leb_le; vm_compute; reflexivity|].
  split; [intros H; apply re_xml_spec in H; vm_compute in H; discriminate|].
  split; [apply Nat.leb_le; vm_compute; reflexivity|].
  split; [apply Nat.leb_le; vm_compute; reflexivity|].
  split; [vm_compute; reflexivity|]. split; vm_compute; reflexivity.
Qed.

(** ** The block marker [description: >] *)

Lemma join_In : forall ls d,
  In d ls ->
  exists A B, join nl ls = A ++ d ++ B
    /\ (prev_of None A = None \/ prev_of None A = Some 10%N)
    /\ (B = [] \/ exists B', B = 10%N :: B').
Proof.
  induction ls as [|l ls IH]; intros d Hin; [destruct Hin|].
  destruct Hin as [-> | Hin].
  - exists [], (match ls with [] => [] | _ => nl ++ join nl ls end).
    split; [|split].
    + destruct ls; cbn [join app]; [now rewrite app_nil_r | reflexivity].
    + now left.
    + destruct ls; [now left | right; eexists; reflexivity].
  - destruct (IH d Hin) as (A & B & HA & Hp & HB).
    exists (l ++ nl ++ A), B. split; [|split; [right | exact HB]].
    + destruct ls as [|l' ls']; [destruct Hin|].
      change (join nl (l :: l' :: ls')) with (l ++ nl ++ join nl (l' :: ls')).
      rewrite HA. now rewrite <- !app_assoc.
    + rewrite app_assoc, prev_of_app, prev_of_app. cbn [nl prev_of].
      rewrite prev_of_last. rewrite prev_of_last in Hp.
      destruct (last_char A); [destruct Hp as [Hp | Hp]; congruence | reflexivity].
Qed.

Lemma block_marker_single_line_here p' B :
  p' = None \/ p' = Some 10%N ->
  B = [] \/ (exists B', B = 10%N :: B') ->
  is_match (match_here flag_m re_description p' (block_marker_line ++ B)) = true.
Proof.
  intros Hp HB.
  assert (Hbol : at_bol flag_m (mk p' (block_marker_line ++ B) []) = true)
    by (destruct Hp as [-> | ->]; reflexivity).
  assert (Heol : forall y, rest y = B -> at_eol flag_m y = true)
    by (intros y Hy; unfold at_eol; rewrite Hy; destruct HB as [-> | [B' ->]]; reflexivity).
  assert (Hdot : forall k q cs,
             matcher flag_m (Repeat 0 true Dot) k (mk q B cs) = k (mk q B cs)).
  { intros k q cs. rewrite star_char with (P := fun c => negb (isLineTerminator c)) by reflexivity.
    cbv zeta. destruct HB as [-> | [B' ->]]; reflexivity. }
  unfold match_here.
  change re_description with
    (Seq Bol (Seq (cat (map Chr description_key))
       (Seq (Star Space) (Seq (Group 1 (Plus Dot)) Eol)))).
  fold (mk p' (block_marker_line ++ B) []).
  do 2 mstep. rewrite Hbol. mstep. rewrite str_here.
  replace (lit_prefix flag_m description_key (block_marker_line ++ B)) with true by reflexivity.
  change (skipn (length description_key) (block_marker_line ++ B))
    with (32%N :: 62%N :: B).
  mstep. unfold Star, Space.
  rewrite star_char with (P := in_class false [CSpace]) by reflexivity. cbv zeta.
  change (in_class false [CSpace] 32%N) with true. cbv iota.
  rewrite star_char with (P := in_class false [CSpace]) by reflexivity. cbv zeta.
  change (in_class false [CSpace] 62%N) with false. cbv iota. cbn [orelse].
  do 2 mstep. unfold Plus. rewrite matcher_Group. cbv beta.
  rewrite plus_char with (P := fun c => negb (isLineTerminator c)) by reflexivity.
  change (negb (isLineTerminator 62%N)) with true. cbv iota.
  rewrite Hdot. mstep. rewrite Heol by reflexivity. reflexivity.
Qed.

Lemma description_field_present fm :
  test flag_m re_description fm = true -> exists d, description_field fm = Some d.
Proof.
  unfold test, description_field. destruct (exec flag_m re_description fm); [|discriminate].
  intros _. destruct (exec flag_m re_description_multiline fm); eexists; reflexivity.
Qed.

Lemma block_marker_description_present fml :
  In block_marker_line fml -> exists d, description_field (frontmatter_text fml) = Some d.
Proof.
  intros Hin. apply description_field_present, test_is_match.
  assert (Hf : In block_marker_line
                 (filter (fun line => negb (str_eqb line (lit "---"))) fml))
    by (apply filter_In; split; [exact Hin | reflexivity]).
  destruct (join_In _ _ Hf) as (A & B & HA & Hp & HB).
  exists A, (block_marker_line ++ B). split; [exact HA|].
  now apply block_marker_single_line_here.
Qed.

Lemma missing_description_not_in_check_description d :
  ~ In missing_description (check_description d).
Proof.
  unfold check_description. rewrite !in_app_iff, !In_when.
  intros [[_ H] | [[_ H] | [_ H]]];
    apply (f_equal context) in H; vm_compute in H; discriminate.
Qed.

Lemma In_name_errors_related p fm e : In e (name_errors p fm) -> is_name_related e = true.
Proof.
  intros H. rewrite <- name_errors_related in H. now apply filter_In in H.
Qed.

Lemma text_marker_then_delimiters ls post :
  Forall (eq delimiter) post ->
  frontmatter_text (ls ++ block_marker_line :: post)
  = join nl (filter (fun line => negb (str_eqb line (lit "---"))) ls ++ [block_marker_line]).
Proof.
  intros Hpost. unfold frontmatter_text. rewrite filter_app. cbn [filter].
  change (str_eqb block_marker_line (lit "---")) with false. cbn [negb].
  replace (filter (fun line => negb (str_eqb line (lit "---"))) post) with (@nil jsstring);
    [reflexivity|].
  induction Hpost as [|l post <- _ IH]; [reflexivity|].
  cbn [filter]. change (str_eqb delimiter (lit "---")) with true. exact IH.
Qed.

(** C9, as stated: a [description: >] line that no continuation line
    follows always gives a [too short] diagnostic of length 1.  When a
    top-level key follows, the block-scalar pattern takes that line for the
    description: here it is long enough, and nothing is reported. *)
Lemma C9_counterexample :
  ~ (forall p : params,
        checked p ->
        (exists pre post,
            frontMatterLines_or_empty p = pre ++ block_marker_line :: post
            /\ match post with l :: _ => indented l = false | [] => True end) ->
        ~ In missing_description (skillFrontmatter p)
        /\ In (description_too_short (lit ">")) (skillFrontmatter p)).
Proof.
  intros H. destruct (H skill_marker_then_key) as [_ Hin].
  - reflexivity.
  - exists [lit "---"; lit "name: my-skill"], [lit "license: Apache-2.0 and more"; lit "---"].
    split; reflexivity.
  - vm_compute in Hin. exact Hin.
Qed.

(** C9, amended.  A checked document whose frontmatter has a line
    [description: >] never gets [Missing description].  When no entry
    other than [---] delimiters follows that line in the frontmatter
    lines, and no line before it (each in one piece) starts with
    [description:], the single-line pattern gives the value [>], and the
    rule emits [Description too short] with the length 1. *)
Theorem C9_block_marker_without_lines (p : params) (ls post : list jsstring) :
  checked p ->
  In block_marker_line (frontMatterLines_or_empty p) ->
  ~ In missing_description (skillFrontmatter p)
  /\ (frontMatterLines_or_empty p = ls ++ block_marker_line :: post ->
      Forall (other_line description_key) ls ->
      Forall (eq delimiter) post ->
      description_field (frontmatter_text (frontMatterLines_or_empty p)) = Some (lit ">")
      /\ In (description_too_short (lit ">")) (skillFrontmatter p)
      /\ detail (description_too_short (lit ">"))
         = lit "Description should be at least 20 characters (current: 1)").
Proof.
  intros Hp Hin.
  assert (Hne : frontMatterLines_or_empty p <> []) by (intros E; rewrite E in Hin; destruct Hin).
  rewrite (skillFrontmatter_checked p Hp Hne). split.
  - destruct (block_marker_description_present _ Hin) as [d Hd].
    unfold description_errors. rewrite Hd. rewrite in_app_iff. intros [H | H].
    + apply In_name_errors_related in H. discriminate.
    + now apply missing_description_not_in_check_description in H.
  - intros Hfm Hls Hpost.
    assert (Hd : description_field (frontmatter_text (frontMatterLines_or_empty p))
                 = Some (lit ">")).
    { rewrite Hfm, (text_marker_then_delimiters ls post Hpost).
      apply description_field_marker_last.
      apply Forall_forall. intros l Hl. apply filter_In in Hl.
      eapply Forall_forall in Hls; [exact Hls | tauto]. }
    split; [exact Hd|]. split; [|reflexivity].
    unfold description_errors. rewrite Hd. apply in_or_app. right. now left.
Qed.

Lemma C9_block_marker_without_lines_witness :
  ~ In missing_description (skillFrontmatter skill_marker_last)
  /\ description_field (frontmatter_text (frontMatterLines_or_empty skill_marker_last))
     = Some (lit ">")
  /\ In (description_too_short (lit ">")) (skillFrontmatter skill_marker_last).
Proof.
  destruct (C9_block_marker_without_lines skill_marker_last
              [delimiter; lit "name: my-skill"; lit "license: Apache-2.0"] [delimiter])
    as [H1 H2].
  - reflexivity.
  - vm_compute. tauto.
  - destruct H2 as (H2 & H3 & _).
    + reflexivity.
    + repeat constructor; intros [t Ht]; discriminate.
    + repeat constructor.
    + split; [exact H1 | split; [exact H2 | exact H3]].
Defined.

End Claims.

(** * Further properties of the rules *)

Module Properties.
Import JS Regex Patterns Rules Spec Examples Notions Facts Claims.

(** Lines that do not start with a key, on concrete lines. *)
Ltac other_line_here :=
  split; [reflexivity | intros [t Ht]; vm_compute in Ht; discriminate Ht].

Ltac other_lines_here := repeat (constructor; [other_line_here|]); try constructor.

(** ** The length rule *)

Lemma skillLength_checked p :
  checked p -> skillLength p = check_lines (totalLines p) ++ check_words (wordCount p).
Proof. unfold checked, skillLength. now intros ->. Qed.

Lemma check_lines_nil n : check_lines n = [] <-> n <= WARNING_LINES.
Proof.
  unfold check_lines. destruct (MAX_LINES <? n) eqn:E1.
  - split; [discriminate|]. intros H. apply Nat.ltb_lt in E1.
    assert (WARNING_LINES <= MAX_LINES) by (apply Nat.leb_le; reflexivity). lia.
  - destruct (WARNING_LINES <? n) eqn:E2.
    + split; [discriminate|]. apply Nat.ltb_lt in E2. lia.
    + apply Nat.ltb_ge in E2. tauto.
Qed.

Lemma check_words_nil n : check_words n = [] <-> n <= WARNING_WORDS.
Proof.
  unfold check_words. destruct (MAX_WORDS <? n) eqn:E1.
  - split; [discriminate|]. intros H. apply Nat.ltb_lt in E1.
    assert (WARNING_WORDS <= MAX_WORDS) by (apply Nat.leb_le; vm_compute; reflexivity). lia.
  - destruct (WARNING_WORDS <? n) eqn:E2.
    + split; [discriminate|]. apply Nat.ltb_lt in E2. lia.
    + apply Nat.ltb_ge in E2. tauto.
Qed.

(** X1.  For a checked document the length rule is silent exactly when
    the line count (frontmatter lines included) is at most [WARNING_LINES]
    and the word count of the body is at most [WARNING_WORDS]. *)
Theorem X1_length_rule_silent_iff (p : params) :
  checked p ->
  (skillLength p = [] <-> totalLines p <= WARNING_LINES /\ wordCount p <= WARNING_WORDS).
Proof.
  intros Hp. rewrite (skillLength_checked p Hp). split.
  - intros H. apply app_eq_nil in H. destruct H as [Hl Hw].
    split; [now apply check_lines_nil | now apply check_words_nil].
  - intros [Hl Hw]. apply check_lines_nil in Hl. apply check_words_nil in Hw.
    now rewrite Hl, Hw.
Qed.

Lemma X1_length_rule_silent_iff_witness :
  skillLength optimize_dynamodb = []
  <-> totalLines optimize_dynamodb <= WARNING_LINES
      /\ wordCount optimize_dynamodb <= WARNING_WORDS.
Proof. apply X1_length_rule_silent_iff. reflexivity. Defined.

Lemma is_warning_words_warning n : is_warning (words_warning n) = true.
Proof.
  unfold is_warning, words_warning, context.
  change (lit " words (warning)") with (lit " words " ++ lit "(warning)").
  rewrite app_assoc. apply endsWith_app.
Qed.

Lemma is_warning_words_error n : is_warning (words_error n) = false.
Proof.
  unfold is_warning, words_error, context.
  change (lit " words") with (lit " word" ++ [ch "s"]).
  change (lit "(warning)") with (lit "(warning" ++ [ch ")"]).
  rewrite app_assoc. apply endsWith_last. discriminate.
Qed.

(** X2.  The word-count check of a checked document: above [MAX_WORDS]
    words the only word-count diagnostic is the error, above
    [WARNING_WORDS] and up to [MAX_WORDS] it is the recommendation, and up
    to [WARNING_WORDS] there is none; the line count plays no part. *)
Theorem X2_word_count_thresholds (p : params) :
  checked p ->
  let ds := filter is_word_count (skillLength p) in
  (MAX_WORDS < wordCount p -> ds = [words_error (wordCount p)])
  /\ (WARNING_WORDS < wordCount p <= MAX_WORDS -> ds = [words_warning (wordCount p)])
  /\ (wordCount p <= WARNING_WORDS -> ds = [])
  /\ is_warning (words_error (wordCount p)) = false
  /\ is_warning (words_warning (wordCount p)) = true.
Proof.
  intros Hp ds. subst ds. rewrite (skillLength_checked p Hp), filter_app.
  assert (Hl : filter is_word_count (check_lines (totalLines p)) = []).
  { unfold check_lines. destruct (MAX_LINES <? totalLines p); [reflexivity|].
    destruct (WARNING_LINES <? totalLines p); reflexivity. }
  rewrite Hl. cbn [app]. unfold check_words.
  split; [|split; [|split; [|split]]].
  - intros H. apply Nat.ltb_lt in H. now rewrite H.
  - intros [H1 H2]. apply Nat.ltb_lt in H1. apply Nat.ltb_ge in H2. now rewrite H2, H1.
  - intros H. change (check_words (wordCount p)) with (check_words (wordCount p)).
    pose proof (proj2 (check_words_nil (wordCount p)) H) as Hn.
    unfold check_words in Hn. now rewrite Hn.
  - apply is_warning_words_error.
  - apply is_warning_words_warning.
Qed.

Lemma X2_word_count_thresholds_witness :
  filter is_word_count (skillLength optimize_dynamodb) = [].
Proof.
  apply (X2_word_count_thresholds optimize_dynamodb).
  - reflexivity.
  - apply Nat.leb_le. vm_compute. reflexivity.
Defined.

(** X3.  The length rule emits at most two diagnostics, all at line 1: at
    most one on the line count, followed by at most one on the word
    count. *)
Theorem X3_length_rule_shape (p : params) :
  length (skillLength p) <= 2
  /\ length (filter is_line_count (skillLength p)) <= 1
  /\ length (filter is_word_count (skillLength p)) <= 1
  /\ (forall e, In e (skillLength p) -> lineNumber e = 1)
  /\ skillLength p
     = filter is_line_count (skillLength p) ++ filter is_word_count (skillLength p).
Proof.
  unfold skillLength. destruct (negb (endsWith (name p) (lit "SKILL.md"))).
  - repeat split; simpl; try lia; try (intros e []).
  - unfold check_lines, check_words.
    destruct (MAX_LINES <? totalLines p); [|destruct (WARNING_LINES <? totalLines p)];
    (destruct (MAX_WORDS <? wordCount p); [|destruct (WARNING_WORDS <? wordCount p)]);
    (split; [simpl; lia|]); (split; [simpl; lia|]); (split; [simpl; lia|]);
    (split; [|reflexivity]); cbn [app In]; intros e H;
    repeat (destruct H as [<- | H]; [reflexivity|]); destruct H.
Qed.

(** ** The word count *)

Lemma count_words_app_space : forall s b c t,
  isSpace c = true ->
  count_words b (s ++ c :: t) = count_words b s + count_words false t.
Proof.
  induction s as [|a s IH]; intros b c t Hc; cbn [app count_words].
  - now rewrite Hc.
  - destruct (isSpace a); rewrite IH by exact Hc; lia.
Qed.

Lemma count_words_join ls :
  count_words false (join nl ls) = list_sum (map (count_words false) ls).
Proof.
  induction ls as [|l ls IH]; [reflexivity|].
  destruct ls as [|l' ls'].
  - cbn [join map]. unfold list_sum. cbn [fold_right]. lia.
  - change (join nl (l :: l' :: ls')) with (l ++ 10%N :: join nl (l' :: ls')).
    rewrite count_words_app_space by reflexivity. rewrite IH. reflexivity.
Qed.

(** X4.  The word count of the length rule is the number of maximal runs
    of characters other than white space in the body, and it is the sum of
    the word counts of the body lines: no word spans two lines, and empty
    or blank lines count for nothing. *)
Theorem X4_word_count (p : params) :
  wordCount p = count_words false (join nl (lines p))
  /\ wordCount p = list_sum (map (count_words false) (lines p)).
Proof.
  split; [apply wordCount_spec|]. rewrite wordCount_spec. apply count_words_join.
Qed.

(** ** The checks on the name *)

Ltac name_check_cases H :=
  unfold check_name; rewrite !in_app_iff, !In_when; split;
  [ intros [[? H] | [[? H] | [[? H] | [[? H] | [[? H] | [? H]]]]]];
    try (apply (f_equal context) in H; vm_compute in H; discriminate)
  | ].

Lemma name_too_long_diagnostic p nm :
  In (name_too_long nm) (check_name p nm) <-> 64 < length nm.
Proof.
  name_check_cases H.
  - now apply Nat.ltb_lt.
  - intros H. right. left. split; [now apply Nat.ltb_lt | reflexivity].
Qed.

Lemma consecutive_hyphens_diagnostic p nm :
  In (consecutive_hyphens nm) (check_name p nm) <-> has_double_hyphen nm.
Proof.
  rewrite <- re_hyphens_spec. name_check_cases H.
  - assumption.
  - intros H. do 3 right. left. now split.
Qed.

Lemma xml_in_name_diagnostic p nm :
  In (xml_in_name nm) (check_name p nm) <-> has_xml_tag nm.
Proof.
  rewrite <- re_xml_spec. name_check_cases H.
  - assumption.
  - intros H. do 4 right. left. now split.
Qed.

Lemma directory_mismatch_diagnostic p nm :
  In (directory_mismatch nm (dirName p)) (check_name p nm) <-> nm <> dirName p.
Proof.
  name_check_cases H.
  - apply str_eqb_neq. now apply negb_true_iff.
  - intros H. do 5 right. split; [|reflexivity].
    apply negb_true_iff. now apply str_eqb_neq.
Qed.

(** X5.  The six checks on the name decide independently: each diagnostic
    is emitted exactly when its own condition holds, whatever the other
    checks find. *)
Theorem X5_name_checks_independent (p : params) (nm : jsstring) :
  (In (invalid_name_format nm) (check_name p nm) <-> ~ kebab_case nm)
  /\ (In (name_too_long nm) (check_name p nm) <-> 64 < length nm)
  /\ (In (reserved_word nm) (check_name p nm) <-> has_reserved_word nm)
  /\ (In (consecutive_hyphens nm) (check_name p nm) <-> has_double_hyphen nm)
  /\ (In (xml_in_name nm) (check_name p nm) <-> has_xml_tag nm)
  /\ (In (directory_mismatch nm (dirName p)) (check_name p nm) <-> nm <> dirName p).
Proof.
  split; [apply invalid_name_format_diagnostic|].
  split; [apply name_too_long_diagnostic|].
  split; [apply reserved_word_diagnostic|].
  split; [apply consecutive_hyphens_diagnostic|].
  split; [apply xml_in_name_diagnostic | apply directory_mismatch_diagnostic].
Qed.

Lemma kebab_case_chars nm : kebab_case nm -> Forall (fun a => kebab_char a = true) nm.
Proof.
  intros (c & t & -> & Hc & Ht). constructor; [|exact Ht].
  unfold kebab_char. now rewrite Hc.
Qed.

Lemma kebab_case_no_xml_tag nm : kebab_case nm -> ~ has_xml_tag nm.
Proof.
  intros Hk (a & b & c & -> & _). apply kebab_case_chars in Hk.
  rewrite Forall_forall in Hk. specialize (Hk lt_sign).
  assert (In lt_sign (a ++ lt_sign :: b ++ gt_sign :: c))
    by (apply in_or_app; right; now left).
  specialize (Hk H). discriminate.
Qed.

(** X6.  The XML-tag diagnostic on a name never comes alone: a name with
    a tag is not in kebab case, so the format diagnostic is emitted as
    well (and before it). *)
Theorem X6_xml_tag_implies_format (p : params) (nm : jsstring) :
  In (xml_in_name nm) (check_name p nm) ->
  exists rest, check_name p nm = invalid_name_format nm :: rest.
Proof.
  intros H. apply xml_in_name_diagnostic in H.
  assert (Hk : test no_flags re_kebab nm = false).
  { apply (test_false_iff _ _ (re_kebab_spec nm)). intros Hk.
    now apply (kebab_case_no_xml_tag nm). }
  unfold check_name. rewrite Hk. cbn [negb when app]. eexists. reflexivity.
Qed.

Lemma X6_xml_tag_implies_format_witness :
  exists rest, check_name skill_tagged_name tagged_name
               = invalid_name_format tagged_name :: rest.
Proof.
  apply X6_xml_tag_implies_format. apply xml_in_name_diagnostic.
  apply re_xml_spec. vm_compute. reflexivity.
Defined.

Lemma check_name_nil p nm :
  check_name p nm = [] <->
  kebab_case nm /\ length nm <= 64 /\ ~ has_reserved_word nm
  /\ ~ has_double_hyphen nm /\ nm = dirName p.
Proof.
  split.
  - intros H.
    assert (Hno : forall e, ~ In e (check_name p nm)) by (rewrite H; intros e []).
    split; [|split; [|split; [|split]]].
    + destruct (test no_flags re_kebab nm) eqn:E; [now apply re_kebab_spec|].
      exfalso. apply (Hno (invalid_name_format nm)).
      apply invalid_name_format_diagnostic. rewrite <- re_kebab_spec. congruence.
    + apply Nat.nlt_ge. intros Hl. apply (Hno (name_too_long nm)).
      now apply name_too_long_diagnostic.
    + intros Hr. apply (Hno (reserved_word nm)). now apply reserved_word_diagnostic.
    + intros Hh. apply (Hno (consecutive_hyphens nm)).
      now apply consecutive_hyphens_diagnostic.
    + destruct (str_eqb nm (dirName p)) eqn:E; [now apply str_eqb_eq|].
      exfalso. apply (Hno (directory_mismatch nm (dirName p))).
      apply directory_mismatch_diagnostic. now apply str_eqb_neq.
  - intros (Hk & Hl & Hr & Hh & Hd).
    apply check_name_valid; auto using kebab_case_no_xml_tag.
Qed.

Lemma check_description_nil d :
  check_description d = [] <-> 20 <= length d <= 1024 /\ ~ has_xml_tag d.
Proof.
  split.
  - unfold check_description. intros H.
    apply app_eq_nil in H. destruct H as [H1 H].
    apply app_eq_nil in H. destruct H as [H2 H3].
    destruct (length d <? 20) eqn:E1; [discriminate|].
    destruct (1024 <? length d) eqn:E2; [discriminate|].
    destruct (test no_flags re_xml d) eqn:E3; [discriminate|].
    apply Nat.ltb_ge in E1, E2. split; [lia|].
    rewrite <- re_xml_spec. congruence.
  - intros [Hl Hx]. now apply check_description_valid.
Qed.

(** X7.  For a checked document the frontmatter rule is silent exactly
    when there are frontmatter lines, the name it reads is in kebab case,
    has at most 64 characters, no reserved word and no consecutive
    hyphens and is the name of the directory, and the description it
    reads has 20 to 1024 characters and no XML tag. *)
Theorem X7_frontmatter_rule_silent_iff (p : params) :
  checked p ->
  (skillFrontmatter p = [] <->
   frontMatterLines_or_empty p <> []
   /\ exists nm d,
       name_field (frontmatter_text (frontMatterLines_or_empty p)) = Some nm
       /\ kebab_case nm /\ length nm <= 64 /\ ~ has_reserved_word nm
       /\ ~ has_double_hyphen nm /\ nm = dirName p
       /\ description_field (frontmatter_text (frontMatterLines_or_empty p)) = Some d
       /\ 20 <= length d <= 1024 /\ ~ has_xml_tag d).
Proof.
  intros Hp. split.
  - intros H.
    assert (Hne : frontMatterLines_or_empty p <> []).
    { intros E. unfold skillFrontmatter in H. unfold checked in Hp.
      rewrite Hp, E in H. discriminate. }
    split; [exact Hne|].
    rewrite (skillFrontmatter_checked p Hp Hne) in H.
    apply app_eq_nil in H. destruct H as [Hn Hd].
    unfold name_errors in Hn. unfold description_errors in Hd.
    destruct (name_field _) as [nm|]; [|discriminate].
    destruct (description_field _) as [d|]; [|discriminate].
    apply check_name_nil in Hn. apply check_description_nil in Hd.
    exists nm, d. tauto.
  - intros (Hne & nm & d & Hnm & Hk & Hl & Hr & Hh & Hdir & Hd & Hdl & Hdx).
    rewrite (skillFrontmatter_checked p Hp Hne).
    unfold name_errors, description_errors. rewrite Hnm, Hd.
    rewrite (proj2 (check_name_nil p nm)) by tauto.
    now rewrite (proj2 (check_description_nil d)).
Qed.

Lemma X7_frontmatter_rule_silent_iff_witness :
  skillFrontmatter optimize_dynamodb = [] <->
  frontMatterLines_or_empty optimize_dynamodb <> []
  /\ exists nm d,
      name_field (frontmatter_text (frontMatterLines_or_empty optimize_dynamodb)) = Some nm
      /\ kebab_case nm /\ length nm <= 64 /\ ~ has_reserved_word nm
      /\ ~ has_double_hyphen nm /\ nm = dirName optimize_dynamodb
      /\ description_field (frontmatter_text (frontMatterLines_or_empty optimize_dynamodb))
         = Some d
      /\ 20 <= length d <= 1024 /\ ~ has_xml_tag d.
Proof. apply X7_frontmatter_rule_silent_iff. reflexivity. Defined.

(** X8.  When the directory of the document has no kebab-case name, no
    name passes the six checks: a document given by its bare file name
    [SKILL.md] (directory [.]) always gets a diagnostic on its name. *)
Theorem X8_directory_must_be_kebab_case (p : params) (nm : jsstring) :
  ~ kebab_case (dirName p) -> check_name p nm <> [].
Proof.
  intros Hd H. apply check_name_nil in H. destruct H as (Hk & _ & _ & _ & ->).
  now apply Hd.
Qed.

Lemma X8_directory_must_be_kebab_case_witness :
  dirName skill_bare_file_name = lit "."
  /\ check_name skill_bare_file_name (lit "my-skill") <> [].
Proof.
  split; [reflexivity|].
  apply X8_directory_must_be_kebab_case.
  intros H. apply re_kebab_spec in H. vm_compute in H. discriminate.
Defined.

(** X9.  The frontmatter rule emits at most eight diagnostics: up to six
    on the name, then up to two on the description (too short and too long
    exclude each other).  All of them are reported at line 2, wherever the
    field is in the file; only [Missing frontmatter] is reported at
    line 1. *)
Theorem X9_frontmatter_rule_shape (p : params) :
  length (skillFrontmatter p) <= 8
  /\ (forall e, In e (skillFrontmatter p) -> e = missing_frontmatter \/ lineNumber e = 2)
  /\ (forall d, ~ (In (description_too_short d) (check_description d)
                   /\ In (description_too_long d) (check_description d))).
Proof.
  assert (Hn : forall nm, length (check_name p nm) <= 6
                          /\ forall e, In e (check_name p nm) -> lineNumber e = 2).
  { intros nm. unfold check_name.
    repeat match goal with
    | |- context [when ?c ?e] => destruct c; cbn [when]
    end; (split; [simpl; lia|]); cbn [app In]; intros e H;
    repeat (destruct H as [<- | H]; [reflexivity|]); destruct H. }
  assert (Hd : forall d, length (check_description d) <= 2
                         /\ forall e, In e (check_description d) -> lineNumber e = 2).
  { intros d. unfold check_description.
    destruct (length d <? 20) eqn:E1; destruct (1024 <? length d) eqn:E2;
      [apply Nat.ltb_lt in E1, E2; lia | | |];
      destruct (test no_flags re_xml d); cbn [when app];
      (split; [simpl; lia|]); cbn [In]; intros e H;
      repeat (destruct H as [<- | H]; [reflexivity|]); destruct H. }
  split; [|split].
  - unfold skillFrontmatter. destruct (negb _); [simpl; lia|].
    destruct (length (frontMatterLines_or_empty p) =? 0); [simpl; lia|].
    cbv zeta. rewrite length_app. unfold name_errors, description_errors.
    destruct (name_field _) as [nm|]; destruct (description_field _) as [d|];
      try pose proof (proj1 (Hn nm)); try pose proof (proj1 (Hd d)); simpl; lia.
  - unfold skillFrontmatter. destruct (negb _); [intros e []|].
    destruct (length (frontMatterLines_or_empty p) =? 0).
    + intros e [<- | []]. now left.
    + cbv zeta. intros e H. right. apply in_app_or in H.
      unfold name_errors, description_errors in H.
      destruct H as [H | H].
      * destruct (name_field _) as [nm|]; [now apply (Hn nm) | now destruct H as [<- | []]].
      * destruct (description_field _) as [d|]; [now apply (Hd d) | now destruct H as [<- | []]].
  - intros d [H1 H2]. unfold check_description in H1, H2.
    rewrite !in_app_iff, !In_when in H1, H2.
    assert (E1 : (length d <? 20) = true).
    { destruct H1 as [[E _] | [[_ H] | [_ H]]]; [exact E | |];
        apply (f_equal context) in H; vm_compute in H; discriminate. }
    assert (E2 : (1024 <? length d) = true).
    { destruct H2 as [[_ H] | [[E _] | [_ H]]]; [| exact E |];
        apply (f_equal context) in H; vm_compute in H; discriminate. }
    apply Nat.ltb_lt in E1, E2. lia.
Qed.

(** ** The directory of the document *)

Lemma dirname_end_run r : forall g,
  ~ In Path.slash g ->
  Path.dirname_end (g ++ Path.slash :: r) false = Some (S (length r)).
Proof.
  induction g as [|c g IH]; intros Hg; cbn [app Path.dirname_end].
  - rewrite N.eqb_refl. reflexivity.
  - replace (c =? Path.slash)%N with false
      by (symmetry; apply N.eqb_neq; intros ->; apply Hg; now left).
    apply IH. intros H. apply Hg. now right.
Qed.

Lemma dirname_end_file r g :
  g <> [] -> ~ In Path.slash g ->
  Path.dirname_end (g ++ Path.slash :: r) true = Some (S (length r)).
Proof.
  intros Hne Hg. destruct g as [|c g]; [congruence|]. cbn [app Path.dirname_end].
  replace (c =? Path.slash)%N with false
    by (symmetry; apply N.eqb_neq; intros ->; apply Hg; now left).
  apply dirname_end_run. intros H. apply Hg. now right.
Qed.

Lemma dirname_of_file P f :
  P <> [] -> f <> [] -> ~ In Path.slash f ->
  (length P = 1 -> hd_error P <> Some Path.slash) ->
  Path.dirname (P ++ Path.slash :: f) = P.
Proof.
  intros HP Hf Hs H1. destruct P as [|c0 t]; [congruence|].
  cbn [app]. unfold Path.dirname.
  rewrite rev_app_distr. cbn [rev]. rewrite <- app_assoc. cbn [app].
  rewrite dirname_end_file.
  - rewrite length_rev.
    destruct ((c0 =? Path.slash)%N && (S (length t) =? 1)) eqn:E.
    + apply andb_true_iff in E. destruct E as [E1 E2].
      apply N.eqb_eq in E1. apply Nat.eqb_eq in E2. subst c0.
      exfalso. apply H1; [simpl; lia | reflexivity].
    + change (c0 :: t ++ Path.slash :: f) with ((c0 :: t) ++ Path.slash :: f).
      replace (S (length t)) with (length (c0 :: t) + 0) by (simpl; lia).
      rewrite firstn_app_2. cbn [firstn]. apply app_nil_r.
  - intros E. apply (f_equal (@rev _)) in E. rewrite rev_involutive in E. now subst.
  - intros H. apply Hs. now apply in_rev.
Qed.

Lemma basename_scan_run r : forall g acc,
  ~ In Path.slash g ->
  Path.basename_scan (g ++ r) false acc = Path.basename_scan r false (rev g ++ acc).
Proof.
  induction g as [|c g IH]; intros acc Hg; cbn [app Path.basename_scan rev]; [reflexivity|].
  replace (c =? Path.slash)%N with false
    by (symmetry; apply N.eqb_neq; intros ->; apply Hg; now left).
  rewrite IH by (intros H; apply Hg; now right).
  now rewrite <- app_assoc.
Qed.

Lemma basename_of_last P d :
  d <> [] -> ~ In Path.slash d ->
  P = [] \/ (exists P', P = P' ++ [Path.slash]) ->
  Path.basename (P ++ d) = d.
Proof.
  intros Hd Hs HP. unfold Path.basename. rewrite rev_app_distr.
  assert (Hr : ~ In Path.slash (rev d)) by (intros H; apply Hs; now apply in_rev).
  destruct (rev d) as [|c g] eqn:E.
  { apply (f_equal (@rev _)) in E. rewrite rev_involutive in E. now subst. }
  cbn [app Path.basename_scan].
  replace (c =? Path.slash)%N with false
    by (symmetry; apply N.eqb_neq; intros ->; apply Hr; now left).
  rewrite basename_scan_run by (intros H; apply Hr; now right).
  assert (Hacc : rev g ++ [c] = d).
  { apply (f_equal (@rev _)) in E. rewrite rev_involutive in E. now rewrite E. }
  rewrite Hacc.
  destruct HP as [-> | [P' ->]]; [reflexivity|].
  rewrite rev_app_distr. cbn [rev app Path.basename_scan].
  now rewrite N.eqb_refl.
Qed.

(** X10.  The directory the name is compared with is the last directory
    component of the path of the document: for a path [P d/f], where the
    directory name [d] and the file name [f] are not empty and without a
    slash and [P] is empty or ends with a slash, it is [d]. *)
Theorem X10_directory_name (p : params) (P d f : jsstring) :
  name p = P ++ d ++ Path.slash :: f ->
  d <> [] -> ~ In Path.slash d -> f <> [] -> ~ In Path.slash f ->
  P = [] \/ (exists P', P = P' ++ [Path.slash]) ->
  dirName p = d.
Proof.
  intros Hn Hd Hds Hf Hfs HP. unfold dirName. rewrite Hn, app_assoc.
  rewrite dirname_of_file; auto.
  - now apply basename_of_last.
  - destruct P; [now destruct d | discriminate].
  - intros Hl E. destruct HP as [-> | [P' ->]].
    + destruct d as [|c [|c' d']]; try discriminate; try congruence.
      cbn in E. injection E as ->. apply Hds. now left.
    + rewrite !length_app in Hl. destruct d; [congruence|]. simpl in Hl. lia.
Qed.

Lemma X10_directory_name_witness :
  dirName optimize_dynamodb = lit "optimize-dynamodb".
Proof.
  apply (X10_directory_name optimize_dynamodb (lit "skills/") (lit "optimize-dynamodb")
           (lit "SKILL.md")).
  - reflexivity.
  - discriminate.
  - vm_compute. intuition discriminate.
  - discriminate.
  - vm_compute. intuition discriminate.
  - right. exists (lit "skills"). reflexivity.
Defined.

(** ** Runs of a repetition *)

Section Runs.
Variable f : flags.
Variable r : regex.
Variable P : codeunit -> bool.
Hypothesis Hr : forall k x, matcher f r k x = char_matcher P k x.

(** A greedy repetition reads a whole run when the continuation accepts
    after it. *)
Lemma star_run k X cs z : forall W p,
  forallb P W = true -> stops P X ->
  k (mk (prev_of p W) X cs) = Match z ->
  matcher f (Repeat 0 true r) k (mk p (W ++ X) cs) = Match z.
Proof.
  induction W as [|c W IH]; intros p HW HX Hk;
    rewrite star_char with (P := P) by exact Hr; cbv zeta; cbn [app].
  - cbn [prev_of] in Hk. destruct X as [|c X]; [exact Hk|].
    cbn in HX. rewrite HX. exact Hk.
  - cbn [forallb] in HW. apply andb_true_iff in HW. destruct HW as [Hc HW].
    rewrite Hc. rewrite (IH (Some c) HW HX Hk). reflexivity.
Qed.

(** It fails when the continuation rejects every position of the run. *)
Lemma star_run_fail k X cs : forall W p,
  forallb P W = true -> stops P X ->
  (forall W1 W2, W = W1 ++ W2 -> k (mk (prev_of p W1) (W2 ++ X) cs) = Failure) ->
  matcher f (Repeat 0 true r) k (mk p (W ++ X) cs) = Failure.
Proof.
  induction W as [|c W IH]; intros p HW HX Hk;
    rewrite star_char with (P := P) by exact Hr; cbv zeta; cbn [app].
  - specialize (Hk [] [] eq_refl). cbn [prev_of app] in Hk.
    destruct X as [|c X]; [exact Hk|]. cbn in HX. rewrite HX. exact Hk.
  - cbn [forallb] in HW. apply andb_true_iff in HW. destruct HW as [Hc HW].
    rewrite Hc. rewrite IH; auto.
    + exact (Hk [] (c :: W) eq_refl).
    + intros W1 W2 E. apply (Hk (c :: W1) W2). now rewrite E.
Qed.

(** A lazy repetition goes on as long as the continuation rejects. *)
Lemma lazy_run k X cs z : forall L p,
  forallb P L = true ->
  (forall L1 L2, L = L1 ++ L2 -> L2 <> [] ->
                 k (mk (prev_of p L1) (L2 ++ X) cs) = Failure) ->
  k (mk (prev_of p L) X cs) = Match z ->
  matcher f (Repeat 0 false r) k (mk p (L ++ X) cs) = Match z.
Proof.
  induction L as [|c L IH]; intros p HL Hfail Hk;
    rewrite star_char with (P := P) by exact Hr; cbv zeta; cbn [app].
  - cbn [prev_of] in Hk. rewrite Hk. reflexivity.
  - cbn [forallb] in HL. apply andb_true_iff in HL. destruct HL as [Hc HL].
    pose proof (Hfail [] (c :: L) eq_refl ltac:(discriminate)) as H0.
    cbn [prev_of app] in H0. rewrite H0. cbn [orelse].
    rewrite Hc. apply IH; auto.
    intros L1 L2 E HL2. apply (Hfail (c :: L1) L2); [now rewrite E | exact HL2].
Qed.

End Runs.

(** ** The value of a field *)

Lemma in_class_space c : in_class false [CSpace] c = isSpace c.
Proof. unfold in_class. cbn [existsb in_item xorb]. now rewrite orb_false_r. Qed.

Lemma lit_prefix_app K X : lit_prefix flag_m K (K ++ X) = true.
Proof. apply lit_prefix_starts_with. now exists X. Qed.

Lemma firstn_app_length {A} (a b : list A) : firstn (length a) (a ++ b) = a.
Proof. rewrite firstn_app, Nat.sub_diag, firstn_all. cbn [firstn]. apply app_nil_r. Qed.

Lemma skipn_app_length {A} (a b : list A) : skipn (length a) (a ++ b) = b.
Proof. now rewrite skipn_app, Nat.sub_diag, skipn_all. Qed.

Section FieldValue.
Variable K : jsstring.

(** [/^key\s*(.+)$/m] *)
Local Abbreviation R :=
  (Seq Bol (Seq (cat (map Chr K)) (Seq (Star Space) (Seq (Group 1 (Plus Dot)) Eol)))).

Lemma field_value_here p W V tail :
  at_bol flag_m (mk p [] []) = true ->
  forallb isSpace W = true ->
  V <> [] -> stops isSpace V -> no_line_terminator V = true ->
  stops (fun c => negb (isLineTerminator c)) tail ->
  exists y, match_here flag_m R p (K ++ W ++ V ++ tail) = Match y
            /\ capture 1 y = Some V.
Proof.
  intros Hbol HW HV HVs HVl Htail.
  destruct V as [|c V']; [congruence|]. cbn in HVs.
  cbn [no_line_terminator forallb] in HVl. apply andb_true_iff in HVl.
  destruct HVl as [Hc HV'].
  eexists. split.
  - unfold match_here. fold (mk p (K ++ W ++ (c :: V') ++ tail) []).
    rewrite matcher_Seq, matcher_Bol.
    replace (at_bol flag_m (mk p (K ++ W ++ (c :: V') ++ tail) [])) with true
      by (symmetry; exact Hbol).
    rewrite matcher_Seq, str_here, lit_prefix_app, firstn_app_length, skipn_app_length.
    rewrite matcher_Seq. unfold Star, Space.
    apply star_run with (P := in_class false [CSpace]).
    + reflexivity.
    + rewrite <- HW. apply forallb_eq, in_class_space.
    + cbn [stops app]. rewrite in_class_space. exact HVs.
    + rewrite matcher_Seq, matcher_Group. cbv beta. unfold Plus.
      rewrite plus_char with (P := fun c => negb (isLineTerminator c)) by reflexivity.
      cbn [app]. rewrite Hc.
      apply star_run with (P := fun c => negb (isLineTerminator c)).
      * reflexivity.
      * exact HV'.
      * exact Htail.
      * rewrite matcher_Eol.
        replace (at_eol flag_m _) with true; [reflexivity|].
        unfold at_eol. cbn [rest set_cap mk]. destruct tail as [|t0 tail']; [reflexivity|].
        cbn in Htail. apply negb_false_iff in Htail. now rewrite Htail.
  - rewrite capture_set_cap. cbn [Nat.eqb rest mk].
    f_equal. change (c :: V' ++ tail) with ((c :: V') ++ tail).
    rewrite length_app, Nat.add_sub. apply firstn_app_length.
Qed.

End FieldValue.

(** ** Lines where a pattern cannot match *)

Lemma line_end_stops tail : line_end tail -> stops (fun c => negb (isLineTerminator c)) tail.
Proof. intros [-> | [t ->]]; reflexivity. Qed.

Lemma join_cons l rest : exists tail, join nl (l :: rest) = l ++ tail /\ line_end tail.
Proof.
  destruct rest as [|l' rest'].
  - exists []. split; [cbn [join]; now rewrite app_nil_r | now left].
  - exists (10%N :: join nl (l' :: rest')). split; [reflexivity | right; eauto].
Qed.

Lemma join_app ls l rest :
  join nl (ls ++ l :: rest) = text_of_lines ls ++ join nl (l :: rest).
Proof.
  unfold text_of_lines. induction ls as [|a ls IH]; [reflexivity|].
  cbn [app map concat]. rewrite <- app_assoc, <- IH.
  cbn [join]. destruct (ls ++ l :: rest) eqn:E; [now destruct ls|].
  now rewrite <- app_assoc.
Qed.

Lemma exec_from_here f r b p s y :
  match_here f r p s = Match y -> exec_from f r b p s = Some (rev b, y).
Proof. intros H. destruct s; cbn [exec_from]; now rewrite H. Qed.

Lemma exec_from_nil f r b p :
  is_match (match_here f r p []) = false -> exec_from f r b p [] = None.
Proof. intros H. cbn [exec_from]. now destruct (match_here f r p []). Qed.

Section Lines.
Variable K : jsstring.
Variable r2 : regex.
Hypothesis K_nonempty : K <> [].
Hypothesis K_one_line : forallb (fun a => negb (a =? 10)%N) K = true.

Local Abbreviation R := (Seq Bol (Seq (cat (map Chr K)) r2)).

Lemma other_line_dead l : other_line K l -> dead_line R l.
Proof.
  intros [Hl HK]. split; [exact Hl|]. intros p tail Ht.
  apply key_line_here.
  assert (HK' : lit_prefix flag_m K l = false).
  { destruct (lit_prefix flag_m K l) eqn:E; [|reflexivity].
    exfalso. now apply HK, lit_prefix_starts_with. }
  destruct Ht as [-> | [t ->]].
  - rewrite app_nil_r, HK'. apply andb_false_r.
  - rewrite (lit_prefix_line K l t K_one_line HK'). apply andb_false_r.
Qed.

Lemma inside_none : forall l b c0,
  isLineTerminator c0 = false -> no_line_terminator l = true ->
  exec_from flag_m R b (Some c0) l = None.
Proof.
  assert (Hhere : forall c0 s, isLineTerminator c0 = false ->
                               is_match (match_here flag_m R (Some c0) s) = false).
  { intros c0 s H0. apply key_line_here. unfold at_bol.
    cbn [prev mk multiline flag_m andb]. now rewrite H0. }
  induction l as [|c l IH]; intros b c0 H0 Hl.
  - apply exec_from_nil. now apply Hhere.
  - cbn [no_line_terminator forallb] in Hl. apply andb_true_iff in Hl.
    destruct Hl as [Hc Hl]. apply negb_true_iff in Hc.
    rewrite exec_from_step by now apply Hhere.
    now apply IH.
Qed.

Lemma dead_line_skip l b p tail :
  dead_line R l ->
  exec_from flag_m R b p (l ++ 10%N :: tail)
  = exec_from flag_m R (10%N :: rev l ++ b) (Some 10%N) tail.
Proof.
  intros [Hl Hd].
  assert (Hhere : is_match (match_here flag_m R p (l ++ 10%N :: tail)) = false)
    by (apply Hd; right; eauto).
  destruct l as [|c l]; cbn [app rev] in *.
  - now apply exec_from_step.
  - rewrite exec_from_step by assumption.
    cbn [no_line_terminator forallb] in Hl. apply andb_true_iff in Hl. destruct Hl as [Hc Hl].
    apply negb_true_iff in Hc.
    rewrite (skip_inside_line K r2) by assumption.
    now rewrite <- app_assoc.
Qed.

Lemma dead_line_last l b p :
  dead_line R l -> exec_from flag_m R b p l = None.
Proof.
  intros [Hl Hd].
  assert (Hhere : is_match (match_here flag_m R p l) = false).
  { specialize (Hd p [] (or_introl eq_refl)). now rewrite app_nil_r in Hd. }
  destruct l as [|c l].
  - now apply exec_from_nil.
  - rewrite exec_from_step by assumption.
    cbn [no_line_terminator forallb] in Hl. apply andb_true_iff in Hl. destruct Hl as [Hc Hl].
    apply negb_true_iff in Hc. now apply inside_none.
Qed.

(** The pattern matches nowhere in a text made of such lines. *)
Lemma dead_lines_none : forall B b p,
  Forall (dead_line R) B -> exec_from flag_m R b p (join nl B) = None.
Proof.
  induction B as [|l B IH]; intros b p HB.
  - apply exec_from_nil. apply key_line_here.
    destruct K; [congruence|]. apply andb_false_r.
  - inversion HB as [|? ? Hl HB']; subst. destruct B as [|l' B'].
    + cbn [join]. now apply dead_line_last.
    + change (join nl (l :: l' :: B')) with (l ++ 10%N :: join nl (l' :: B')).
      rewrite dead_line_skip by assumption. now apply IH.
Qed.

Lemma other_lines_none B :
  Forall (other_line K) B -> exec flag_m R (join nl B) = None.
Proof.
  intros HB. apply dead_lines_none.
  apply Forall_forall. intros l Hl. apply other_line_dead.
  now apply (proj1 (Forall_forall _ _) HB).
Qed.

End Lines.

Lemma Forall_field_lines (Q : jsstring -> Prop) ls :
  Forall Q ls -> Forall Q (field_lines ls).
Proof.
  intros H. apply Forall_forall. intros l Hl. apply filter_In in Hl.
  now apply (proj1 (Forall_forall _ _) H).
Qed.

Lemma frontmatter_text_field_lines ls : frontmatter_text ls = join nl (field_lines ls).
Proof. reflexivity. Qed.

Lemma name_field_none B :
  Forall (other_line name_key) B -> name_field (join nl B) = None.
Proof.
  intros HB. unfold name_field.
  change re_name with
    (Seq Bol (Seq (cat (map Chr name_key)) (cat [Star Space; Group 1 (Plus Dot); Eol]))).
  rewrite other_lines_none; [reflexivity | discriminate | reflexivity | exact HB].
Qed.

Lemma description_field_none B :
  Forall (other_line description_key) B -> description_field (join nl B) = None.
Proof.
  intros HB. unfold description_field.
  change re_description_multiline with
    (Seq Bol (Seq (cat (map Chr description_key))
       (cat [Star Space; Chr (ch ">"); Star Space; Chr 10%N;
             Group 1 (StarLazy (Class false [CSpace; CNonSpace]));
             LookAhead (Alt (cat [Chr 10%N;
                                  Plus (Class false [CRange (ch "a") (ch "z"); CChar (ch "-")]);
                                  Chr (ch ":")])
                            Eol)]))).
  change re_description with
    (Seq Bol (Seq (cat (map Chr description_key))
       (cat [Star Space; Group 1 (Plus Dot); Eol]))).
  rewrite !other_lines_none; [reflexivity | | | | | |]; (discriminate || reflexivity || exact HB).
Qed.

(** X11.  A field is looked for at the start of a line only.  For a
    checked document with frontmatter lines, if no line (each in one
    piece) starts with [name:], the name part of the output is exactly
    [Missing name]; if none starts with [description:], the description
    part is exactly [Missing description].  Indented or misspelt keys
    count as absent, and nothing is thrown. *)
Theorem X11_missing_fields (p : params) :
  checked p -> frontMatterLines_or_empty p <> [] ->
  (Forall (other_line name_key) (frontMatterLines_or_empty p) ->
   name_errors p (frontmatter_text (frontMatterLines_or_empty p)) = [missing_name]
   /\ filter is_name_related (skillFrontmatter p) = [missing_name])
  /\ (Forall (other_line description_key) (frontMatterLines_or_empty p) ->
      description_errors (frontmatter_text (frontMatterLines_or_empty p))
      = [missing_description]
      /\ filter (fun e => negb (is_name_related e)) (skillFrontmatter p)
         = [missing_description]).
Proof.
  intros Hp Hne. rewrite (skillFrontmatter_checked p Hp Hne). split; intros H.
  - assert (Hn : name_errors p (frontmatter_text (frontMatterLines_or_empty p))
                 = [missing_name]).
    { unfold name_errors. rewrite frontmatter_text_field_lines.
      now rewrite (name_field_none _ (Forall_field_lines _ _ H)). }
    split; [exact Hn|].
    rewrite filter_app, description_errors_unrelated, app_nil_r, Hn. reflexivity.
  - assert (Hd : description_errors (frontmatter_text (frontMatterLines_or_empty p))
                 = [missing_description]).
    { unfold description_errors. rewrite frontmatter_text_field_lines.
      now rewrite (description_field_none _ (Forall_field_lines _ _ H)). }
    split; [exact Hd|].
    rewrite filter_app, Hd.
    assert (Hn : filter (fun e => negb (is_name_related e))
                   (name_errors p (frontmatter_text (frontMatterLines_or_empty p))) = []).
    { generalize (name_errors_related p (frontmatter_text (frontMatterLines_or_empty p))).
      generalize (name_errors p (frontmatter_text (frontMatterLines_or_empty p))).
      induction l as [|e l IH]; [reflexivity|]. cbn [filter].
      destruct (is_name_related e) eqn:E; cbn [negb].
      - intros H'. injection H' as H'. now apply IH.
      - intros H'. exfalso.
        assert (Hin : In e (filter is_name_related l)) by (rewrite H'; now left).
        apply filter_In in Hin. destruct Hin as [_ Hin]. congruence. }
    rewrite Hn. reflexivity.
Qed.

Lemma X11_missing_fields_witness :
  (name_errors skill_untitled
     (frontmatter_text (frontMatterLines_or_empty skill_untitled)) = [missing_name]
   /\ filter is_name_related (skillFrontmatter skill_untitled) = [missing_name])
  /\ (description_errors (frontmatter_text (frontMatterLines_or_empty skill_untitled))
      = [missing_description]
      /\ filter (fun e => negb (is_name_related e)) (skillFrontmatter skill_untitled)
         = [missing_description]).
Proof.
  destruct (X11_missing_fields skill_untitled) as [Hn Hd];
    [reflexivity | discriminate |].
  split; [apply Hn | apply Hd]; cbn [frontMatterLines_or_empty frontMatterLines skill_untitled];
    other_lines_here.
Defined.

(** ** Reading a field from its line *)

Lemma trimStart_split v : exists W, v = W ++ trimStart v /\ forallb isSpace W = true.
Proof.
  induction v as [|c v IH]; [now exists []|]. cbn [trimStart].
  destruct (isSpace c) eqn:E.
  - destruct IH as (W & HW & HWs). exists (c :: W). split.
    + cbn [app]. now f_equal.
    + cbn [forallb]. now rewrite E.
  - now exists [].
Qed.

Lemma trimStart_stops v : stops isSpace (trimStart v).
Proof.
  induction v as [|c v IH]; [exact I|]. cbn [trimStart].
  destruct (isSpace c) eqn:E; [exact IH | exact E].
Qed.

Lemma trimStart_idem v : trimStart (trimStart v) = trimStart v.
Proof.
  pose proof (trimStart_stops v) as H. destruct (trimStart v) as [|c t]; [reflexivity|].
  cbn in H. cbn [trimStart]. now rewrite H.
Qed.

Lemma trim_trimStart v : trim (trimStart v) = trim v.
Proof. unfold trim. now rewrite trimStart_idem. Qed.

Lemma no_line_terminator_app a b :
  no_line_terminator (a ++ b) = no_line_terminator a && no_line_terminator b.
Proof. apply forallb_app. Qed.

Lemma no_line_terminator_trimStart v :
  no_line_terminator v = true -> no_line_terminator (trimStart v) = true.
Proof.
  intros H. destruct (trimStart_split v) as (W & HW & _). rewrite HW in H.
  rewrite no_line_terminator_app in H. now apply andb_true_iff in H.
Qed.

Lemma field_lines_app ls l rest :
  l <> delimiter ->
  field_lines (ls ++ l :: rest) = field_lines ls ++ l :: field_lines rest.
Proof.
  intros Hl. unfold field_lines. rewrite filter_app. cbn [filter].
  replace (str_eqb l (lit "---")) with false by (symmetry; now apply str_eqb_neq).
  reflexivity.
Qed.

Lemma at_bol_after_lines (ls : list jsstring) :
  at_bol flag_m (mk (match ls with [] => None | _ => Some 10%N end) [] []) = true.
Proof. now destruct ls. Qed.

Section Field.
Variable K : jsstring.
Hypothesis K_nonempty : K <> [].
Hypothesis K_one_line : forallb (fun a => negb (a =? 10)%N) K = true.

Local Abbreviation R :=
  (Seq Bol (Seq (cat (map Chr K)) (Seq (Star Space) (Seq (Group 1 (Plus Dot)) Eol)))).

(** The leftmost match of [/^key\s*(.+)$/m] when the first line that
    starts with the key is followed by the white space [W] and the text
    [V] up to the end of a line. *)
Lemma exec_field_value ls W V tail :
  Forall (other_line K) ls ->
  forallb isSpace W = true ->
  V <> [] -> stops isSpace V -> no_line_terminator V = true ->
  line_end tail ->
  exists m, exec flag_m R (text_of_lines ls ++ K ++ W ++ V ++ tail) = Some m
            /\ group1 m = V.
Proof.
  intros Hls HW HV HVs HVl Ht. unfold exec.
  rewrite (skip_lines K _ K_one_line) by exact Hls.
  destruct (field_value_here K (match ls with [] => None | _ => Some 10%N end) W V tail)
    as (y & Hy & Hc); auto using at_bol_after_lines, line_end_stops.
  eexists. split; [apply exec_from_here; exact Hy|].
  unfold group1. cbn [snd]. now rewrite Hc.
Qed.

End Field.

Lemma name_field_text ls W V tail :
  Forall (other_line name_key) ls ->
  forallb isSpace W = true ->
  V <> [] -> stops isSpace V -> no_line_terminator V = true ->
  line_end tail ->
  name_field (text_of_lines ls ++ name_key ++ W ++ V ++ tail) = Some (unquote V).
Proof.
  intros Hls HW HV HVs HVl Ht. unfold name_field.
  change re_name with
    (Seq Bol (Seq (cat (map Chr name_key)) (Seq (Star Space) (Seq (Group 1 (Plus Dot)) Eol)))).
  destruct (exec_field_value name_key eq_refl ls W V tail) as (m & -> & ->); auto.
Qed.

(** X12.  The name is read from the first frontmatter line that starts
    with [name:] (the lines before it being in one piece): when that line
    has visible text after the key, the name is the rest of the line,
    trimmed and stripped of its quotes, whatever the later lines are. *)
Theorem X12_name_line (ls rest : list jsstring) (v : jsstring) :
  Forall (other_line name_key) ls ->
  no_line_terminator v = true -> trimStart v <> [] ->
  name_field (frontmatter_text (ls ++ (name_key ++ v) :: rest)) = Some (unquote v).
Proof.
  intros Hls Hv Hne.
  rewrite frontmatter_text_field_lines, field_lines_app by discriminate.
  rewrite join_app. destruct (join_cons (name_key ++ v) (field_lines rest)) as (tail & -> & Ht).
  destruct (trimStart_split v) as (W & HW & HWs).
  rewrite HW at 1. rewrite <- !app_assoc.
  rewrite name_field_text; auto using Forall_field_lines, trimStart_stops,
    no_line_terminator_trimStart.
  unfold unquote. now rewrite trim_trimStart.
Qed.

Lemma X12_name_line_witness :
  name_field (frontmatter_text
                ([lit "---"; lit "title: x"] ++ (name_key ++ lit "  'my-skill' ")
                 :: [lit "name: other"; lit "---"]))
  = Some (unquote (lit "  'my-skill' ")).
Proof.
  apply X12_name_line; [other_lines_here | reflexivity | discriminate].
Defined.

(** ** Patterns without groups leave the captures alone *)

Lemma char_matcher_same_caps P k x z :
  char_matcher P k x = Match z -> exists y, k y = Match z /\ caps y = caps x.
Proof.
  unfold char_matcher. destruct (rest x) as [|c t]; [discriminate|].
  destruct (P c); [|discriminate]. intros H. now exists (advance c x).
Qed.

Lemma repeat_matcher_same_caps m greedy k :
  (forall k' x' z, m k' x' = Match z -> exists y, k' y = Match z /\ caps y = caps x') ->
  forall fuel min x z,
    repeat_matcher m greedy k fuel min x = Match z ->
    exists y, k y = Match z /\ caps y = caps x.
Proof.
  intros Hm. induction fuel as [|fuel IH]; intros min x z H; [discriminate|].
  rewrite repeat_matcher_S in H. cbv zeta in H.
  assert (Hd : forall z',
             m (fun y => if (min =? 0) && (length (rest y) =? length (rest x))
                         then Failure
                         else repeat_matcher m greedy k fuel (pred min) y) x = Match z' ->
             exists y, k y = Match z' /\ caps y = caps x).
  { intros z' H'. apply Hm in H'. destruct H' as (y1 & H1 & K1).
    destruct ((min =? 0) && (length (rest y1) =? length (rest x))); [discriminate|].
    apply IH in H1. destruct H1 as (y & Hy & K). exists y. split; [exact Hy|].
    now rewrite K. }
  destruct (negb (min =? 0)); [now apply Hd|].
  destruct greedy; apply orelse_Match in H; destruct H as [H | [_ H]];
    try (now apply Hd); exists x; split; auto.
Qed.

Lemma matcher_group_free f r : group_free r = true -> forall k x z,
  matcher f r k x = Match z -> exists y, k y = Match z /\ caps y = caps x.
Proof.
  induction r; intros Hg k x z H; cbn [group_free] in Hg; try discriminate.
  - now exists x.
  - now apply char_matcher_same_caps in H.
  - now apply char_matcher_same_caps in H.
  - now apply char_matcher_same_caps in H.
  - apply andb_true_iff in Hg. destruct Hg as [Hg1 Hg2].
    rewrite matcher_Seq in H. apply (IHr1 Hg1) in H. destruct H as (y1 & H & K1).
    apply (IHr2 Hg2) in H. destruct H as (y & H & K2). exists y. split; [exact H|].
    now rewrite K2.
  - apply andb_true_iff in Hg. destruct Hg as [Hg1 Hg2].
    rewrite matcher_Alt in H. apply orelse_Match in H. destruct H as [H | [_ H]]; eauto.
  - rewrite matcher_Repeat in H. eapply repeat_matcher_same_caps; eauto.
  - rewrite matcher_Bol in H. destruct (at_bol f x); [|discriminate]. now exists x.
  - rewrite matcher_Eol in H. destruct (at_eol f x); [|discriminate]. now exists x.
  - rewrite matcher_WordBoundary in H. destruct (at_word_boundary x); [|discriminate].
    now exists x.
  - rewrite matcher_LookAhead in H.
    destruct (matcher f r Match x) as [y'| |] eqn:E; try discriminate.
    apply (IHr Hg) in E. destruct E as (y0 & E & K). injection E as ->.
    eexists. split; [exact H|]. exact K.
Qed.

(** ** A greedy run that has to give characters back *)

Section Back.
Variable f : flags.
Variable r : regex.
Variable P : codeunit -> bool.
Hypothesis Hr : forall k x, matcher f r k x = char_matcher P k x.

Lemma star_run_first k X cs : forall W p,
  forallb P W = true -> stops P X ->
  (forall A B, W = A ++ B -> A <> [] -> k (mk (prev_of p A) (B ++ X) cs) = Failure) ->
  matcher f (Repeat 0 true r) k (mk p (W ++ X) cs) = k (mk p (W ++ X) cs).
Proof.
  induction W as [|c W IH]; intros p HW HX Hk;
    rewrite star_char with (P := P) by exact Hr; cbv zeta; cbn [app].
  - destruct X as [|c X]; [reflexivity|]. cbn in HX. now rewrite HX.
  - cbn [forallb] in HW. apply andb_true_iff in HW. destruct HW as [Hc HW].
    rewrite Hc. rewrite IH; auto.
    + pose proof (Hk [c] W eq_refl ltac:(discriminate)) as H0.
      cbn [prev_of] in H0. now rewrite H0.
    + intros A B E HA. apply (Hk (c :: A) B); [now rewrite E | discriminate].
Qed.

Lemma star_run_back k X cs z W2 : forall W1 p,
  forallb P (W1 ++ W2) = true -> stops P X ->
  (forall A B, W2 = A ++ B -> A <> [] ->
               k (mk (prev_of (prev_of p W1) A) (B ++ X) cs) = Failure) ->
  k (mk (prev_of p W1) (W2 ++ X) cs) = Match z ->
  matcher f (Repeat 0 true r) k (mk p (W1 ++ W2 ++ X) cs) = Match z.
Proof.
  induction W1 as [|c W1 IH]; intros p HW HX Hfail Hk; cbn [app prev_of] in *.
  - rewrite star_run_first; auto.
  - rewrite star_char with (P := P) by exact Hr. cbv zeta.
    apply andb_true_iff in HW. destruct HW as [Hc HW].
    rewrite Hc. rewrite (IH (Some c)); auto.
Qed.

End Back.

(** ** The pattern of a block scalar *)

Local Abbreviation M2 :=
  (cat [Star Space; Chr (ch ">"); Star Space; Chr 10%N;
        Group 1 (StarLazy (Class false [CSpace; CNonSpace]));
        LookAhead (Alt (cat [Chr 10%N;
                             Plus (Class false [CRange (ch "a") (ch "z"); CChar (ch "-")]);
                             Chr (ch ":")])
                       Eol)]).

Local Abbreviation M := (Seq Bol (Seq (cat (map Chr description_key)) M2)).

Lemma re_description_multiline_eq : re_description_multiline = M.
Proof. reflexivity. Qed.

Lemma space_not_gt c : isSpace c = true -> (c =? 62)%N = false.
Proof.
  intros H. destruct (c =? 62)%N eqn:E; [|reflexivity].
  apply N.eqb_eq in E. subst c. discriminate.
Qed.

(** After [description:] the block pattern asks for [>] as the first
    character that is not white space. *)
Lemma block_not_here p W c X :
  forallb isSpace W = true -> isSpace c = false -> c <> gt_sign ->
  is_match (match_here flag_m M p (description_key ++ W ++ c :: X)) = false.
Proof.
  intros HW Hc Hgt. unfold match_here. fold (mk p (description_key ++ W ++ c :: X) []).
  rewrite matcher_Seq, matcher_Bol.
  destruct (at_bol flag_m _); [|reflexivity].
  rewrite matcher_Seq, str_here, lit_prefix_app, firstn_app_length, skipn_app_length.
  change M2 with (Seq (Star Space) (Seq (Chr (ch ">")) (cat [Star Space; Chr 10%N;
        Group 1 (StarLazy (Class false [CSpace; CNonSpace]));
        LookAhead (Alt (cat [Chr 10%N;
                             Plus (Class false [CRange (ch "a") (ch "z"); CChar (ch "-")]);
                             Chr (ch ":")])
                       Eol)]))).
  rewrite matcher_Seq. unfold Star, Space.
  rewrite star_run_fail with (P := in_class false [CSpace]); [reflexivity | reflexivity | | | ].
  - rewrite <- HW. apply forallb_eq, in_class_space.
  - cbn [stops]. rewrite in_class_space. exact Hc.
  - intros W1 W2 E. rewrite matcher_Seq, matcher_Chr. cbn [ignoreCase flag_m].
    destruct W2 as [|w W2]; cbn [app]; rewrite char_matcher_cons.
    + replace (c =? ch ">")%N with false; [reflexivity|].
      symmetry. apply N.eqb_neq. exact Hgt.
    + replace (w =? ch ">")%N with false; [reflexivity|].
      symmetry. apply space_not_gt.
      rewrite E, forallb_app in HW. apply andb_true_iff in HW. destruct HW as [_ HW].
      cbn [forallb] in HW. now apply andb_true_iff in HW.
Qed.

Lemma description_key_one_line : forallb (fun a => negb (a =? 10)%N) description_key = true.
Proof. reflexivity. Qed.

Lemma description_key_no_terminator : no_line_terminator description_key = true.
Proof. reflexivity. Qed.

Lemma trimStart_head v c V : trimStart v = c :: V -> isSpace c = false.
Proof. intros E. pose proof (trimStart_stops v) as H. rewrite E in H. exact H. Qed.

(** A [description:] line whose value does not start with [>] is dead for
    the block pattern. *)
Lemma single_line_dead v :
  no_line_terminator v = true -> trimStart v <> [] ->
  ~ starts_with (trimStart v) [gt_sign] ->
  dead_line M (description_key ++ v).
Proof.
  intros Hv Hne Hgt. split.
  - rewrite no_line_terminator_app, Hv. reflexivity.
  - intros p tail _. destruct (trimStart_split v) as (W & HW & HWs).
    destruct (trimStart v) as [|c V] eqn:E; [congruence|].
    rewrite HW, <- !app_assoc. cbn [app]. apply block_not_here; auto.
    + exact (trimStart_head v c V E).
    + intros ->. apply Hgt. now exists V.
Qed.

Lemma description_field_single B m :
  exec flag_m M (join nl B) = None ->
  exec flag_m re_description (join nl B) = Some m ->
  description_field (join nl B) = Some (unquote (group1 m)).
Proof.
  intros H1 H2. unfold description_field. rewrite re_description_multiline_eq, H1, H2.
  reflexivity.
Qed.

(** X14.  A description on the key's own line: when the first line that
    starts with [description:] has a value that does not start with [>],
    and no later line starts with the key, the description is the rest of
    that line, trimmed and stripped of its quotes. *)
Theorem X14_description_line (ls rest : list jsstring) (v : jsstring) :
  Forall (other_line description_key) ls ->
  Forall (other_line description_key) rest ->
  no_line_terminator v = true -> trimStart v <> [] ->
  ~ starts_with (trimStart v) [gt_sign] ->
  description_field (frontmatter_text (ls ++ (description_key ++ v) :: rest))
  = Some (unquote v).
Proof.
  intros Hls Hrest Hv Hne Hgt.
  rewrite frontmatter_text_field_lines, field_lines_app by discriminate.
  assert (Hdead : exec flag_m M
            (join nl (field_lines ls ++ (description_key ++ v) :: field_lines rest)) = None).
  { apply dead_lines_none; [discriminate | reflexivity|].
    apply Forall_app. split; [|constructor].
    - apply Forall_field_lines. revert Hls. apply Forall_impl. intros l.
      apply other_line_dead. reflexivity.
    - now apply single_line_dead.
    - apply Forall_field_lines. revert Hrest. apply Forall_impl. intros l.
      apply other_line_dead. reflexivity. }
  destruct (trimStart_split v) as (W & HW & HWs).
  assert (Hm : exists m, exec flag_m re_description
             (join nl (field_lines ls ++ (description_key ++ v) :: field_lines rest)) = Some m
             /\ group1 m = trimStart v).
  { rewrite join_app.
    destruct (join_cons (description_key ++ v) (field_lines rest)) as (tail & -> & Ht).
    replace (description_key ++ v) with (description_key ++ W ++ trimStart v)
      by now rewrite <- HW.
    rewrite <- !app_assoc.
    change re_description with
      (Seq Bol (Seq (cat (map Chr description_key))
                    (Seq (Star Space) (Seq (Group 1 (Plus Dot)) Eol)))).
    apply exec_field_value; auto using Forall_field_lines, trimStart_stops,
      no_line_terminator_trimStart. }
  destruct Hm as (m & Hm & Hg).
  etransitivity; [exact (description_field_single _ m Hdead Hm)|].
  rewrite Hg. unfold unquote. now rewrite trim_trimStart.
Qed.

Lemma X14_description_line_witness :
  description_field (frontmatter_text
                       ([lit "---"; lit "name: my-skill"]
                        ++ (description_key ++ lit " 'Analyze tables' ")
                        :: [lit "license: Apache-2.0"; lit "---"]))
  = Some (unquote (lit " 'Analyze tables' ")).
Proof.
  apply X14_description_line;
    [other_lines_here | other_lines_here | reflexivity | discriminate
    | intros [t Ht]; vm_compute in Ht; discriminate Ht].
Defined.

(** ** The block scalar *)

Local Abbreviation Key :=
  (cat [Chr 10%N;
        Plus (Class false [CRange (ch "a") (ch "z"); CChar (ch "-")]);
        Chr (ch ":")]).

Lemma not_terminator_not_newline c : isLineTerminator c = false -> (c =? 10)%N = false.
Proof. unfold isLineTerminator. now destruct (c =? 10)%N. Qed.

Lemma not_space_not_newline c : isSpace c = false -> (c =? 10)%N = false.
Proof.
  intros H. destruct (c =? 10)%N eqn:E; [|reflexivity].
  apply N.eqb_eq in E. subst c. discriminate.
Qed.

Lemma in_class_any c : in_class false [CSpace; CNonSpace] c = true.
Proof. unfold in_class. cbn [existsb in_item xorb]. now destruct (isSpace c). Qed.

(** The look-ahead [(?=\n[a-z-]+:|$)] holds at the end of every line. *)
Lemma lookahead_at_eol k x :
  at_eol flag_m x = true -> matcher flag_m (LookAhead (Alt Key Eol)) k x = k x.
Proof.
  intros Hx. rewrite matcher_LookAhead.
  destruct (matcher flag_m (Alt Key Eol) Match x) as [y| |] eqn:E.
  - apply matcher_group_free in E; [|reflexivity].
    destruct E as (y0 & E & K). injection E as ->. rewrite K. now destruct x.
  - rewrite matcher_Alt in E. destruct (matcher flag_m Key Match x); try discriminate.
    cbn [orelse] in E. rewrite matcher_Eol, Hx in E. discriminate.
  - exfalso. revert E. apply matcher_fuel. intros y _. discriminate.
Qed.

(** It fails inside a line. *)
Lemma lookahead_inside k x c X :
  rest x = c :: X -> isLineTerminator c = false ->
  matcher flag_m (LookAhead (Alt Key Eol)) k x = Failure.
Proof.
  intros Hx Hc. rewrite matcher_LookAhead, matcher_Alt.
  change Key with (Seq (Chr 10%N) (Seq
        (Plus (Class false [CRange (ch "a") (ch "z"); CChar (ch "-")])) (Chr (ch ":")))).
  rewrite matcher_Seq, matcher_Chr. unfold char_matcher at 1. rewrite Hx.
  cbn [ignoreCase flag_m]. rewrite (not_terminator_not_newline c Hc). cbn [orelse].
  rewrite matcher_Eol. unfold at_eol. rewrite Hx. cbn [multiline flag_m andb].
  now rewrite Hc.
Qed.

Lemma block_here p w1 w2 Wl V tail :
  at_bol flag_m (mk p [] []) = true ->
  forallb isSpace w1 = true -> forallb isSpace w2 = true ->
  forallb isSpace Wl = true -> no_line_terminator Wl = true ->
  V <> [] -> stops isSpace V -> no_line_terminator V = true ->
  line_end tail ->
  exists y, match_here flag_m M p
              (description_key ++ w1 ++ gt_sign :: w2 ++ (10%N :: Wl) ++ V ++ tail) = Match y
            /\ capture 1 y = Some (Wl ++ V).
Proof.
  intros Hbol Hw1 Hw2 HWl HWlt HV HVs HVt Ht.
  eexists. split.
  - unfold match_here.
    fold (mk p (description_key ++ w1 ++ gt_sign :: w2 ++ (10%N :: Wl) ++ V ++ tail) []).
    rewrite matcher_Seq, matcher_Bol.
    replace (at_bol flag_m (mk p _ [])) with true by (symmetry; exact Hbol).
    rewrite matcher_Seq, str_here, lit_prefix_app, firstn_app_length, skipn_app_length.
    change M2 with (Seq (Star Space) (Seq (Chr (ch ">")) (Seq (Star Space) (Seq (Chr 10%N)
        (Seq (Group 1 (StarLazy (Class false [CSpace; CNonSpace])))
             (LookAhead (Alt Key Eol))))))).
    rewrite matcher_Seq. unfold Star, Space.
    apply star_run with (P := in_class false [CSpace]).
    + reflexivity.
    + rewrite <- Hw1. apply forallb_eq, in_class_space.
    + reflexivity.
    + rewrite matcher_Seq, matcher_Chr. unfold gt_sign. rewrite char_matcher_cons.
      cbn [ignoreCase flag_m]. change (62 =? ch ">")%N with true. cbv iota.
      rewrite matcher_Seq.
      apply star_run_back with (P := in_class false [CSpace]).
      * reflexivity.
      * rewrite forallb_app. cbn [forallb].
        rewrite (forallb_eq _ _ w2 in_class_space), (forallb_eq _ _ Wl in_class_space).
        now rewrite Hw2, HWl.
      * destruct V as [|c V']; [congruence|]. cbn [stops app].
        rewrite in_class_space. exact HVs.
      * intros A B E HA. rewrite matcher_Seq, matcher_Chr. cbn [ignoreCase flag_m].
        destruct A as [|a A']; [congruence|]. cbn [app] in E. injection E as _ E.
        destruct B as [|b B']; cbn [app].
        -- destruct V as [|c V']; [congruence|]. cbn [app]. rewrite char_matcher_cons.
           cbn [stops] in HVs. now rewrite (not_space_not_newline c HVs).
        -- rewrite char_matcher_cons.
           replace (b =? 10)%N with false; [reflexivity|].
           symmetry. apply not_terminator_not_newline.
           rewrite E in HWlt. rewrite no_line_terminator_app in HWlt.
           apply andb_true_iff in HWlt. destruct HWlt as [_ HWlt].
           cbn [no_line_terminator forallb] in HWlt. apply andb_true_iff in HWlt.
           now apply negb_true_iff.
      * rewrite matcher_Seq, matcher_Chr. cbn [app]. rewrite char_matcher_cons.
        cbn [ignoreCase flag_m]. change (10 =? 10)%N with true. cbv iota.
        rewrite matcher_Seq, matcher_Group. cbv beta. unfold StarLazy.
        rewrite app_assoc.
        apply lazy_run with (P := in_class false [CSpace; CNonSpace]).
        -- reflexivity.
        -- apply forallb_forall. intros c _. apply in_class_any.
        -- intros L1 L2 E HL2. destruct L2 as [|c L2']; [congruence|].
           apply lookahead_inside with (c := c) (X := L2' ++ tail); [reflexivity|].
           assert (Hl : no_line_terminator (Wl ++ V) = true)
             by now rewrite no_line_terminator_app, HWlt, HVt.
           rewrite E, no_line_terminator_app in Hl. apply andb_true_iff in Hl.
           destruct Hl as [_ Hl]. cbn [no_line_terminator forallb] in Hl.
           apply andb_true_iff in Hl. now apply negb_true_iff.
        -- rewrite lookahead_at_eol; [reflexivity|].
           unfold at_eol. cbn [rest set_cap mk]. now destruct Ht as [-> | [t ->]].
  - rewrite capture_set_cap. cbn [Nat.eqb rest mk].
    f_equal. rewrite length_app, Nat.add_sub. apply firstn_app_length.
Qed.

(** [/\n\s*/g] finds nothing in a text without a newline. *)
Lemma replace_newline_indent repl : forall s p,
  no_line_terminator s = true ->
  replace_from no_flags re_newline_indent repl 0 p s = s.
Proof.
  induction s as [|c s IH]; intros p Hs.
  - reflexivity.
  - cbn [no_line_terminator forallb] in Hs. apply andb_true_iff in Hs.
    destruct Hs as [Hc Hs]. apply negb_true_iff in Hc.
    cbn [replace_from]. unfold match_here, re_newline_indent.
    fold (mk p (c :: s) []). rewrite matcher_Seq, matcher_Chr, char_matcher_cons.
    cbn [ignoreCase no_flags]. rewrite (not_terminator_not_newline c Hc).
    f_equal. now apply IH.
Qed.

Lemma description_field_block s m :
  exec flag_m M s = Some m ->
  description_field s
  = Some (trim (replaceAll no_flags re_newline_indent (lit " ") (group1 m))).
Proof.
  intros H. unfold description_field. rewrite re_description_multiline_eq, H. reflexivity.
Qed.

(** X15.  A block scalar: when the first line that starts with
    [description:] holds only [>] after the key, the description is the
    next line alone, trimmed, whatever the lines after it are. *)
Theorem X15_block_scalar_first_line (ls rest : list jsstring) (w1 w2 l1 : jsstring) :
  Forall (other_line description_key) ls ->
  forallb isSpace w1 = true -> forallb isSpace w2 = true ->
  l1 <> delimiter -> no_line_terminator l1 = true -> trimStart l1 <> [] ->
  description_field
    (frontmatter_text (ls ++ (description_key ++ w1 ++ gt_sign :: w2) :: l1 :: rest))
  = Some (trim l1).
Proof.
  intros Hls Hw1 Hw2 Hd Hl1 Hne.
  rewrite frontmatter_text_field_lines, field_lines_app by discriminate.
  change (l1 :: rest) with ([] ++ l1 :: rest). rewrite (field_lines_app [] l1 rest Hd).
  cbn [field_lines filter app]. fold (field_lines rest).
  rewrite join_app.
  change (join nl ((description_key ++ w1 ++ gt_sign :: w2) :: l1 :: field_lines rest))
    with ((description_key ++ w1 ++ gt_sign :: w2) ++ 10%N :: join nl (l1 :: field_lines rest)).
  destruct (join_cons l1 (field_lines rest)) as (tail & -> & Ht).
  destruct (trimStart_split l1) as (Wl & HW & HWs).
  assert (HWl : no_line_terminator Wl = true).
  { rewrite HW, no_line_terminator_app in Hl1. now apply andb_true_iff in Hl1. }
  replace ((description_key ++ w1 ++ gt_sign :: w2) ++ 10%N :: l1 ++ tail)
    with (description_key ++ w1 ++ gt_sign :: w2 ++ (10%N :: Wl) ++ trimStart l1 ++ tail).
  2:{ rewrite HW at 2. rewrite <- !app_assoc. cbn [app]. reflexivity. }
  assert (Hm : exists m, exec flag_m M
             (text_of_lines (field_lines ls) ++ description_key ++ w1 ++ gt_sign :: w2
              ++ (10%N :: Wl) ++ trimStart l1 ++ tail) = Some m /\ group1 m = l1).
  { unfold exec.
    rewrite (skip_lines description_key _ description_key_one_line)
      by now apply Forall_field_lines.
    destruct (block_here (match field_lines ls with [] => None | _ => Some 10%N end)
                w1 w2 Wl (trimStart l1) tail) as (y & Hy & Hc);
      auto using at_bol_after_lines, trimStart_stops, no_line_terminator_trimStart.
    eexists. split; [apply exec_from_here; exact Hy|].
    unfold group1. cbn [snd]. now rewrite Hc, <- HW. }
  destruct Hm as (m & Hm & Hg).
  etransitivity; [exact (description_field_block _ m Hm)|].
  rewrite Hg. unfold replaceAll. now rewrite replace_newline_indent.
Qed.

Lemma X15_block_scalar_first_line_witness :
  description_field (frontmatter_text
                       ([lit "---"; lit "name: my-skill"]
                        ++ (description_key ++ lit " " ++ gt_sign :: [])
                        :: lit "  Analyze tables"
                        :: [lit "  for cost savings."; lit "license: Apache-2.0"; lit "---"]))
  = Some (trim (lit "  Analyze tables")).
Proof.
  apply X15_block_scalar_first_line;
    [other_lines_here | reflexivity | reflexivity | discriminate | reflexivity | discriminate].
Defined.

(** X16.  Whenever one of the three frontmatter patterns matches, its
    group 1 took part in the match: the [[1]] the rule reads from a match
    is always a string, never [undefined]. *)
Theorem X16_group1_defined (s : jsstring) :
  group1_defined (exec flag_m re_name s)
  /\ group1_defined (exec flag_m re_description s)
  /\ group1_defined (exec flag_m re_description_multiline s).
Proof.
  assert (H : forall r, binds 1 r = true -> group1_defined (exec flag_m r s)).
  { intros r Hb. unfold group1_defined. destruct (exec flag_m r s) as [m|] eqn:E; [|exact I].
    rewrite (exec_group1 flag_m r s m Hb E). discriminate. }
  destruct patterns_bind_group1 as (H1 & H2 & H3). auto.
Qed.

(** ** Blank lines *)

Lemma terminator_is_space c : isLineTerminator c = true -> isSpace c = true.
Proof.
  unfold isLineTerminator. intros H.
  apply orb_true_iff in H. destruct H as [H | H].
  - apply orb_true_iff in H. destruct H as [H | H].
    + apply orb_true_iff in H. destruct H as [H | H];
        apply N.eqb_eq in H; subst c; reflexivity.
    + apply N.eqb_eq in H; subst c; reflexivity.
  - apply N.eqb_eq in H; subst c; reflexivity.
Qed.

Lemma terminators_are_space Z :
  forallb isLineTerminator Z = true -> forallb isSpace Z = true.
Proof.
  induction Z as [|c Z IH]; [reflexivity|]. cbn [forallb]. intros H.
  apply andb_true_iff in H. destruct H as [Hc HZ].
  now rewrite (terminator_is_space c Hc), IH.
Qed.

Lemma field_lines_In l ls : In l (field_lines ls) <-> In l ls /\ l <> delimiter.
Proof.
  unfold field_lines. rewrite filter_In. split; intros [H1 H2]; split; auto.
  - apply negb_true_iff in H2. now apply str_eqb_neq in H2.
  - apply negb_true_iff. now apply str_eqb_neq.
Qed.

Lemma field_lines_blank (Q : jsstring -> Prop) ls :
  Forall (fun l => l = delimiter \/ Q l) ls -> Forall Q (field_lines ls).
Proof.
  intros H. apply Forall_forall. intros l Hl. apply field_lines_In in Hl.
  destruct Hl as [Hin Hd].
  destruct (proj1 (Forall_forall _ _) H l Hin) as [E | HQ]; [congruence | exact HQ].
Qed.

Lemma text_of_lines_cons l ls : text_of_lines (l :: ls) = l ++ 10%N :: text_of_lines ls.
Proof. unfold text_of_lines. cbn [map concat]. now rewrite <- app_assoc. Qed.

Lemma text_of_lines_blank bs :
  Forall (fun l => blank_line l = true) bs -> forallb isSpace (text_of_lines bs) = true.
Proof.
  induction 1 as [|l bs Hl _ IH]; [reflexivity|].
  rewrite text_of_lines_cons, forallb_app. cbn [forallb].
  unfold blank_line in Hl. now rewrite Hl, IH.
Qed.

Lemma join_blank bs :
  Forall (fun l => blank_line l = true) bs -> forallb isSpace (join nl bs) = true.
Proof.
  induction 1 as [|l bs Hl HB IH]; [reflexivity|].
  destruct bs as [|l' bs']; [exact Hl|].
  change (join nl (l :: l' :: bs')) with (l ++ 10%N :: join nl (l' :: bs')).
  rewrite forallb_app. cbn [forallb]. unfold blank_line in Hl. now rewrite Hl, IH.
Qed.

Lemma join_empty es :
  Forall (eq []) es -> forallb isLineTerminator (join nl es) = true.
Proof.
  induction 1 as [|l es <- HB IH]; [reflexivity|].
  destruct es as [|l' es']; [reflexivity|].
  change (join nl ([] :: l' :: es')) with (10%N :: join nl (l' :: es')).
  cbn [forallb]. now rewrite IH.
Qed.

Lemma join_cons_cons l l' rest :
  join nl (l :: l' :: rest) = l ++ 10%N :: join nl (l' :: rest).
Proof. reflexivity. Qed.

Lemma join_cons_app (l : jsstring) A l' B :
  join nl (l :: A ++ l' :: B) = l ++ 10%N :: join nl (A ++ l' :: B).
Proof. destruct A; reflexivity. Qed.

Lemma join_cons_tail (l : jsstring) B :
  join nl (l :: B) = l ++ match B with [] => [] | _ => 10%N :: join nl B end.
Proof. destruct B; cbn [join]; [now rewrite app_nil_r | reflexivity]. Qed.

Lemma trimStart_blank b : forallb isSpace b = true -> trimStart b = [].
Proof.
  induction b as [|c b IH]; [reflexivity|]. cbn [forallb trimStart]. intros H.
  apply andb_true_iff in H. destruct H as [Hc Hb]. rewrite Hc. now apply IH.
Qed.

Lemma trim_blank b : forallb isSpace b = true -> trim b = [].
Proof. intros H. unfold trim. now rewrite (trimStart_blank b H). Qed.

(** The last character of a text that is not a line terminator. *)
Lemma last_visible : forall s,
  (exists c, In c s /\ isLineTerminator c = false) ->
  exists A c Z, s = A ++ c :: Z /\ isLineTerminator c = false
                /\ forallb isLineTerminator Z = true.
Proof.
  induction s as [|a s IH]; intros (c & Hin & Hc); [destruct Hin|].
  destruct (forallb isLineTerminator s) eqn:E.
  - destruct Hin as [-> | Hin].
    + exists [], c, s. auto.
    + exfalso. apply (proj1 (forallb_forall _ _) E) in Hin. congruence.
  - assert (H : exists c', In c' s /\ isLineTerminator c' = false).
    { clear - E. induction s as [|x s IH]; [discriminate|]. cbn [forallb] in E.
      destruct (isLineTerminator x) eqn:Ex.
      - destruct (IH E) as (c' & H1 & H2). exists c'. split; [now right | exact H2].
      - exists x. split; [now left | exact Ex]. }
    destruct (IH H) as (A & c' & Z & -> & Hc' & HZ).
    exists (a :: A), c', Z. auto.
Qed.

(** ** Lines that are dead where they stand *)

Section LineHere.
Variable K : jsstring.
Variable r2 : regex.
Hypothesis K_nonempty : K <> [].
Hypothesis K_one_line : forallb (fun a => negb (a =? 10)%N) K = true.

Local Abbreviation R := (Seq Bol (Seq (cat (map Chr K)) r2)).

Lemma line_skip l b p tail :
  no_line_terminator l = true ->
  is_match (match_here flag_m R p (l ++ 10%N :: tail)) = false ->
  exec_from flag_m R b p (l ++ 10%N :: tail)
  = exec_from flag_m R (10%N :: rev l ++ b) (Some 10%N) tail.
Proof.
  intros Hl Hhere.
  destruct l as [|c l]; cbn [app rev] in *.
  - now apply exec_from_step.
  - rewrite exec_from_step by assumption.
    cbn [no_line_terminator forallb] in Hl. apply andb_true_iff in Hl. destruct Hl as [Hc Hl].
    apply negb_true_iff in Hc.
    rewrite (skip_inside_line K r2) by assumption.
    now rewrite <- app_assoc.
Qed.

Lemma line_last l b p :
  no_line_terminator l = true ->
  is_match (match_here flag_m R p l) = false ->
  exec_from flag_m R b p l = None.
Proof.
  intros Hl Hhere.
  destruct l as [|c l].
  - now apply exec_from_nil.
  - rewrite exec_from_step by assumption.
    cbn [no_line_terminator forallb] in Hl. apply andb_true_iff in Hl. destruct Hl as [Hc Hl].
    apply negb_true_iff in Hc. now apply (inside_none K r2).
Qed.

End LineHere.

(** ** A key without a value *)

Section BlankValue.
Variable K : jsstring.
Hypothesis K_nonempty : K <> [].
Hypothesis K_one_line : forallb (fun a => negb (a =? 10)%N) K = true.
Hypothesis K_no_terminator : no_line_terminator K = true.

Local Abbreviation R :=
  (Seq Bol (Seq (cat (map Chr K)) (Seq (Star Space) (Seq (Group 1 (Plus Dot)) Eol)))).

(** After the key and line terminators only, [.+] finds no character. *)
Lemma field_value_not_here p Z :
  forallb isLineTerminator Z = true ->
  is_match (match_here flag_m R p (K ++ Z)) = false.
Proof.
  intros HZ. unfold match_here. fold (mk p (K ++ Z) []).
  rewrite matcher_Seq, matcher_Bol. destruct (at_bol flag_m _); [|reflexivity].
  rewrite matcher_Seq, str_here, lit_prefix_app, firstn_app_length, skipn_app_length.
  rewrite matcher_Seq. unfold Star, Space.
  rewrite <- (app_nil_r Z).
  rewrite star_run_fail with (P := in_class false [CSpace]); [reflexivity | reflexivity | | | ].
  - rewrite (forallb_eq _ _ Z in_class_space). now apply terminators_are_space.
  - exact I.
  - intros W1 W2 E. rewrite app_nil_r, matcher_Seq, matcher_Group. cbv beta. unfold Plus.
    rewrite plus_char with (P := fun c => negb (isLineTerminator c)) by reflexivity.
    destruct W2 as [|c W2]; [reflexivity|].
    rewrite E, forallb_app in HZ. apply andb_true_iff in HZ. destruct HZ as [_ HZ].
    cbn [forallb] in HZ. apply andb_true_iff in HZ. destruct HZ as [Hc _].
    now rewrite Hc.
Qed.

(** The key on a line of its own, followed by empty lines only. *)
Lemma bare_key_none es b p :
  Forall (eq []) es -> exec_from flag_m R b p (join nl (K :: es)) = None.
Proof.
  intros Hes. destruct es as [|e es].
  - cbn [join]. apply line_last; [exact K_no_terminator|].
    rewrite <- (app_nil_r K) at 2. now apply field_value_not_here.
  - rewrite join_cons_cons.
    rewrite line_skip; [|exact K_no_terminator|].
    + apply dead_lines_none; [exact K_nonempty | exact K_one_line|].
      apply Forall_forall. intros l Hl.
      apply other_line_dead; [exact K_one_line|].
      apply (proj1 (Forall_forall _ _) Hes) in Hl. subst l. split; [reflexivity|].
      intros [t Ht]. destruct K; [congruence | discriminate].
    + apply (field_value_not_here p (10%N :: join nl (e :: es))).
      cbn [forallb]. now rewrite (join_empty _ Hes).
Qed.

(** After the key, white space whose last character that is not a line
    terminator is [c]: [\s*] gives the characters back down to [c], which
    alone is the value. *)
Lemma field_value_blank_here p A c Z :
  at_bol flag_m (mk p [] []) = true ->
  forallb isSpace A = true -> isSpace c = true -> isLineTerminator c = false ->
  forallb isLineTerminator Z = true ->
  exists y, match_here flag_m R p (K ++ A ++ c :: Z) = Match y
            /\ capture 1 y = Some [c].
Proof.
  intros Hbol HA Hc Hct HZ.
  eexists. split.
  - unfold match_here. fold (mk p (K ++ A ++ c :: Z) []).
    rewrite matcher_Seq, matcher_Bol.
    replace (at_bol flag_m (mk p _ [])) with true by (symmetry; exact Hbol).
    rewrite matcher_Seq, str_here, lit_prefix_app, firstn_app_length, skipn_app_length.
    rewrite matcher_Seq. unfold Star, Space.
    replace (A ++ c :: Z) with (A ++ (c :: Z) ++ []) by now rewrite app_nil_r.
    apply star_run_back with (P := in_class false [CSpace]).
    + reflexivity.
    + rewrite (forallb_eq _ _ (A ++ c :: Z) in_class_space), forallb_app. cbn [forallb].
      now rewrite HA, Hc, (terminators_are_space Z HZ).
    + exact I.
    + intros A' B E HA'. rewrite app_nil_r, matcher_Seq, matcher_Group. cbv beta.
      unfold Plus.
      rewrite plus_char with (P := fun c => negb (isLineTerminator c)) by reflexivity.
      destruct B as [|b B]; [reflexivity|].
      destruct A' as [|a A']; [congruence|]. cbn [app] in E. injection E as _ E.
      rewrite E, forallb_app in HZ. apply andb_true_iff in HZ. destruct HZ as [_ HZ].
      cbn [forallb] in HZ. apply andb_true_iff in HZ. destruct HZ as [Hb _].
      now rewrite Hb.
    + rewrite app_nil_r, matcher_Seq, matcher_Group. cbv beta. unfold Plus.
      rewrite plus_char with (P := fun c => negb (isLineTerminator c)) by reflexivity.
      rewrite Hct. cbn [negb].
      apply (star_run flag_m Dot (fun c => negb (isLineTerminator c))
               (fun _ _ => eq_refl) _ Z _ _ [] (Some c)).
      * reflexivity.
      * destruct Z as [|z Z']; [exact I|]. cbn [forallb] in HZ.
        apply andb_true_iff in HZ. destruct HZ as [Hz _]. cbn [stops]. now rewrite Hz.
      * rewrite matcher_Eol.
        replace (at_eol flag_m _) with true; [reflexivity|].
        unfold at_eol. cbn [rest set_cap mk prev_of]. destruct Z as [|z Z']; [reflexivity|].
        cbn [forallb] in HZ. apply andb_true_iff in HZ. destruct HZ as [Hz _]. now rewrite Hz.
  - rewrite capture_set_cap. cbn [Nat.eqb rest mk length].
    f_equal. replace (S (length Z) - length Z) with 1 by lia. reflexivity.
Qed.

End BlankValue.

Lemma name_key_one_line : forallb (fun a => negb (a =? 10)%N) name_key = true.
Proof. reflexivity. Qed.

Lemma missing_name_output p :
  checked p -> frontMatterLines_or_empty p <> [] ->
  name_field (frontmatter_text (frontMatterLines_or_empty p)) = None ->
  filter is_name_related (skillFrontmatter p) = [missing_name].
Proof.
  intros Hp Hne Hn. rewrite (skillFrontmatter_checked p Hp Hne).
  rewrite filter_app, description_errors_unrelated, app_nil_r.
  unfold name_errors. rewrite Hn. reflexivity.
Qed.

(** X13.  The first [name:] line with a blank value does not give
    [Missing name] when an entry with text follows: the white space after
    the key runs over the ends of the lines, over blank entries as well
    (and delimiters are filtered out), and the first entry after them
    that is neither blank nor a delimiter (and in one piece) is taken for
    the name, as a whole, trimmed and stripped of its quotes. *)
Theorem X13_empty_name_takes_next_line
    (ls mid rest : list jsstring) (w l2 : jsstring) :
  Forall (other_line name_key) ls ->
  forallb isSpace w = true ->
  Forall blank_or_delimiter mid ->
  l2 <> delimiter -> no_line_terminator l2 = true -> trimStart l2 <> [] ->
  name_field (frontmatter_text (ls ++ (name_key ++ w) :: mid ++ l2 :: rest))
  = Some (unquote l2).
Proof.
  intros Hls Hw Hmid Hd Hl2 Hne.
  rewrite frontmatter_text_field_lines, field_lines_app by discriminate.
  rewrite (field_lines_app mid l2 rest Hd).
  rewrite join_app.
  rewrite join_cons_app, join_app.
  destruct (join_cons l2 (field_lines rest)) as (tail & -> & Ht).
  destruct (trimStart_split l2) as (W & HW & HWs).
  replace ((name_key ++ w) ++ 10%N :: text_of_lines (field_lines mid) ++ l2 ++ tail)
    with (name_key ++ (w ++ 10%N :: text_of_lines (field_lines mid) ++ W)
          ++ trimStart l2 ++ tail).
  2:{ rewrite HW at 2. rewrite <- !app_assoc. cbn [app]. now rewrite <- !app_assoc. }
  rewrite name_field_text; auto using Forall_field_lines, trimStart_stops,
    no_line_terminator_trimStart.
  - unfold unquote. now rewrite trim_trimStart.
  - rewrite forallb_app. cbn [forallb]. rewrite forallb_app, Hw, HWs.
    rewrite text_of_lines_blank; [reflexivity|].
    now apply field_lines_blank.
Qed.

Lemma X13_empty_name_takes_next_line_witness :
  name_field (frontmatter_text
                ([lit "---"] ++ (name_key ++ lit " ")
                 :: [lit ""; lit "  "] ++ lit "description: A description." :: [lit "---"]))
  = Some (unquote (lit "description: A description.")).
Proof.
  apply X13_empty_name_takes_next_line;
    [other_lines_here | reflexivity
    | repeat (constructor; [right; reflexivity|]); constructor
    | discriminate | reflexivity | discriminate].
Defined.

(** X17.  A [name:] line with nothing after the key, followed by nothing
    but empty entries and delimiters, gives [Missing name]: [.+] finds no
    character on the line or after it.  (No line before it starts with
    [name:].) *)
Theorem X17_bare_name_missing (p : params) (ls post : list jsstring) :
  checked p ->
  frontMatterLines_or_empty p = ls ++ name_key :: post ->
  Forall (other_line name_key) ls ->
  Forall empty_or_delimiter post ->
  name_field (frontmatter_text (frontMatterLines_or_empty p)) = None
  /\ filter is_name_related (skillFrontmatter p) = [missing_name].
Proof.
  intros Hp Hfm Hls Hpost.
  assert (Hn : name_field (frontmatter_text (frontMatterLines_or_empty p)) = None).
  { rewrite Hfm, frontmatter_text_field_lines, field_lines_app by discriminate.
    rewrite join_app. unfold name_field, exec.
    change re_name with
      (Seq Bol (Seq (cat (map Chr name_key))
                    (Seq (Star Space) (Seq (Group 1 (Plus Dot)) Eol)))).
    rewrite (skip_lines name_key _ name_key_one_line) by now apply Forall_field_lines.
    rewrite bare_key_none; [reflexivity | discriminate | reflexivity | reflexivity |].
    apply (field_lines_blank (eq [])).
    revert Hpost. apply Forall_impl. intros l [H | H]; [now left | right; now symmetry]. }
  split; [exact Hn|].
  apply missing_name_output; [exact Hp | | exact Hn].
  rewrite Hfm. now destruct ls.
Qed.

Lemma X17_bare_name_missing_witness :
  name_field (frontmatter_text (frontMatterLines_or_empty skill_bare_name)) = None
  /\ filter is_name_related (skillFrontmatter skill_bare_name) = [missing_name].
Proof.
  apply (X17_bare_name_missing skill_bare_name
           [lit "---"; lit "description: A description that is long enough."]
           [lit "---"; lit ""]).
  - reflexivity.
  - reflexivity.
  - other_lines_here.
  - constructor; [now left|]. constructor; [now right|]. constructor.
Defined.

(** X18.  The first [name:] line, with a blank value, followed by nothing
    but blank entries (each in one piece) and delimiters: when the value
    or one of these entries holds a character, [Missing name] is not
    given either.  [\s*] gives characters back, [.+] takes the last one
    that is not a line terminator, and the name is the empty string. *)
Theorem X18_blank_name_is_empty (ls post : list jsstring) (w : jsstring) :
  Forall (other_line name_key) ls ->
  forallb isSpace w = true -> no_line_terminator w = true ->
  Forall blank_entry post ->
  w <> [] \/ (exists b, In b post /\ b <> delimiter /\ b <> []) ->
  name_field (frontmatter_text (ls ++ (name_key ++ w) :: post)) = Some [].
Proof.
  intros Hls Hw Hwt Hpost Hsome.
  rewrite frontmatter_text_field_lines, field_lines_app by discriminate.
  rewrite join_app.
  assert (Hbs : Forall (fun l => blank_line l = true /\ no_line_terminator l = true)
                  (field_lines post)) by now apply field_lines_blank.
  assert (Hbl : Forall (fun l => blank_line l = true) (field_lines post))
    by (revert Hbs; apply Forall_impl; tauto).
  rewrite join_cons_tail, <- app_assoc.
  set (tail := match field_lines post with
               | [] => []
               | _ => 10%N :: join nl (field_lines post)
               end).
  assert (Hsp : forallb isSpace (w ++ tail) = true).
  { rewrite forallb_app, Hw. unfold tail.
    destruct (field_lines post) as [|b0 bs0]; [reflexivity|].
    cbn [forallb]. rewrite (join_blank _ Hbl). reflexivity. }
  assert (Hvis : exists c, In c (w ++ tail) /\ isLineTerminator c = false).
  { destruct Hsome as [Hne | (b & Hin & Hbd & Hbe)].
    - destruct w as [|c w']; [congruence|]. exists c. split; [now left|].
      cbn [no_line_terminator forallb] in Hwt. apply andb_true_iff in Hwt.
      now apply negb_true_iff.
    - assert (Hb : In b (field_lines post)) by (apply field_lines_In; now split).
      destruct b as [|c b']; [congruence|]. exists c. split.
      + apply in_or_app. right. unfold tail.
        destruct (join_In _ _ Hb) as (A & B & HAB & _).
        destruct (field_lines post); [destruct Hb|]. right. rewrite HAB.
        apply in_or_app. right. now left.
      + destruct (proj1 (Forall_forall _ _) Hbs _ Hb) as [_ Hbt].
        cbn [no_line_terminator forallb] in Hbt. apply andb_true_iff in Hbt.
        now apply negb_true_iff. }
  destruct (last_visible _ Hvis) as (A & c & Z & HAZ & Hc & HZ).
  change (name_field (text_of_lines (field_lines ls) ++ name_key ++ (w ++ tail)) = Some []).
  rewrite HAZ in Hsp |- *. rewrite forallb_app in Hsp. cbn [forallb] in Hsp.
  apply andb_true_iff in Hsp. destruct Hsp as [HA Hsp].
  apply andb_true_iff in Hsp. destruct Hsp as [Hcs _].
  unfold name_field, exec.
  change re_name with
    (Seq Bol (Seq (cat (map Chr name_key))
                  (Seq (Star Space) (Seq (Group 1 (Plus Dot)) Eol)))).
  rewrite (skip_lines name_key _ name_key_one_line) by now apply Forall_field_lines.
  destruct (field_value_blank_here name_key
              (match field_lines ls with [] => None | _ => Some 10%N end) A c Z)
    as (y & Hy & Hcap); auto using at_bol_after_lines.
  rewrite (exec_from_here _ _ _ _ _ _ Hy).
  unfold group1. cbn [snd]. rewrite Hcap.
  unfold unquote. rewrite trim_blank; [reflexivity|].
  cbn [forallb]. now rewrite Hcs.
Qed.

Lemma X18_blank_name_is_empty_witness :
  name_field (frontmatter_text
                ([lit "---"; lit "description: A description."]
                 ++ (name_key ++ lit " ") :: [lit "---"; lit ""]))
  = Some [].
Proof.
  apply X18_blank_name_is_empty.
  - other_lines_here.
  - reflexivity.
  - reflexivity.
  - constructor; [now left|]. constructor; [right; split; reflexivity|]. constructor.
  - left. discriminate.
Defined.

(** ** A block marker followed by blank lines *)


(** After the marker, white space up to the end of the text: [\s*] gives
    the characters back down to the last newline, and the group is what
    follows it. *)
Lemma block_here_blank p w1 W1 bn :
  at_bol flag_m (mk p [] []) = true ->
  forallb isSpace w1 = true -> forallb isSpace W1 = true ->
  forallb isSpace bn = true -> no_line_terminator bn = true ->
  exists y, match_here flag_m M p
              (description_key ++ w1 ++ gt_sign :: W1 ++ 10%N :: bn) = Match y
            /\ capture 1 y = Some bn.
Proof.
  intros Hbol Hw1 HW1 Hbn Hbt.
  assert (H : forall X, X = [] ->
            exists y, match_here flag_m M p
                        (description_key ++ w1 ++ gt_sign :: W1 ++ 10%N :: bn ++ X) = Match y
                      /\ capture 1 y = Some bn);
    [|destruct (H [] eq_refl) as (y & Hy & Hc); rewrite app_nil_r in Hy; eauto].
  intros X ->. eexists. split.
  - unfold match_here.
    fold (mk p (description_key ++ w1 ++ gt_sign :: W1 ++ 10%N :: bn ++ []) []).
    rewrite matcher_Seq, matcher_Bol.
    replace (at_bol flag_m (mk p _ [])) with true by (symmetry; exact Hbol).
    rewrite matcher_Seq, str_here, lit_prefix_app, firstn_app_length, skipn_app_length.
    change M2 with (Seq (Star Space) (Seq (Chr (ch ">")) (Seq (Star Space) (Seq (Chr 10%N)
        (Seq (Group 1 (StarLazy (Class false [CSpace; CNonSpace])))
             (LookAhead (Alt Key Eol))))))).
    rewrite matcher_Seq. unfold Star, Space.
    apply star_run with (P := in_class false [CSpace]).
    + reflexivity.
    + rewrite <- Hw1. apply forallb_eq, in_class_space.
    + reflexivity.
    + rewrite matcher_Seq, matcher_Chr. unfold gt_sign. rewrite char_matcher_cons.
      cbn [ignoreCase flag_m]. change (62 =? ch ">")%N with true. cbv iota.
      rewrite matcher_Seq.
      change (W1 ++ 10%N :: bn ++ []) with (W1 ++ (10%N :: bn) ++ []).
      apply star_run_back with (P := in_class false [CSpace]).
      * reflexivity.
      * rewrite (forallb_eq _ _ (W1 ++ 10%N :: bn) in_class_space), forallb_app.
        cbn [forallb]. now rewrite HW1, Hbn.
      * exact I.
      * intros A B E HA. rewrite app_nil_r, matcher_Seq, matcher_Chr.
        cbn [ignoreCase flag_m].
        destruct A as [|a A']; [congruence|]. cbn [app] in E. injection E as _ E.
        destruct B as [|b B']; [reflexivity|].
        rewrite char_matcher_cons.
        replace (b =? 10)%N with false; [reflexivity|].
        symmetry. apply not_terminator_not_newline.
        rewrite E, no_line_terminator_app in Hbt.
        apply andb_true_iff in Hbt. destruct Hbt as [_ Hbt].
        cbn [no_line_terminator forallb] in Hbt. apply andb_true_iff in Hbt.
        now apply negb_true_iff.
      * rewrite matcher_Seq, matcher_Chr. cbn [app]. rewrite char_matcher_cons.
        cbn [ignoreCase flag_m]. change (10 =? 10)%N with true. cbv iota.
        rewrite matcher_Seq, matcher_Group. cbv beta. unfold StarLazy.
        apply lazy_run with (P := in_class false [CSpace; CNonSpace]).
        -- reflexivity.
        -- apply forallb_forall. intros c _. apply in_class_any.
        -- intros L1 L2 E HL2. destruct L2 as [|c L2']; [congruence|].
           apply lookahead_inside with (c := c) (X := L2' ++ []); [reflexivity|].
           rewrite E, no_line_terminator_app in Hbt. apply andb_true_iff in Hbt.
           destruct Hbt as [_ Hl]. cbn [no_line_terminator forallb] in Hl.
           apply andb_true_iff in Hl. now apply negb_true_iff.
        -- rewrite lookahead_at_eol; reflexivity.
  - rewrite capture_set_cap. cbn [Nat.eqb rest mk length].
    f_equal. rewrite app_nil_r, Nat.sub_0_r. apply firstn_all.
Qed.

Lemma last_or_nil {A} (l : list A) : l = [] \/ exists l' a, l = l' ++ [a].
Proof. induction l as [|a l' _] using rev_ind; [now left | right; eauto]. Qed.

(** The text of blank lines, after a newline, ends with a newline. *)
Lemma newline_before_last init :
  Forall (fun l => blank_line l = true) init ->
  exists W, 10%N :: text_of_lines init = W ++ [10%N] /\ forallb isSpace W = true.
Proof.
  intros H. destruct (last_or_nil init) as [-> | (init' & b & ->)].
  - now exists [].
  - apply Forall_app in H. destruct H as [H Hb]. inversion Hb as [|? ? Hb' _]; subst.
    exists (10%N :: text_of_lines init' ++ b). split.
    + unfold text_of_lines. rewrite map_app, concat_app. cbn [map concat nl].
      rewrite app_nil_r. cbn [app]. rewrite <- !app_assoc. reflexivity.
    + cbn [forallb]. rewrite forallb_app, (text_of_lines_blank _ H). exact Hb'.
Qed.

(** X19.  A block marker that only blank entries and delimiters follow,
    at least one blank entry among them (the empty entry after the closing
    delimiter is one): the block pattern matches, its group holds white
    space only, the description is the empty string, and the rule reports
    [Description too short] with the length 0.  (No line before the marker
    starts with [description:]; the blank entries are in one piece.) *)
Theorem X19_block_marker_then_blank
    (p : params) (ls post : list jsstring) (w1 w2 : jsstring) :
  checked p ->
  frontMatterLines_or_empty p = ls ++ (description_key ++ w1 ++ gt_sign :: w2) :: post ->
  Forall (other_line description_key) ls ->
  forallb isSpace w1 = true -> forallb isSpace w2 = true ->
  Forall blank_entry post ->
  (exists b, In b post /\ b <> delimiter) ->
  description_field (frontmatter_text (frontMatterLines_or_empty p)) = Some []
  /\ In (description_too_short []) (skillFrontmatter p)
  /\ detail (description_too_short [])
     = lit "Description should be at least 20 characters (current: 0)".
Proof.
  intros Hp Hfm Hls Hw1 Hw2 Hpost (b & Hb & Hbd).
  assert (Hd : description_field (frontmatter_text (frontMatterLines_or_empty p)) = Some []).
  { rewrite Hfm, frontmatter_text_field_lines, field_lines_app by discriminate.
    assert (Hbs : Forall (fun l => blank_line l = true /\ no_line_terminator l = true)
                    (field_lines post)) by now apply field_lines_blank.
    assert (Hin : In b (field_lines post)) by (apply field_lines_In; now split).
    destruct (last_or_nil (field_lines post)) as [E | (init & bn & E)];
      [rewrite E in Hin; destruct Hin|].
    rewrite E in Hbs |- *. apply Forall_app in Hbs. destruct Hbs as [Hinit Hbn].
    inversion Hbn as [|? ? [Hbn1 Hbn2] _]; subst.
    assert (Hinit' : Forall (fun l => blank_line l = true) init)
      by (revert Hinit; apply Forall_impl; tauto).
    destruct (newline_before_last init Hinit') as (W & HW & HWs).
    rewrite join_app, join_cons_app, join_lines.
    replace ((description_key ++ w1 ++ gt_sign :: w2) ++ 10%N :: text_of_lines init ++ bn)
      with (description_key ++ w1 ++ gt_sign :: (w2 ++ W) ++ 10%N :: bn).
    2:{ rewrite <- !app_assoc. cbn [app]. do 4 f_equal.
        change (10%N :: text_of_lines init ++ bn)
          with ((10%N :: text_of_lines init) ++ bn).
        rewrite HW, <- app_assoc. reflexivity. }
    assert (Hm : exists m, exec flag_m M
               (text_of_lines (field_lines ls)
                ++ description_key ++ w1 ++ gt_sign :: (w2 ++ W) ++ 10%N :: bn) = Some m
               /\ group1 m = bn).
    { unfold exec.
      rewrite (skip_lines description_key _ description_key_one_line)
        by now apply Forall_field_lines.
      destruct (block_here_blank (match field_lines ls with [] => None | _ => Some 10%N end)
                  w1 (w2 ++ W) bn) as (y & Hy & Hc); auto using at_bol_after_lines.
      - rewrite forallb_app. now rewrite Hw2, HWs.
      - eexists. split; [apply exec_from_here; exact Hy|].
        unfold group1. cbn [snd]. now rewrite Hc. }
    destruct Hm as (m & Hm & Hg).
    etransitivity; [exact (description_field_block _ m Hm)|].
    rewrite Hg. unfold replaceAll. rewrite replace_newline_indent by exact Hbn2.
    now rewrite trim_blank. }
  split; [exact Hd|]. split; [|reflexivity].
  assert (Hne : frontMatterLines_or_empty p <> []) by (rewrite Hfm; now destruct ls).
  rewrite (skillFrontmatter_checked p Hp Hne).
  unfold description_errors. rewrite Hd. apply in_or_app. right. now left.
Qed.

Lemma X19_block_marker_then_blank_witness :
  description_field (frontmatter_text (frontMatterLines_or_empty skill_marker_then_blank))
  = Some []
  /\ In (description_too_short []) (skillFrontmatter skill_marker_then_blank)
  /\ detail (description_too_short [])
     = lit "Description should be at least 20 characters (current: 0)".
Proof.
  apply (X19_block_marker_then_blank skill_marker_then_blank
           [lit "---"; lit "name: my-skill"] [lit "---"; lit ""] (lit " ") []).
  - reflexivity.
  - reflexivity.
  - other_lines_here.
  - reflexivity.
  - reflexivity.
  - constructor; [now left|]. constructor; [right; split; reflexivity|]. constructor.
  - exists []. split; [right; now left | discriminate].
Defined.

End Properties.
